(** * caccl-api: endpoint dispatch, caching and cache invalidation

    A shallow embedding of the endpoint category class
    ([classes/EndpointCategory]), of the caching wrapper around
    [visitEndpoint] ([wrapVisitEndpoint]) and of the endpoints that the
    properties below mention ([api.other.endpoint],
    [api.course.groupSet.create]).

    JavaScript values are a small inductive type; objects that the code
    mutates in place (the config object, cache instances) live in a heap
    and are named by references, so that aliasing is visible.  Promises
    are represented by the state they settle in: every function is run
    until the promise chain it started has settled. *)

From Stdlib Require Import ZArith String Ascii List DecimalString.
From stdpp Require Import base option gmap strings list fin_maps.

Local Open Scope string_scope.
Local Set Warnings "-register-all".

(** ** JavaScript values *)

Definition loc := nat.

(** [errorCodes.invalid_cache] is the one error code that the embedded
    sources use. *)
Inductive errorCode :=
| invalid_cache.

(** [MissingParameter] is the error of the endpoint binder, which names
    the action and the required fields that were left out. *)
Inductive error :=
| CACCLError (message : string) (code : errorCode)
| MissingParameter (action : string) (missing : list string)
| TypeError.

(** Functions that may sit in a config object: the two [uncache]
    closures that [_preProcessParams] creates (the first one captures the
    config object), and functions supplied by the host program. *)
Inductive fn :=
| FUncache (config : loc)
| FUncacheDummy
| FHost (id : nat).

Inductive pstate := fulfilled | rejected.

Inductive value :=
| VUndefined
| VNull
| VBool (b : bool)
| VNum (n : Z)
| VStr (s : string)
| VArr (items : list value)
| VObj (fields : gmap string value)
| VRef (l : loc)
| VFun (f : fn)
| VError (e : error)
| VPromise (st : pstate) (v : value).

(** [!v] is [negb (truthy v)]: undefined, null, false, 0 and the empty
    string are falsy, everything else is truthy.  Numbers are integers
    here, so NaN does not occur. *)
Definition truthy (v : value) : bool :=
  match v with
  | VUndefined | VNull => false
  | VBool b => b
  | VNum n => negb (n =? 0)%Z
  | VStr s => negb (String.eqb s "")
  | _ => true
  end.

(** [a || b] *)
Definition or_else (a b : value) : value := if truthy a then a else b.

(** [v.k] on a value that is not undefined or null.  Payloads are plain
    values: a reference names a config object or a cache instance, which
    no payload is. *)
Definition prop (v : value) (k : string) : value :=
  match v with
  | VObj fields => default VUndefined (fields !! k)
  | _ => VUndefined
  end.

Definition isArray (v : value) : bool :=
  match v with VArr _ => true | _ => false end.

(** [v === s] for a string literal [s]. *)
Definition is_str (v : value) (s : string) : bool :=
  match v with VStr s' => String.eqb s' s | _ => false end.

(** [Promise.resolve(v)]: a promise is returned as it is. *)
Definition Promise_resolve (v : value) : value :=
  match v with
  | VPromise _ _ => v
  | _ => VPromise fulfilled v
  end.

(** The string a template literal puts in place of [${v}].  An array
    is the comma-separated list of its items, with nothing for null and
    undefined; the text of a function or of an error is not modelled. *)
Fixpoint toString (v : value) : string :=
  match v with
  | VUndefined => "undefined"
  | VNull => "null"
  | VBool true => "true"
  | VBool false => "false"
  | VNum n => NilZero.string_of_int (Z.to_int n)
  | VStr s => s
  | VArr items =>
      (fix join (l : list value) : string :=
         match l with
         | [] => ""
         | x :: rest =>
             let item :=
               match x with
               | VUndefined | VNull => ""
               | _ => toString x
               end in
             match rest with
             | [] => item
             | _ => item ++ "," ++ join rest
             end
         end) items
  | VFun _ => "function"
  | VError _ => "Error"
  | VPromise _ _ => "[object Promise]"
  | VObj _ | VRef _ => "[object Object]"
  end.

(** ** String helpers of the uncache function *)

(** [s.endsWith('*')] *)
Fixpoint endsWithStar (s : string) : bool :=
  match s with
  | EmptyString => false
  | String c EmptyString => Ascii.eqb c "*"
  | String _ rest => endsWithStar rest
  end.

(** [s.split('*')[0]]: the text before the first star. *)
Fixpoint beforeStar (s : string) : string :=
  match s with
  | EmptyString => EmptyString
  | String c rest => if Ascii.eqb c "*" then EmptyString else String c (beforeStar rest)
  end.

(** [s.startsWith(p)] *)
Fixpoint startsWith (s p : string) : bool :=
  match p, s with
  | EmptyString, _ => true
  | String a p', String b s' => Ascii.eqb a b && startsWith s' p'
  | String _ _, EmptyString => false
  end.

(** ** Cache instances *)

Module Cache.

(** Modelled from the spec: the cache classes ([classes/caches/MemoryCache]
    and [classes/caches/SessionCache]) are not among the sources.  The spec
    gives their contract: [get(key) -> value | absent], [set(key, value)],
    [delete(key)], [deleteMany(keys)], [listAllKeys()], and a flag telling
    whether in-flight promises rather than raw values are stored; one
    implementation is backed by an in-process map, the other one is
    attached to a session handle supplied by the caller.  The source calls
    them [get], [set], [clear], [deletePaths], [getAllPaths] and
    [storePromises].  Keys are strings: clearing a key that is not a
    string removes nothing. *)
Record t := Make {
  store : gmap string value;
  storePromises : bool;
  session : option value;
}.

Definition withStore (c : t) (m : gmap string value) : t :=
  {| store := m; storePromises := storePromises c; session := session c |}.

(** Modelled from the spec: [get(key) -> value | absent]; an absent key
    gives undefined. *)
Definition get (c : t) (key : string) : value :=
  default VUndefined (store c !! key).

(** Modelled from the spec: [set(key, value)]. *)
Definition set (c : t) (key : string) (v : value) : t :=
  withStore c (<[key := v]> (store c)).

(** Modelled from the spec: [delete(key)], called [clear] in the source. *)
Definition clear (c : t) (key : value) : t :=
  match key with
  | VStr k => withStore c (delete k (store c))
  | _ => c
  end.

(** Modelled from the spec: [listAllKeys() -> sequence of key], called
    [getAllPaths] in the source. *)
Definition getAllPaths (c : t) : list string :=
  elements (dom (store c)).

(** Modelled from the spec: [deleteMany(keys)], called [deletePaths] in
    the source. *)
Definition deletePaths (c : t) (paths : list string) : t :=
  withStore c (foldr delete (store c) paths).

(** Modelled from the spec: the in-process map-backed cache, empty when
    it is made. *)
Definition MemoryCache (storesPromises : bool) : t :=
  {| store := ∅; storePromises := storesPromises; session := None |}.

(** Modelled from the spec: the session-scoped cache, attached to the
    session handle [req] that the caller supplies.  Its storage belongs to
    the session; what a session holds already is not modelled, and no
    statement is made about what a new session cache holds. *)
Definition SessionCache (storesPromises : bool) (req : value) : t :=
  {| store := ∅; storePromises := storesPromises; session := Some req |}.

End Cache.

(** ** The mutable world: heap objects and the requests sent so far *)

Inductive cell :=
| CObject (fields : gmap string value)
| CCache (c : Cache.t).

(** The options object handed to [visitEndpoint]. *)
Record request := Request {
  path : string;
  method : value;
  params : option (gmap string value);
}.

Record world := World {
  heap : gmap loc cell;
  calls : list request;
}.

Inductive completion :=
| Returns (v : value)
| Throws (e : error).

(** What the promise of the underlying [visitEndpoint] settles to. *)
Inductive outcome :=
| Resolves (endpointResults : value)
| Rejects (reason : value).

Definition setHeap (w : world) (h : gmap loc cell) : world :=
  {| heap := h; calls := calls w |}.

Definition getField (w : world) (o : loc) (k : string) : value :=
  match heap w !! o with
  | Some (CObject fields) => default VUndefined (fields !! k)
  | _ => VUndefined
  end.

Definition setField (w : world) (o : loc) (k : string) (v : value) : world :=
  match heap w !! o with
  | Some (CObject fields) => setHeap w (<[o := CObject (<[k := v]> fields)]> (heap w))
  | _ => w
  end.

Definition alloc (w : world) (c : cell) : loc * world :=
  let l := fresh (dom (heap w)) in
  (l, setHeap w (<[l := c]> (heap w))).

(** The cache instance a value refers to, when it refers to one. *)
Definition cacheAt (w : world) (v : value) : option (loc * Cache.t) :=
  match v with
  | VRef l =>
      match heap w !! l with
      | Some (CCache c) => Some (l, c)
      | _ => None
      end
  | _ => None
  end.

Definition setCache (w : world) (l : loc) (c : Cache.t) : world :=
  setHeap w (<[l := CCache c]> (heap w)).

(** [p.then(cb)], with [p] settled and [cb] run to completion. *)
Definition then_ (p : value) (cb : value -> world -> completion * world)
    (w : world) : completion * world :=
  match p with
  | VPromise fulfilled v =>
      match cb v w with
      | (Returns r, w') => (Returns (Promise_resolve r), w')
      | (Throws e, w') => (Returns (VPromise rejected (VError e)), w')
      end
  | VPromise rejected _ => (Returns p, w)
  | _ => (Throws TypeError, w)
  end.

(** ** classes/EndpointCategory *)

Module EndpointCategory.

Definition quoted (s : string) : string :=
  String (ascii_of_nat 34) s ++ String (ascii_of_nat 34) EmptyString.

Definition invalidCacheMessage : string :=
  "Canvas API was initialized improperly: cacheType must be "
  ++ quoted "memory" ++ " or " ++ quoted "session" ++ ". If "
  ++ quoted "session" ++ ", req must be included.".

(** The paths that the uncache function deletes, given the paths it was
    asked to uncache and the paths that the cache lists. *)
Definition pathsToUncache (paths cachedPaths : list string) : list string :=
  flat_map
    (fun path =>
       if endsWithStar path then
         let prefix := beforeStar path in
         List.filter (fun cachedPath => startsWith cachedPath prefix) cachedPaths
       else [path])
    paths.

(** The uncache function that changes the cache.  It is a closure over
    the config object: [config.cache] is read when the function runs. *)
Definition uncache (config : loc) (paths : list string) (response : value)
    (w : world) : completion * world :=
  match cacheAt w (getField w config "cache") with
  | Some (l, c) =>
      let cachedPaths := Cache.getAllPaths c in
      let c' := Cache.deletePaths c (pathsToUncache paths cachedPaths) in
      (Returns (Promise_resolve response), setCache w l c')
  | None => (Throws TypeError, w)
  end.

(** The dummy uncache function used when there is no cache. *)
Definition uncacheDummy (paths : list string) (response : value)
    (w : world) : completion * world :=
  (Returns (Promise_resolve response), w).

Section preProcess.

(** Whether the two cache classes store promises is decided in their
    sources, which are not available. *)
Variable memoryStoresPromises sessionStoresPromises : bool.

(** [// Initialize the cache]: the error to throw, if any, and the world
    after the step. *)
Definition initCache (config : loc) (w : world) : option error * world :=
  if negb (truthy (getField w config "cache")) then
    if is_str (getField w config "cacheType") "memory" then
      let '(c, w1) := alloc w (CCache (Cache.MemoryCache memoryStoresPromises)) in
      (None, setField w1 config "cache" (VRef c))
    else if is_str (getField w config "cacheType") "session"
            && truthy (getField w config "req") then
      let '(c, w1) :=
        alloc w (CCache (Cache.SessionCache sessionStoresPromises
                           (getField w config "req"))) in
      (None, setField w1 config "cache" (VRef c))
    else if truthy (getField w config "cacheType") then
      (Some (CACCLError invalidCacheMessage invalid_cache), w)
    else (None, w)
  else (None, w).

(** [// Initialize the uncache function] *)
Definition initUncache (config : loc) (w : world) : world :=
  if negb (truthy (getField w config "uncache")) then
    if truthy (getField w config "cache") then
      setField w config "uncache" (VFun (FUncache config))
    else
      setField w config "uncache" (VFun FUncacheDummy)
  else w.

(** [_preProcessParams(oldConfig)], a method of the instance [this].
    [const config = oldConfig] makes [config] another name of the
    caller's object, which the assignments below change in place. *)
Definition _preProcessParams (this oldConfig : loc) (w : world)
    : completion * world :=
  let config := oldConfig in
  let w1 :=
    if negb (truthy (getField w config "api")) then
      setField w config "api" (VRef this)
    else w in
  match initCache config w1 with
  | (Some e, w2) => (Throws e, w2)
  | (None, w2) => (Returns (VRef config), initUncache config w2)
  end.

End preProcess.

End EndpointCategory.

(** ** wrapVisitEndpoint *)

Module Wrap.

Record config := Config {
  cache : value;
  accessToken : value;
  (** the underlying [visitEndpoint]: what its promise settles to, given
      the request and the requests sent before it *)
  visitEndpoint : request -> list request -> outcome;
}.

(** [// Add access token to request].  [requestOptions] is the caller's
    options object itself, so the request that is logged is also what the
    caller's object looks like afterwards. *)
Definition addAccessToken (cfg : config) (options : request) : request :=
  {| path := path options;
     method := method options;
     params := Some (<["access_token" := accessToken cfg]>
                       (default ∅ (params options))) |}.

Definition uncacheExcluded (endpointResults : value) : bool :=
  negb (truthy endpointResults)
  || negb (truthy (prop endpointResults "uncache"))
  || negb (isArray (prop endpointResults "uncache")).

Definition response (endpointResults : value) : value :=
  if uncacheExcluded endpointResults then endpointResults
  else prop endpointResults "response".

Definition uncacheKeys (endpointResults : value) : list value :=
  match prop endpointResults "uncache" with
  | VArr keys => keys
  | _ => []
  end.

(** The success callback: the promise it settles, and the world after
    it. *)
Definition onSuccess (cfg : config) (options : request)
    (endpointResults : value) (w : world) : value * world :=
  let valuePromise := Promise_resolve (response endpointResults) in
  if truthy (cache cfg) then
    match cacheAt w (cache cfg) with
    | Some (l, c) =>
        (* > Save in cache *)
        let c1 :=
          if Cache.storePromises c then Cache.set c (path options) valuePromise
          else Cache.set c (path options) (response endpointResults) in
        (* > Uncache if applicable *)
        let c2 :=
          if negb (uncacheExcluded endpointResults) then
            foldl Cache.clear c1 (uncacheKeys endpointResults)
          else c1 in
        (valuePromise, setCache w l c2)
    | None => (VPromise rejected (VError TypeError), w)
    end
  else (valuePromise, w).

(** [const valuePromise = config.visitEndpoint(requestOptions).then(...)] *)
Definition valuePromise (cfg : config) (requestOptions : request)
    (w : world) : value * world :=
  let w1 := {| heap := heap w; calls := calls w ++ [requestOptions] |} in
  match visitEndpoint cfg requestOptions (calls w) with
  | Resolves endpointResults => onSuccess cfg requestOptions endpointResults w1
  | Rejects reason => (VPromise rejected reason, w1)
  end.

(** [// Check for cached value] *)
Definition cachedValue (cfg : config) (options : request) (w : world)
    : completion :=
  if truthy (cache cfg) then
    match cacheAt w (cache cfg) with
    | Some (_, c) => Returns (Cache.get c (path options))
    | None => Throws TypeError
    end
  else Returns VUndefined.

(** The function that [wrapVisitEndpoint(config)] returns.  After the
    request is sent the function body ends: nothing is returned.  The
    world that is given with the result is the world once the promise of
    the request has settled and the callback of [.then] has run; the
    function has returned before that, in the world [atReturn] below. *)
Definition wrapVisitEndpoint (cfg : config) (options : request) (w : world)
    : completion * world :=
  match cachedValue cfg options w with
  | Throws e => (Throws e, w)
  | Returns cached =>
      if truthy cached then (Returns (Promise_resolve cached), w)
      else
        let requestOptions := addAccessToken cfg options in
        let '(_, w') := valuePromise cfg requestOptions w in
        (Returns VUndefined, w')
  end.

(** The world at the moment the function returns.  On a miss the request
    has been handed to [config.visitEndpoint] and nothing else has
    happened: the cache is written by the callback of [.then], which runs
    when the promise of the request settles. *)
Definition atReturn (cfg : config) (options : request) (w : world) : world :=
  match cachedValue cfg options w with
  | Throws _ => w
  | Returns cached =>
      if truthy cached then w
      else {| heap := heap w; calls := calls w ++ [addAccessToken cfg options] |}
  end.

(** The promise of the request [requestOptions], sent when [sentBefore]
    had been sent, settles in the world [w]: the callback of [.then] runs
    there. *)
Definition settle (cfg : config) (requestOptions : request)
    (sentBefore : list request) (w : world) : value * world :=
  match visitEndpoint cfg requestOptions sentBefore with
  | Resolves endpointResults => onSuccess cfg requestOptions endpointResults w
  | Rejects reason => (VPromise rejected reason, w)
  end.

End Wrap.

(** ** Endpoints *)

(** What an endpoint core function finds in [this]. *)
Module Endpoint.

Record this := This {
  visitEndpoint : request -> world -> completion * world;
  uncache : list string -> value -> world -> completion * world;
  api : loc;
}.

(** [this.visitEndpoint(req).then(cb)] *)
Definition visitThen (self : this) (req : request)
    (cb : value -> world -> completion * world) (w : world)
    : completion * world :=
  match visitEndpoint self req w with
  | (Returns p, w1) => then_ p cb w1
  | (Throws e, w1) => (Throws e, w1)
  end.

End Endpoint.

(** endpoints/API/Other *)
Module Other.

Definition requiredParams : list string := ["path"].

Definition endpoint (self : Endpoint.this) (options : request) (w : world)
    : completion * world :=
  Endpoint.visitThen self
    {| path := path options;
       method := or_else (method options) (VStr "GET");
       params := params options |}
    (fun response =>
       (* Uncache all paths (we have no idea what the programmer is calling) *)
       Endpoint.uncache self ["*"] response)
    w.

End Other.

(** The group set endpoints of a course. *)
Module GroupSet.

Section endpoints.

(** [prefix.v1], from [common/prefix], which is not among the sources. *)
Variable v1 : string.

Definition create_requiredParams : list string := ["courseId"; "name"].

Definition create (self : Endpoint.this) (options : gmap string value)
    (w : world) : completion * world :=
  let opt k := default VUndefined (options !! k) in
  Endpoint.visitThen self
    {| path := v1 ++ "/courses/" ++ toString (opt "courseId")
               ++ "/group_categories";
       method := VStr "POST";
       params := Some {[ "name" := or_else (opt "name") (VStr "Unnamed Group Set") ]} |}
    (fun response w' =>
       match response with
       | VUndefined | VNull => (Throws TypeError, w')
       | _ =>
           Endpoint.uncache self
             [ (* Uncache specific group set (in case it was already hit) *)
               v1 ++ "/group_categories/" ++ toString (prop response "id") ]
             response w'
       end)
    w.

End endpoints.

Section more_endpoints.

(** [prefix.v1], from [common/prefix], and [utils.isTruthy], from
    [common/utils], which are not among the sources. *)
Variable v1 : string.
Variable isTruthy : value -> value.

(** [options.k] *)
Definition option_ (options : gmap string value) (k : string) : value :=
  default VUndefined (options !! k).

Definition get_requiredParams : list string := ["groupSetId"].

Definition get (self : Endpoint.this) (options : gmap string value)
    (w : world) : completion * world :=
  Endpoint.visitEndpoint self
    {| path := v1 ++ "/group_categories/" ++ toString (option_ options "groupSetId");
       method := VStr "GET";
       params := None |}
    w.

Definition delete_requiredParams : list string := ["courseId"; "groupSetId"].

Definition delete (self : Endpoint.this) (options : gmap string value)
    (w : world) : completion * world :=
  Endpoint.visitThen self
    {| path := v1 ++ "/group_categories/" ++ toString (option_ options "groupSetId");
       method := VStr "DELETE";
       params := None |}
    (fun response =>
       Endpoint.uncache self
         [ (* Uncache list of group sets *)
           v1 ++ "/courses/" ++ toString (option_ options "courseId")
           ++ "/group_categories" ]
         response)
    w.

Definition listGroups_requiredParams : list string := ["groupSetId"].

Definition listGroups (self : Endpoint.this) (options : gmap string value)
    (w : world) : completion * world :=
  Endpoint.visitEndpoint self
    {| path := v1 ++ "/group_categories/"
               ++ toString (option_ options "groupSetId") ++ "/groups";
       method := VStr "GET";
       params := None |}
    w.

Definition createGroup_requiredParams : list string := ["courseId"; "groupSetId"].

Definition createGroup (self : Endpoint.this) (options : gmap string value)
    (w : world) : completion * world :=
  Endpoint.visitThen self
    {| path := v1 ++ "/group_categories/"
               ++ toString (option_ options "groupSetId") ++ "/groups";
       method := VStr "POST";
       params :=
         Some {[ "name" := or_else (option_ options "name") (VStr "Unnamed Group");
                 "description" := or_else (option_ options "description") (VStr "");
                 "is_public" := isTruthy (option_ options "isPublic") ]} |}
    (fun response =>
       Endpoint.uncache self
         [ (* Uncache group set list *)
           v1 ++ "/courses/" ++ toString (option_ options "courseId")
           ++ "/group_categories";
           (* Uncache group set *)
           v1 ++ "/group_categories/" ++ toString (option_ options "groupSetId") ]
         response)
    w.

Definition deleteGroup_requiredParams : list string := ["groupSetId"; "groupId"].

Definition deleteGroup (self : Endpoint.this) (options : gmap string value)
    (w : world) : completion * world :=
  Endpoint.visitThen self
    {| path := v1 ++ "/groups/" ++ toString (option_ options "groupId");
       method := VStr "DELETE";
       params := None |}
    (fun response =>
       Endpoint.uncache self
         [ (* Uncache group set list of group *)
           v1 ++ "/group_categories/"
           ++ toString (option_ options "groupSetId") ++ "/groups" ]
         response)
    w.

Definition list_requiredParams := ["courseId"].

Definition list (self : Endpoint.this) (options : gmap string value)
    (w : world) : completion * world :=
  Endpoint.visitEndpoint self
    {| path := v1 ++ "/courses/" ++ toString (option_ options "courseId")
               ++ "/group_categories";
       method := VStr "GET";
       params := None |}
    w.

End more_endpoints.

End GroupSet.

(** ** The endpoint binder *)

(** Modelled from the spec: a required field is omitted when the options
    object holds no value for it, or holds undefined. *)
Definition omitted (options : gmap string value) (param : string) : bool :=
  match options !! param with
  | None | Some VUndefined => true
  | Some _ => false
  end.

(** Modelled from the spec: every missing field, in the order of
    [requiredParams]. *)
Definition missingParams (requiredParams : list string)
    (options : gmap string value) : list string :=
  List.filter (omitted options) requiredParams.

(** Modelled from the spec: [classes/instantiateEndpoint] is not among the
    sources; only its call in the [EndpointCategory] constructor is.  The
    spec says that the bound operation validates the presence of all
    [requiredParams], fails fast with [MissingParameter], naming every
    missing field, before any network access, and otherwise runs the
    endpoint logic.  The failure is delivered as a rejected promise. *)
Definition instantiateEndpoint (action : string) (requiredParams : list string)
    (endpointCoreFunction :
       Endpoint.this -> gmap string value -> world -> completion * world)
    (self : Endpoint.this) (options : gmap string value) (w : world)
    : completion * world :=
  match missingParams requiredParams options with
  | [] => endpointCoreFunction self options w
  | missing =>
      (Returns (VPromise rejected (VError (MissingParameter action missing))), w)
  end.

(** ** Dispatch with retry *)

Module Executor.

(** What one invocation of the transport gives. *)
Inductive attempt :=
| Success (payload : value)
| Transient (failure : value)
| Fatal (failure : value).

Inductive result :=
| Ok (payload : value)
| RequestFailed (last : value).

(** Modelled from the spec: the function that sends a request and retries
    it ([genVisitEndpoint] and the [sendRequest] behind it) is not among
    the sources.  The spec says: on a transient failure the request is
    retried up to the configured retry count with the same parameters; a
    retry count of 0 means exactly one attempt; a failure that is not
    retryable, or the exhaustion of the retries, surfaces as
    [RequestFailed] carrying the last underlying failure.  The transport
    is given by what its [n]-th invocation yields; the second component
    of the result is the number of invocations made. *)
Fixpoint dispatchFrom (transport : nat -> attempt) (numRetries : nat)
    (made : nat) : result * nat :=
  match transport made with
  | Success payload => (Ok payload, S made)
  | Fatal failure => (RequestFailed failure, S made)
  | Transient failure =>
      match numRetries with
      | O => (RequestFailed failure, S made)
      | S remaining => dispatchFrom transport remaining (S made)
      end
  end.

(** Modelled from the spec: one call, starting with no invocation
    made. *)
Definition dispatch (transport : nat -> attempt) (numRetries : nat)
    : result * nat :=
  dispatchFrom transport numRetries 0.

End Executor.

(** ** The constructor of EndpointCategory *)

Module Constructor.

(** A static property of a class that is handed to the constructor as
    [Subclass]: a class that extends [EndpointCategory], given by its
    own static properties in their order, or an endpoint core function,
    with its [action] and [requiredParams] properties. *)
Inductive member :=
| SubCategory (Subclass : list (string * member))
| CoreFunction (id : nat) (action requiredParams : value).

(** The argument of the call of [instantiateEndpoint]. *)
Record endpointConfig := EndpointConfig {
  action : value;
  requiredParams : value;
  endpointCoreFunction : nat;
  cache : value;
  uncache : value;
  api : value;
  authenticityToken : value;
  defaults : gmap string value;
}.

(** What the constructor assigns to [this[prop]]: the instance of a
    sub-category, or the function that [instantiateEndpoint] makes.
    [instantiateEndpoint] is not among the sources, so the function
    stands here as the argument it is made from.  The instance is given
    as a tree, with the location of its object; the properties are not
    written into the heap. *)
Inductive property :=
| InstanceOf (this : loc) (props : list (string * property))
| BoundEndpoint (args : endpointConfig).

Definition defaultsOf (w : world) (config : loc) : gmap string value :=
  {[ "accessToken" := getField w config "accessToken";
     "itemsPerPage" := getField w config "itemsPerPage";
     "apiPathPrefix" := getField w config "apiPathPrefix";
     "numRetries" := getField w config "numRetries";
     "sendRequest" := getField w config "sendRequest";
     "canvasHost" := getField w config "canvasHost";
     "basePath" := getField w config "basePath" ]}.

(** [// Instantiate the endpoint] *)
Definition bind (prop : string) (id : nat) (action requiredParams : value)
    (config : loc) (w : world) : endpointConfig :=
  {| action :=
       or_else action (VStr ("perform an unnamed " ++ prop ++ " task"));
     requiredParams := requiredParams;
     endpointCoreFunction := id;
     cache := getField w config "cache";
     uncache := getField w config "uncache";
     api := getField w config "api";
     authenticityToken := getField w config "authenticityToken";
     defaults := defaultsOf w config |}.

Section forEach.

(** What the loop does for one property. *)
Variable make : string -> member -> world -> (property + error) * world.

(** [Object.keys(Subclass).forEach(...)]: the loop over the properties
    of [Subclass].  An error that is thrown ends the loop. *)
Fixpoint forEach (props : list (string * member)) (w : world)
    : (list (string * property) + error) * world :=
  match props with
  | [] => (inl [], w)
  | (prop, m) :: rest =>
      match make prop m w with
      | (inl built, w') =>
          match forEach rest w' with
          | (inl more, w'') => (inl ((prop, built) :: more), w'')
          | (inr e, w'') => (inr e, w'')
          end
      | (inr e, w') => (inr e, w')
      end
  end.

End forEach.

Section construct.

Variable memoryStoresPromises sessionStoresPromises : bool.

(** [construct prop m config w]: what the loop of the constructor does
    for the property [prop] of [Subclass], in the world [w] and with the
    resolved [config] of the category being built.  For a sub-category
    this is [new Subclass[prop](config)]: a new object is made for
    [this], the config is pre-processed for it, and the loop runs over
    the properties of the sub-category. *)
Fixpoint construct (prop : string) (m : member) (config : loc) (w : world)
    : (property + error) * world :=
  match m with
  | CoreFunction id action requiredParams =>
      (inl (BoundEndpoint (bind prop id action requiredParams config w)), w)
  | SubCategory Subclass =>
      let '(this, w0) := alloc w (CObject ∅) in
      match EndpointCategory._preProcessParams
              memoryStoresPromises sessionStoresPromises this config w0 with
      | (Throws e, w1) => (inr e, w1)
      | (Returns (VRef config'), w1) =>
          match forEach (fun p m' => construct p m' config') Subclass w1 with
          | (inl props, w2) => (inl (InstanceOf this props), w2)
          | (inr e, w2) => (inr e, w2)
          end
      | (Returns _, w1) => (inr TypeError, w1)
      end
  end.

(** [new Subclass(oldConfig)] for the class at the top. *)
Definition new (Subclass : list (string * member)) (oldConfig : loc)
    (w : world) : (property + error) * world :=
  construct "" (SubCategory Subclass) oldConfig w.

End construct.

(** The endpoints of an instance and of its sub-categories. *)
Fixpoint endpointsOf (p : property) : list endpointConfig :=
  match p with
  | BoundEndpoint args => [args]
  | InstanceOf _ props => flat_map (fun np => endpointsOf np.2) props
  end.

End Constructor.

(** ** endpoints/API/Course *)

Module Course.

(** [s.includes(sub)] on strings *)
Fixpoint includes (s sub : string) : bool :=
  startsWith s sub
  || match s with
     | EmptyString => false
     | String _ rest => includes rest sub
     end.

(** [s.charAt(0)] and [s.substr(1)] *)
Definition charAt0 (s : string) : string :=
  match s with
  | EmptyString => EmptyString
  | String c _ => String c EmptyString
  end.

Definition substr1 (s : string) : string :=
  match s with
  | EmptyString => EmptyString
  | String _ rest => rest
  end.

Section endpoints.

(** [prefix.v1], from [common/prefix]; [toUpperCase] is the string method
    of the host. *)
Variable v1 : string.
Variable toUpperCase : string -> string.

(** The function that [listEnrollments] maps over [options.types].  A
    string has [includes], [charAt] and [substr]; an array has [includes]
    only, which looks for an item; any other plain value has none of
    them. *)
Definition enrollmentType (type : value) : completion :=
  match type with
  | VStr s =>
      if includes s "Enrollment" then Returns type
      else Returns (VStr (toUpperCase (charAt0 s) ++ substr1 s ++ "Enrollment"))
  | VArr items =>
      if existsb (fun item => is_str item "Enrollment") items then Returns type
      else Throws TypeError
  | _ => Throws TypeError
  end.

(** [types.map(...)]: the first item that throws ends the loop. *)
Fixpoint mapTypes (types : list value) : error + list value :=
  match types with
  | [] => inr []
  | type :: rest =>
      match enrollmentType type with
      | Throws e => inl e
      | Returns t =>
          match mapTypes rest with
          | inl e => inl e
          | inr ts => inr (t :: ts)
          end
      end
  end.

(** The [params] object once [options.types] has been looked at: only an
    array has [map]. *)
Definition typeParams (options : gmap string value) : error + gmap string value :=
  if truthy (GroupSet.option_ options "types") then
    match GroupSet.option_ options "types" with
    | VArr types =>
        match mapTypes types with
        | inl e => inl e
        | inr ts => inr {[ "type" := VArr ts ]}
        end
    | _ => inl TypeError
    end
  else inr ∅.

(** [params.include.push('group_ids')], on what [params.include] holds by
    then: nothing, or the array that the line above has put there. *)
Definition pushGroupIds (params : gmap string value) : gmap string value :=
  match or_else (default VUndefined (params !! "include")) (VArr []) with
  | VArr items => <["include" := VArr (items ++ [VStr "group_ids"])]> params
  | _ => params
  end.

Definition listEnrollments_params (options : gmap string value)
    : error + gmap string value :=
  match typeParams options with
  | inl e => inl e
  | inr params =>
      let params :=
        if truthy (GroupSet.option_ options "activeOnly")
        then <["state" := VArr [VStr "active"]]> params else params in
      let params :=
        if truthy (GroupSet.option_ options "includeAvatar")
        then <["include" := VArr [VStr "avatar_url"]]> params else params in
      let params :=
        if truthy (GroupSet.option_ options "includeGroups")
        then pushGroupIds params else params in
      inr params
  end.

Definition listEnrollments (self : Endpoint.this) (options : gmap string value)
    (w : world) : completion * world :=
  match listEnrollments_params options with
  | inl e => (Throws e, w)
  | inr params =>
      Endpoint.visitEndpoint self
        {| path := v1 ++ "/courses/"
                   ++ toString (GroupSet.option_ options "courseId")
                   ++ "/enrollments";
           method := VStr "GET";
           params := Some params |} w
  end.

(** [this.api.course.listEnrollments], the bound endpoint of the api
    instance. *)
Variable api_course_listEnrollments :
  gmap string value -> world -> completion * world.

(** [newOptions] is the caller's [options] object itself, with its
    [types] replaced. *)
Definition listStudents (options : gmap string value) (w : world)
    : completion * world :=
  api_course_listEnrollments (<["types" := VArr [VStr "student"]]> options) w.

Definition listTeachingTeamMembers (options : gmap string value) (w : world)
    : completion * world :=
  api_course_listEnrollments
    (<["types" := VArr [VStr "ta"; VStr "teacher"]]> options) w.

Definition listDesigners (options : gmap string value) (w : world)
    : completion * world :=
  api_course_listEnrollments (<["types" := VArr [VStr "designer"]]> options) w.

Definition listObservers (options : gmap string value) (w : world)
    : completion * world :=
  api_course_listEnrollments (<["types" := VArr [VStr "observer"]]> options) w.

End endpoints.

End Course.

(** ** endpoints/API/Course/App: the metadata endpoints *)

Module App.

(** The error codes of the metadata endpoints, and what their callbacks
    throw. *)
Inductive errorCode :=
| noAppWithMetadataFound
| metadataMalformed
| noAppsToUpdateMetadata.

Inductive error :=
| CACCLError (message : string) (code : errorCode)
| TypeError.

(** [Object.keys(v)] with the values, for a plain object [v]. *)
Definition entries (v : value) : gmap string value :=
  match v with
  | VObj fields => fields
  | _ => ∅
  end.

Section metadata.

(** [prefix.v1], from [common/prefix]; [a === b], [s.trim()],
    [JSON.parse] (which throws on malformed text) and [JSON.stringify]
    are functions of the host. *)
Variable v1 : string.
Variable strictEquals : value -> value -> bool.
Variable trim : string -> string.
Variable JSON_parse : string -> option value.
Variable JSON_stringify : value -> string.

(** The test that both endpoints apply to an app of the list:
    [app.custom_fields && app.custom_fields.metadataId
     && app.custom_fields.metadataId === options.metadataId].
    Reading [custom_fields] of undefined or null throws. *)
Definition hasMetadataId (options : gmap string value) (app : value)
    : error + bool :=
  match app with
  | VUndefined | VNull => inl TypeError
  | _ =>
      inr (truthy (prop app "custom_fields")
           && truthy (prop (prop app "custom_fields") "metadataId")
           && strictEquals (prop (prop app "custom_fields") "metadataId")
                (GroupSet.option_ options "metadataId"))
  end.

(** The loop of [getMetadata] over the array [apps], which stops at the
    first app that passes the test. *)
Fixpoint firstAppWithMetadataId (options : gmap string value)
    (apps : list value) : error + option value :=
  match apps with
  | [] => inr None
  | app :: rest =>
      match hasMetadataId options app with
      | inl e => inl e
      | inr true => inr (Some app)
      | inr false => firstAppWithMetadataId options rest
      end
  end.

(** The callback of [getMetadata], given the array [apps] that the list
    of the apps of the course resolved with. *)
Definition getMetadata_then (options : gmap string value) (apps : list value)
    : error + value :=
  match firstAppWithMetadataId options apps with
  | inl e => inl e
  | inr None =>
      inl (CACCLError "We could not find any apps with the given metadata id."
             noAppWithMetadataFound)
  | inr (Some app) =>
      let metadata := prop (prop app "custom_fields") "metadata" in
      if negb (truthy metadata) || is_str metadata "" then
        inr (Promise_resolve (VObj ∅))
      else
        match metadata with
        | VStr s =>
            if (String.length (trim s) =? 0)%nat then
              inr (Promise_resolve (VObj ∅))
            else
              match JSON_parse s with
              | Some parsed => inr (Promise_resolve parsed)
              | None => inl (CACCLError "Metadata was malformed." metadataMalformed)
              end
        | _ => inl TypeError
        end
  end.

(** [apps.filter(...)] in [updateMetadata], for the array [apps]: every
    app is tested. *)
Fixpoint appsToUpdate (options : gmap string value) (apps : list value)
    : error + list value :=
  match apps with
  | [] => inr []
  | app :: rest =>
      match hasMetadataId options app with
      | inl e => inl e
      | inr keep =>
          match appsToUpdate options rest with
          | inl e => inl e
          | inr kept => inr (if keep then app :: kept else kept)
          end
      end
  end.

(** The [params] of the update of one app: the new metadata, and every
    custom field of the app but its old metadata. *)
Definition updateParams (metadata : string) (app : value) : gmap string value :=
  map_fold
    (fun customPropName customVal params =>
       if String.eqb customPropName "metadata" then params
       else <["custom_fields[" ++ customPropName ++ "]" := customVal]> params)
    {[ "custom_fields[metadata]" := VStr metadata ]}
    (entries (prop app "custom_fields")).

(** The requests that the callback of [updateMetadata] hands to
    [this.visitEndpoint], one for each app to update, in their order. *)
Definition updateMetadata_requests (options : gmap string value)
    (apps : list value) : error + list request :=
  let metadata :=
    JSON_stringify (or_else (GroupSet.option_ options "metadata") (VObj ∅)) in
  match appsToUpdate options apps with
  | inl e => inl e
  | inr [] =>
      inl (CACCLError "We could not find any apps with the given metadata id."
             noAppsToUpdateMetadata)
  | inr appsToUpdate =>
      inr (map
             (fun app =>
                {| path := v1 ++ "/courses/"
                           ++ toString (GroupSet.option_ options "courseId")
                           ++ "/external_tools/" ++ toString (prop app "id");
                   method := VStr "PUT";
                   params := Some (updateParams metadata app) |})
             appsToUpdate)
  end.

End metadata.

End App.

(** * Vocabulary of the properties, and inputs to run them on *)

(** [uncaches paths k]: some path of the invalidation set names [k], or
    ends with a star and has the text before its first star as a prefix
    of [k]. *)
Definition uncaches (paths : list string) (k : string) : bool :=
  existsb
    (fun path =>
       if endsWithStar path then startsWith k (beforeStar path)
       else String.eqb k path)
    paths.

(** The claim C2 as it is written: a wildcard [P*] of the invalidation
    set deletes every listed key that starts with [P], and a cached key
    that neither starts with [P] nor is named in the set stays. *)
Definition wildcard_claim : Prop :=
  forall (config : loc) (w : world) (l : loc) (c : Cache.t)
         (paths : list string) (P : string) (response : value),
    cacheAt w (getField w config "cache") = Some (l, c) ->
    In (P ++ "*") paths ->
    exists c',
      cacheAt (EndpointCategory.uncache config paths response w).2 (VRef l)
      = Some (l, c') /\
      (forall k, k ∈ Cache.getAllPaths c -> startsWith k P = true ->
                 Cache.store c' !! k = None) /\
      (forall k, startsWith k P = false -> ~ In k paths ->
                 Cache.store c' !! k = Cache.store c !! k).

Definition wildcard_cache : Cache.t :=
  Cache.set (Cache.MemoryCache false) "/api/v1/courses/42" (VStr "course").

Definition wildcard_world : world :=
  {| heap := {[ 0 := CObject {[ "cache" := VRef 1 ]};
                1 := CCache wildcard_cache ]};
     calls := [] |}.

(** The request that [Other.endpoint] hands to [visitEndpoint]. *)
Definition otherRequest (options : request) : request :=
  {| path := path options;
     method := or_else (method options) (VStr "GET");
     params := params options |}.

(** [keeps f f']: the fields of [f] other than api, cache and uncache, and
    the truthy ones among these three, are the same in [f']. *)
Definition keeps (f f' : gmap string value) : Prop :=
  forall k,
    (k ≠ "api" /\ k ≠ "cache" /\ k ≠ "uncache")
    \/ truthy (default VUndefined (f !! k)) = true ->
    f' !! k = f !! k.

(** [fills config w w']: from [w] to [w'] no request was sent, no object
    other than the config object was changed, and the config object was
    changed in place as [keeps] allows. *)
Definition fills (config : loc) (w w' : world) : Prop :=
  calls w' = calls w /\
  (forall l, l ≠ config -> is_Some (heap w !! l) -> heap w' !! l = heap w !! l) /\
  (forall f, heap w !! config = Some (CObject f) ->
             exists f', heap w' !! config = Some (CObject f') /\ keeps f f').

(** Whether the cache initialisation throws, read off the config. *)
Definition cacheInvalid (cache cacheType req : value) : bool :=
  negb (truthy cache)
  && negb (is_str cacheType "memory")
  && negb (is_str cacheType "session" && truthy req)
  && truthy cacheType.

(** The config object after [// Initialize top-level api reference]. *)
Definition withApi (this config : loc) (w : world) : world :=
  if negb (truthy (getField w config "api")) then
    setField w config "api" (VRef this)
  else w.

(** The claim C7 as it is written: a cache type other than memory and
    session, or the session type without a session handle, makes the
    construction fail. *)
Definition invalid_cache_claim : Prop :=
  forall (ms ss : bool) (this config : loc) (w : world) (f : gmap string value),
    heap w !! config = Some (CObject f) ->
    (default VUndefined (f !! "cacheType") ≠ VUndefined /\
     is_str (default VUndefined (f !! "cacheType")) "memory" = false /\
     is_str (default VUndefined (f !! "cacheType")) "session" = false)
    \/ (is_str (default VUndefined (f !! "cacheType")) "session" = true /\
        truthy (default VUndefined (f !! "req")) = false) ->
    (EndpointCategory._preProcessParams ms ss this config w).1
    = Throws (CACCLError EndpointCategory.invalidCacheMessage invalid_cache).

(** A config that brings its own cache instance and also names a cache
    type. *)
Definition ownCacheConfig : gmap string value :=
  {[ "cache" := VRef 1; "cacheType" := VStr "redis" ]}.

Definition ownCacheWorld : world :=
  {| heap := {[ 0 := CObject ownCacheConfig;
                1 := CCache (Cache.MemoryCache false) ]};
     calls := [] |}.

(** The claim C8 as it is written: resolving the configuration leaves
    the caller's config object as it was. *)
Definition pure_resolution_claim : Prop :=
  forall (ms ss : bool) (this config : loc) (w : world) (f : gmap string value),
    heap w !! config = Some (CObject f) ->
    heap (EndpointCategory._preProcessParams ms ss this config w).2 !! config
    = Some (CObject f).

(** A config that asks for a memory cache. *)
Definition memoryConfig : gmap string value :=
  {[ "cacheType" := VStr "memory"; "accessToken" := VStr "config-token" ]}.

Definition memoryWorld : world :=
  {| heap := {[ 0 := CObject memoryConfig ]}; calls := [] |}.

(** [clears keys k]: the string [k] is one of [keys]. *)
Definition clears (keys : list value) (k : string) : bool :=
  existsb (fun key => is_str key k) keys.

(** What the success callback puts under the path of the request. *)
Definition stored (c : Cache.t) (endpointResults : value) : value :=
  if Cache.storePromises c then Promise_resolve (Wrap.response endpointResults)
  else Wrap.response endpointResults.

(** The cache once the success callback has run. *)
Definition cacheAfter (c : Cache.t) (key : string) (endpointResults : value)
    : Cache.t :=
  let c1 := Cache.set c key (stored c endpointResults) in
  if negb (Wrap.uncacheExcluded endpointResults) then
    foldl Cache.clear c1 (Wrap.uncacheKeys endpointResults)
  else c1.

(** The part of claim C5 that fails, as it is written: when the response
    carries an invalidation set, the payload is not stored, so that a path
    that was not cached before the call is not cached after it. *)
Definition unstored_claim : Prop :=
  forall (cfg : Wrap.config) (requestOptions : request) (w : world)
         (l : loc) (c : Cache.t) (endpointResults : value),
    cacheAt w (Wrap.cache cfg) = Some (l, c) ->
    Wrap.visitEndpoint cfg requestOptions (calls w) = Resolves endpointResults ->
    Wrap.uncacheExcluded endpointResults = false ->
    Cache.store c !! path requestOptions = None ->
    exists c',
      cacheAt (Wrap.valuePromise cfg requestOptions w).2 (VRef l) = Some (l, c') /\
      Cache.store c' !! path requestOptions = None.

(** A call that creates a group set; its result names the path of the
    new group set as the one to uncache. *)
Definition createdGroupSet : value := VObj {[ "id" := VNum 7 ]}.

Definition createResults : value :=
  VObj {[ "response" := createdGroupSet;
          "uncache" := VArr [VStr "/api/v1/group_categories/7"] ]}.

Definition createConfig : Wrap.config :=
  {| Wrap.cache := VRef 1;
     Wrap.accessToken := VStr "config-token";
     Wrap.visitEndpoint := fun _ _ => Resolves createResults |}.

Definition createRequest : request :=
  {| path := "/api/v1/courses/1/group_categories";
     method := VStr "POST";
     params := Some {[ "name" := VStr "Lab groups" ]} |}.

Definition emptyCacheWorld : world :=
  {| heap := {[ 1 := CCache (Cache.MemoryCache false) ]}; calls := [] |}.

(** The claim C1 as it is written, without its last part (that the two
    calls return the same value): with a cache that does not hold the
    path yet, two calls of a read-only operation one after the other send
    one request, and the second call resolves with the payload. *)
Definition idempotence_claim : Prop :=
  forall (cfg : Wrap.config) (options : request) (w : world)
         (l : loc) (c : Cache.t) (payload : value),
    cacheAt w (Wrap.cache cfg) = Some (l, c) ->
    Cache.store c !! path options = None ->
    Wrap.visitEndpoint cfg (Wrap.addAccessToken cfg options) (calls w)
    = Resolves payload ->
    Wrap.uncacheExcluded payload = true ->
    length (calls (Wrap.wrapVisitEndpoint cfg options
                     (Wrap.wrapVisitEndpoint cfg options w).2).2)
    = S (length (calls w)) /\
    (Wrap.wrapVisitEndpoint cfg options
       (Wrap.wrapVisitEndpoint cfg options w).2).1
    = Returns (Promise_resolve payload).

(** A read-only endpoint whose payload is [null]. *)
Definition nullConfig : Wrap.config :=
  {| Wrap.cache := VRef 1;
     Wrap.accessToken := VStr "config-token";
     Wrap.visitEndpoint := fun _ _ => Resolves VNull |}.

Definition getRequest : request :=
  {| path := "/api/v1/courses/1/front_page"; method := VStr "GET"; params := None |}.

(** A read-only endpoint that lists the courses. *)
Definition courseList : value :=
  VArr [VObj {[ "id" := VNum 1 ]}; VObj {[ "id" := VNum 2 ]}].

Definition listConfig : Wrap.config :=
  {| Wrap.cache := VRef 1;
     Wrap.accessToken := VStr "config-token";
     Wrap.visitEndpoint := fun _ _ => Resolves courseList |}.

Definition listRequest : request :=
  {| path := "/api/v1/courses"; method := VStr "GET"; params := None |}.

(** A call whose caller brings a token of its own. *)
Definition tokenConfig : Wrap.config :=
  {| Wrap.cache := VUndefined;
     Wrap.accessToken := VStr "config-token";
     Wrap.visitEndpoint := fun _ _ => Resolves courseList |}.

Definition tokenRequest : request :=
  {| path := "/api/v1/courses";
     method := VStr "GET";
     params := Some {[ "access_token" := VStr "caller-token" ]} |}.

Definition noWorld : world := {| heap := ∅; calls := [] |}.

(** An instance with a memory cache that holds the list of courses:
    the config is resolved, and the list is fetched once. *)
Definition cachedWorld : world :=
  (Wrap.wrapVisitEndpoint listConfig listRequest
     (EndpointCategory._preProcessParams false false 2 0 memoryWorld).2).2.

Definition otherThis : Endpoint.this :=
  {| Endpoint.visitEndpoint := Wrap.wrapVisitEndpoint listConfig;
     Endpoint.uncache := EndpointCategory.uncache 0;
     Endpoint.api := 2 |}.

Definition otherOptions : request :=
  {| path := "/api/v1/courses"; method := VUndefined; params := None |}.

(** Creating a group set without giving its name. *)
Definition createThis : Endpoint.this :=
  {| Endpoint.visitEndpoint := Wrap.wrapVisitEndpoint tokenConfig;
     Endpoint.uncache := EndpointCategory.uncacheDummy;
     Endpoint.api := 2 |}.

Definition namelessOptions : gmap string value := {[ "courseId" := VNum 5 ]}.

(** A transport that fails twice and then succeeds. *)
Definition flaky (i : nat) : Executor.attempt :=
  if Nat.ltb i 2 then Executor.Transient (VStr "ECONNRESET")
  else Executor.Success courseList.

(** [swept c paths]: the cache [c] once the uncache function has run on
    [paths]. *)
Definition swept (c : Cache.t) (paths : list string) : Cache.t :=
  Cache.deletePaths c (EndpointCategory.pathsToUncache paths (Cache.getAllPaths c)).

(** The cache that the cache initialisation makes for a config without
    a cache, if it makes one; [ms] and [ss] tell whether the two cache
    classes store promises. *)
Definition madeCache (ms ss : bool) (cacheType req : value) : option Cache.t :=
  if is_str cacheType "memory" then Some (Cache.MemoryCache ms)
  else if is_str cacheType "session" && truthy req then
    Some (Cache.SessionCache ss req)
  else None.

(** The cache field of the config once the cache is initialised, for a
    config that the initialisation accepts: the caller's cache, or a
    reference to the cache just made, at the first free location. *)
Definition cacheField (ms ss : bool) (w : world) (config : loc) : value :=
  if truthy (getField w config "cache") then getField w config "cache"
  else match madeCache ms ss (getField w config "cacheType")
               (getField w config "req") with
       | Some _ => VRef (fresh (dom (heap w)))
       | None => getField w config "cache"
       end.

(** A config that asks for no cache. *)
Definition noCacheConfig : gmap string value :=
  {[ "accessToken" := VStr "config-token"; "canvasHost" := VStr "canvas.school.edu" ]}.

Definition noCacheWorld : world :=
  {| heap := {[ 0 := CObject noCacheConfig ]}; calls := [] |}.

(** [resolved config w]: the config is an object whose api and uncache
    fields are truthy, and whose cache is there or is not asked for. *)
Definition resolved (config : loc) (w : world) : Prop :=
  (exists f, heap w !! config = Some (CObject f)) /\
  truthy (getField w config "api") = true /\
  truthy (getField w config "uncache") = true /\
  (truthy (getField w config "cache") = true
   \/ truthy (getField w config "cacheType") = false).

(** [grows w w']: from [w] to [w'] no request was sent, every object
    stayed as it was, and no cache was made. *)
Definition grows (w w' : world) : Prop :=
  calls w' = calls w /\
  (forall l x, heap w !! l = Some x -> heap w' !! l = Some x) /\
  (forall l c, heap w' !! l = Some (CCache c) -> heap w !! l = Some (CCache c)).

(** [sharedBy w config e]: the endpoint was bound with the cache, the
    uncache function, the api, the authenticity token and the defaults
    that the config holds in [w], and its action is not empty. *)
Definition sharedBy (w : world) (config : loc) (e : Constructor.endpointConfig)
    : Prop :=
  Constructor.cache e = getField w config "cache" /\
  Constructor.uncache e = getField w config "uncache" /\
  Constructor.api e = getField w config "api" /\
  Constructor.authenticityToken e = getField w config "authenticityToken" /\
  Constructor.defaults e = Constructor.defaultsOf w config /\
  truthy (Constructor.action e) = true.

(** A small class tree in the shape of the API class: a sub-category
    with a sub-category of its own, and endpoints, one of them without an
    action. *)
Definition groupSetClass : list (string * Constructor.member) :=
  [ ("list", Constructor.CoreFunction 1
               (VStr "get the list of group sets in a course")
               (VArr [VStr "courseId"]));
    ("create", Constructor.CoreFunction 2
                 (VStr "create a new group set in a course")
                 (VArr [VStr "courseId"; VStr "name"])) ].

Definition courseClass : list (string * Constructor.member) :=
  [ ("groupset", Constructor.SubCategory groupSetClass);
    ("get", Constructor.CoreFunction 3 VUndefined VUndefined) ].

Definition apiClass : list (string * Constructor.member) :=
  [ ("course", Constructor.SubCategory courseClass);
    ("other", Constructor.SubCategory
                [ ("endpoint", Constructor.CoreFunction 4
                                 (VStr "call an endpoint")
                                 (VArr [VStr "path"])) ]) ].

Definition apiBuilt : (Constructor.property + error) * world :=
  Constructor.new true false apiClass 0 memoryWorld.

Definition apiInstance : Constructor.property :=
  match apiBuilt.1 with
  | inl p => p
  | inr _ => Constructor.InstanceOf 0 []
  end.

(** A transport that fails. *)
Definition failingConfig : Wrap.config :=
  {| Wrap.cache := VRef 1;
     Wrap.accessToken := VStr "config-token";
     Wrap.visitEndpoint := fun _ _ => Rejects (VStr "ECONNRESET") |}.

(** A cache that holds the list of the group sets of course 1. *)
Definition groupSetsCache : Cache.t :=
  Cache.set (Cache.MemoryCache false) "/api/v1/courses/1/group_categories"
    (VArr [VObj {[ "id" := VNum 3 ]}]).

Definition groupSetsWorld : world :=
  {| heap := {[ 0 := CObject {[ "cache" := VRef 1 ]};
                1 := CCache groupSetsCache ]};
     calls := [] |}.

Definition wrappedThis : Endpoint.this :=
  {| Endpoint.visitEndpoint := Wrap.wrapVisitEndpoint listConfig;
     Endpoint.uncache := EndpointCategory.uncache 0;
     Endpoint.api := 2 |}.

Definition failingThis : Endpoint.this :=
  {| Endpoint.visitEndpoint :=
       fun _ w => (Returns (VPromise rejected (VStr "ECONNRESET")), w);
     Endpoint.uncache := EndpointCategory.uncache 0;
     Endpoint.api := 2 |}.

(** A delete of group set 3 of course 1 that succeeds, without touching
    the world. *)
Definition deletingThis : Endpoint.this :=
  {| Endpoint.visitEndpoint :=
       fun _ w => (Returns (VPromise fulfilled (VObj {[ "id" := VNum 3 ]})), w);
     Endpoint.uncache := EndpointCategory.uncache 0;
     Endpoint.api := 2 |}.

Definition groupSetOptions : gmap string value :=
  {[ "courseId" := VNum 1; "groupSetId" := VNum 3 ]}.

(** [toUpperCase] on the letters a to z; the other characters are left
    as they are. *)
Definition upperAscii (c : ascii) : ascii :=
  let n := nat_of_ascii c in
  if (Nat.leb 97 n && Nat.leb n 122)%bool then ascii_of_nat (n - 32) else c.

Fixpoint upper (s : string) : string :=
  match s with
  | EmptyString => EmptyString
  | String c rest => String (upperAscii c) (upper rest)
  end.

Definition enrollmentOptions : gmap string value :=
  {[ "courseId" := VNum 1;
     "types" := VArr [VStr "student"; VStr "TaEnrollment"];
     "includeGroups" := VBool true ]}.

(** An instance whose requests succeed with an empty list. *)
Definition listingThis : Endpoint.this :=
  {| Endpoint.visitEndpoint :=
       fun req w => (Returns (VPromise fulfilled (VArr [])),
                     {| heap := heap w; calls := (calls w ++ [req])%list |});
     Endpoint.uncache := EndpointCategory.uncacheDummy;
     Endpoint.api := 2 |}.

(** What [enrollmentType] makes of the string [s]. *)
Definition enrollmentTypeOf (toUpperCase : string -> string) (s : string) : string :=
  if Course.includes s "Enrollment" then s
  else toUpperCase (Course.charAt0 s) ++ Course.substr1 s ++ "Enrollment".

(** [a === b] on numbers, strings and booleans. *)
Definition sameValue (a b : value) : bool :=
  match a, b with
  | VNum m, VNum n => (m =? n)%Z
  | VStr s, VStr t => String.eqb s t
  | VBool x, VBool y => Bool.eqb x y
  | _, _ => false
  end.

(** Three installed apps: two of them carry the metadata id [grader]. *)
Definition installedApps : list value :=
  [ VObj {[ "id" := VNum 10 ]};
    VObj {[ "id" := VNum 11;
            "custom_fields" := VObj {[ "metadataId" := VStr "grader";
                                       "metadata" := VStr "{}";
                                       "region" := VStr "eu" ]} ]};
    VObj {[ "id" := VNum 12;
            "custom_fields" := VObj {[ "metadataId" := VStr "grader" ]} ]} ].

Definition metadataOptions : gmap string value :=
  {[ "courseId" := VNum 1; "metadataId" := VStr "grader" ]}.

(** [JSON.parse] and [JSON.stringify] on the empty object, and [trim] on
    a text without white space. *)
Definition parseEmptyObject (s : string) : option value :=
  if String.eqb s "{}" then Some (VObj ∅) else None.

Definition stringifyEmptyObject (v : value) : string := "{}".

Definition trimmed (s : string) : string := s.

(** A config that asks for a cache of a kind that does not exist. *)
Definition redisConfig : gmap string value :=
  {[ "cacheType" := VStr "redis"; "accessToken" := VStr "config-token" ]}.

Definition redisWorld : world :=
  {| heap := {[ 0 := CObject redisConfig ]}; calls := [] |}.

(** * Properties *)

(** ** Strings *)

Lemma endsWithStar_app_star (P : string) : endsWithStar (P ++ "*") = true.
Proof.
  induction P as [|a P IH]; [reflexivity|].
  simpl. destruct P; exact IH.
Qed.

Lemma startsWith_empty (k : string) : startsWith k "" = true.
Proof. by destruct k. Qed.

Lemma startsWith_beforeStar (k P : string) :
  startsWith k P = true -> startsWith k (beforeStar (P ++ "*")) = true.
Proof.
  revert k. induction P as [|a P IH]; intros k H.
  - apply startsWith_empty.
  - destruct k as [|b k]; [discriminate|].
    simpl in *. apply andb_prop in H as [Hab Hk].
    destruct (Ascii.eqb a "*"); [reflexivity|].
    simpl. rewrite Hab. by apply IH.
Qed.

(** ** The cache and the heap *)

Lemma getAllPaths_elem (c : Cache.t) (k : string) :
  k ∈ Cache.getAllPaths c <-> is_Some (Cache.store c !! k).
Proof. unfold Cache.getAllPaths. by rewrite elem_of_elements, elem_of_dom. Qed.

Lemma deletePaths_lookup (c : Cache.t) (paths : list string) (k : string) :
  Cache.store (Cache.deletePaths c paths) !! k
  = if decide (k ∈ paths) then None else Cache.store c !! k.
Proof.
  simpl. case_decide.
  - by apply lookup_foldr_delete.
  - by apply lookup_foldr_delete_not_elem_of.
Qed.

Lemma cacheAt_setCache (w : world) (l : loc) (c : Cache.t) :
  cacheAt (setCache w l c) (VRef l) = Some (l, c).
Proof. unfold cacheAt, setCache. simpl. by rewrite lookup_insert_eq. Qed.

(** ** The uncache function *)

Lemma pathsToUncache_elem (paths cachedPaths : list string) (k : string) :
  k ∈ EndpointCategory.pathsToUncache paths cachedPaths
  <-> exists path, path ∈ paths /\
        if endsWithStar path
        then startsWith k (beforeStar path) = true /\ k ∈ cachedPaths
        else k = path.
Proof.
  unfold EndpointCategory.pathsToUncache.
  rewrite list_elem_of_In, in_flat_map.
  split; intros (path & Hin & Hk); exists path.
  - apply list_elem_of_In in Hin. split; [done|].
    destruct (endsWithStar path).
    + apply filter_In in Hk as [Hk1 Hk2]. by rewrite list_elem_of_In.
    + by destruct Hk as [->|[]].
  - apply list_elem_of_In in Hin. split; [done|].
    destruct (endsWithStar path).
    + destruct Hk as [Hk1 Hk2]. apply filter_In. by rewrite <- list_elem_of_In.
    + left. done.
Qed.

Lemma uncaches_true (paths : list string) (k : string) :
  uncaches paths k = true
  <-> exists path, path ∈ paths /\
        if endsWithStar path then startsWith k (beforeStar path) = true
        else k = path.
Proof.
  unfold uncaches. rewrite existsb_exists.
  split; intros (path & Hin & Hk); exists path.
  - rewrite list_elem_of_In. split; [done|].
    destruct (endsWithStar path); [done|]. by apply String.eqb_eq.
  - rewrite <- list_elem_of_In. split; [done|].
    destruct (endsWithStar path); [done|]. by apply String.eqb_eq.
Qed.

(** What is left in the store once the uncache function has run. *)
Lemma uncached_store_lookup (c : Cache.t) (paths : list string) (k : string) :
  Cache.store
    (Cache.deletePaths c
       (EndpointCategory.pathsToUncache paths (Cache.getAllPaths c))) !! k
  = if uncaches paths k then None else Cache.store c !! k.
Proof.
  rewrite deletePaths_lookup.
  destruct (uncaches paths k) eqn:Hu.
  - apply uncaches_true in Hu as (path & Hin & Hk).
    case_decide as Hd; [done|].
    destruct (Cache.store c !! k) eqn:Hs; [|done].
    exfalso. apply Hd. apply pathsToUncache_elem. exists path. split; [done|].
    destruct (endsWithStar path); [|done].
    split; [done|]. apply getAllPaths_elem. by rewrite Hs.
  - case_decide as Hd; [|done].
    apply pathsToUncache_elem in Hd as (path & Hin & Hk).
    assert (uncaches paths k = true) as Ht; [|congruence].
    apply uncaches_true. exists path. split; [done|].
    destruct (endsWithStar path); [by destruct Hk|done].
Qed.

Lemma uncache_runs (config : loc) (paths : list string) (response : value)
    (w : world) (l : loc) (c : Cache.t) :
  cacheAt w (getField w config "cache") = Some (l, c) ->
  EndpointCategory.uncache config paths response w
  = (Returns (Promise_resolve response),
     setCache w l
       (Cache.deletePaths c
          (EndpointCategory.pathsToUncache paths (Cache.getAllPaths c)))).
Proof. intros H. unfold EndpointCategory.uncache. by rewrite H. Qed.

(** C2, counterexample: the invalidation set holds the one pattern
    [/api/v1/courses/4*/quizzes/*].  The cached key [/api/v1/courses/42]
    does not start with [/api/v1/courses/4*/quizzes/] and is not named in
    the set, and yet it is deleted: the prefix is the text before the
    first star, [/api/v1/courses/4]. *)
Lemma wildcard_claim_counterexample : ~ wildcard_claim.
Proof.
  intros H.
  destruct (H 0 wildcard_world 1 wildcard_cache
              ["/api/v1/courses/4*/quizzes/*"] "/api/v1/courses/4*/quizzes/"
              VNull eq_refl (or_introl eq_refl))
    as (c' & Hc' & _ & Hkeep).
  vm_compute in Hc'. injection Hc' as <-.
  specialize (Hkeep "/api/v1/courses/42" eq_refl).
  vm_compute in Hkeep.
  assert (None = Some (VStr "course")) as Habs; [|discriminate].
  apply Hkeep. intros [Heq|[]]. discriminate.
Qed.

(** C2, as amended: when the uncache function runs on an invalidation
    set, a key is gone from the cache if some entry of the set names it
    or ends with a star and has the text before its first star as a
    prefix of the key, which covers every key that starts with [P] for an
    entry [P*]; every other key keeps the value it had. *)
Theorem uncache_wildcard (config : loc) (w : world) (l : loc) (c : Cache.t)
    (paths : list string) (response : value) :
  cacheAt w (getField w config "cache") = Some (l, c) ->
  exists c',
    EndpointCategory.uncache config paths response w
    = (Returns (Promise_resolve response), setCache w l c') /\
    (forall k, Cache.store c' !! k
               = if uncaches paths k then None else Cache.store c !! k) /\
    (forall P k, In (P ++ "*") paths -> startsWith k P = true ->
                 uncaches paths k = true).
Proof.
  intros Hc. eexists. split; [by apply uncache_runs|]. split.
  - intros k. apply uncached_store_lookup.
  - intros P k Hin Hk. apply uncaches_true. exists (P ++ "*").
    rewrite list_elem_of_In. split; [done|].
    rewrite endsWithStar_app_star. by apply startsWith_beforeStar.
Qed.

Lemma uncache_wildcard_witness :
  cacheAt wildcard_world (getField wildcard_world 0 "cache")
  = Some (1, wildcard_cache) /\
  exists c',
    EndpointCategory.uncache 0 ["/api/v1/courses/42/*"] VNull wildcard_world
    = (Returns (Promise_resolve VNull), setCache wildcard_world 1 c') /\
    (forall k, Cache.store c' !! k
               = if uncaches ["/api/v1/courses/42/*"] k then None
                 else Cache.store wildcard_cache !! k) /\
    (forall P k, In (P ++ "*") ["/api/v1/courses/42/*"] ->
                 startsWith k P = true ->
                 uncaches ["/api/v1/courses/42/*"] k = true).
Proof.
  split; [reflexivity|].
  apply (uncache_wildcard 0 wildcard_world 1 wildcard_cache
           ["/api/v1/courses/42/*"] VNull).
  reflexivity.
Defined.

(** ** Other.endpoint *)

Lemma Promise_resolve_idemp (v : value) :
  Promise_resolve (Promise_resolve v) = Promise_resolve v.
Proof. by destruct v. Qed.

Lemma uncaches_star (k : string) : uncaches ["*"] k = true.
Proof. unfold uncaches. simpl. by rewrite startsWith_empty. Qed.

Lemma uncache_star_store (c : Cache.t) :
  Cache.deletePaths c
    (EndpointCategory.pathsToUncache ["*"] (Cache.getAllPaths c))
  = Cache.withStore c ∅.
Proof.
  unfold Cache.deletePaths at 1. f_equal. apply map_eq. intros k.
  pose proof (uncached_store_lookup c ["*"] k) as Hk.
  rewrite uncaches_star in Hk. rewrite lookup_empty. exact Hk.
Qed.

Lemma Other_endpoint_runs
    (self : Endpoint.this) (config : loc) (options : request)
    (w w1 : world) (response : value) (l : loc) (c : Cache.t) :
  Endpoint.uncache self = EndpointCategory.uncache config ->
  Endpoint.visitEndpoint self (otherRequest options) w
  = (Returns (VPromise fulfilled response), w1) ->
  cacheAt w1 (getField w1 config "cache") = Some (l, c) ->
  Other.endpoint self options w
  = (Returns (Promise_resolve response),
     setCache w1 l (Cache.withStore c ∅)).
Proof.
  intros Hu Hv Hc.
  unfold Other.endpoint, Endpoint.visitThen. fold (otherRequest options).
  rewrite Hv. unfold then_. rewrite Hu.
  by rewrite (uncache_runs _ _ _ _ _ _ Hc), Promise_resolve_idemp,
    uncache_star_store.
Qed.

Lemma Other_endpoint_success
    (self : Endpoint.this) (options : request) (w w2 : world) (v : value) :
  Other.endpoint self options w = (Returns (VPromise fulfilled v), w2) ->
  exists response,
    (Endpoint.visitEndpoint self (otherRequest options) w).1
    = Returns (VPromise fulfilled response).
Proof.
  unfold Other.endpoint, Endpoint.visitThen. fold (otherRequest options).
  destruct (Endpoint.visitEndpoint self (otherRequest options) w) as [[p|e] w1];
    [|discriminate].
  destruct p as [| | | | | | | | | |[] p]; simpl; try discriminate.
  intros _. by exists p.
Qed.

(** C10: after a successful call of [Other.endpoint] on an instance whose
    config has a cache and the uncache function made for it, the cache
    holds no entry and lists no path, whatever path was called. *)
Theorem Other_endpoint_empties_cache
    (self : Endpoint.this) (config : loc) (options : request)
    (w w2 : world) (v : value) (l : loc) (c : Cache.t) :
  Endpoint.uncache self = EndpointCategory.uncache config ->
  cacheAt (snd (Endpoint.visitEndpoint self (otherRequest options) w))
    (getField (snd (Endpoint.visitEndpoint self (otherRequest options) w))
       config "cache")
  = Some (l, c) ->
  Other.endpoint self options w = (Returns (VPromise fulfilled v), w2) ->
  exists c2,
    cacheAt w2 (VRef l) = Some (l, c2) /\
    Cache.store c2 = ∅ /\
    Cache.getAllPaths c2 = [].
Proof.
  intros Hu Hc Hrun.
  destruct (Other_endpoint_success _ _ _ _ _ Hrun) as [response Hv].
  destruct (Endpoint.visitEndpoint self (otherRequest options) w)
    as [r w1] eqn:Hve.
  simpl in Hv, Hc. subst r.
  rewrite (Other_endpoint_runs _ _ _ _ _ _ _ _ Hu Hve Hc) in Hrun.
  injection Hrun as _ <-.
  exists (Cache.withStore c ∅). split; [apply cacheAt_setCache|].
  split; [reflexivity|].
  unfold Cache.getAllPaths. simpl. by rewrite dom_empty_L, elements_empty.
Qed.

Lemma Other_endpoint_empties_cache_witness :
  Endpoint.uncache otherThis = EndpointCategory.uncache 0 /\
  cacheAt (snd (Endpoint.visitEndpoint otherThis (otherRequest otherOptions)
                  cachedWorld))
    (getField (snd (Endpoint.visitEndpoint otherThis (otherRequest otherOptions)
                      cachedWorld)) 0 "cache")
  = Some (1, Cache.set (Cache.MemoryCache false) "/api/v1/courses" courseList) /\
  Other.endpoint otherThis otherOptions cachedWorld
  = (Returns (VPromise fulfilled courseList),
     (Other.endpoint otherThis otherOptions cachedWorld).2) /\
  exists c2,
    cacheAt (Other.endpoint otherThis otherOptions cachedWorld).2 (VRef 1)
    = Some (1, c2) /\
    Cache.store c2 = ∅ /\
    Cache.getAllPaths c2 = [].
Proof.
  split; [reflexivity|].
  split; [vm_compute; reflexivity|].
  split; [vm_compute; reflexivity|].
  apply (Other_endpoint_empties_cache otherThis 0 otherOptions cachedWorld
           (Other.endpoint otherThis otherOptions cachedWorld).2 courseList 1
           (Cache.set (Cache.MemoryCache false) "/api/v1/courses" courseList)).
  - reflexivity.
  - vm_compute; reflexivity.
  - vm_compute; reflexivity.
Defined.

(** ** _preProcessParams *)

Lemma getField_object (w : world) (o : loc) (f : gmap string value) (k : string) :
  heap w !! o = Some (CObject f) ->
  getField w o k = default VUndefined (f !! k).
Proof. intros H. unfold getField. by rewrite H. Qed.

Lemma setField_object (w : world) (o : loc) (f : gmap string value)
    (k : string) (v : value) :
  heap w !! o = Some (CObject f) ->
  setField w o k v = setHeap w (<[o := CObject (<[k := v]> f)]> (heap w)).
Proof. intros H. unfold setField. by rewrite H. Qed.

Lemma getField_setField_ne (w : world) (o : loc) (k k' : string) (v : value) :
  k ≠ k' -> getField (setField w o k v) o k' = getField w o k'.
Proof.
  intros Hne. unfold setField.
  destruct (heap w !! o) as [[f|c]|] eqn:Ho; try done.
  unfold getField. simpl. rewrite lookup_insert_eq, Ho.
  by rewrite lookup_insert_ne.
Qed.

Lemma fills_refl (config : loc) (w : world) : fills config w w.
Proof.
  split; [done|]. split; [done|].
  intros f Hf. exists f. split; [done|]. by intros k _.
Qed.

Lemma fills_trans (config : loc) (w1 w2 w3 : world) :
  fills config w1 w2 -> fills config w2 w3 -> fills config w1 w3.
Proof.
  intros (Hc1 & Ho1 & Hf1) (Hc2 & Ho2 & Hf2).
  split; [congruence|]. split.
  - intros l Hl Hs. rewrite <- (Ho1 l Hl Hs). apply Ho2; [done|].
    by rewrite (Ho1 l Hl Hs).
  - intros f Hf. destruct (Hf1 f Hf) as (f' & Hf' & Hk1).
    destruct (Hf2 f' Hf') as (f'' & Hf'' & Hk2).
    exists f''. split; [done|]. intros k Hk.
    rewrite <- (Hk1 k Hk). apply Hk2.
    destruct Hk as [Hk|Hk]; [by left|right]. by rewrite (Hk1 k (or_intror Hk)).
Qed.

Lemma fills_setField (config : loc) (w : world) (k : string) (v : value) :
  k = "api" \/ k = "cache" \/ k = "uncache" ->
  truthy (getField w config k) = false ->
  fills config w (setField w config k v).
Proof.
  intros Hk Hfalsy. unfold setField.
  destruct (heap w !! config) as [[f|c]|] eqn:Ho; try apply fills_refl.
  split; [done|]. split.
  - intros l Hl _. simpl. by rewrite lookup_insert_ne.
  - intros f0 Hf0. rewrite Ho in Hf0. injection Hf0 as <-.
    exists (<[k := v]> f). simpl. rewrite lookup_insert_eq. split; [done|].
    intros k' Hk'. destruct (decide (k = k')) as [<-|Hne].
    + rewrite (getField_object _ _ _ _ Ho) in Hfalsy.
      destruct Hk' as [(? & ? & ?)|Ht]; [|congruence].
      destruct Hk as [?|[?|?]]; congruence.
    + by rewrite lookup_insert_ne.
Qed.

Lemma alloc_fresh (w : world) (c : cell) : heap w !! (alloc w c).1 = None.
Proof. simpl. apply not_elem_of_dom. apply is_fresh. Qed.

Lemma fills_alloc (config : loc) (w : world) (c : cell) :
  fills config w (alloc w c).2.
Proof.
  pose proof (alloc_fresh w c) as Hfresh. simpl in *.
  split; [done|]. split.
  - intros l _ [x Hx]. simpl. rewrite lookup_insert_ne; [done|]. congruence.
  - intros f Hf. exists f. simpl. rewrite lookup_insert_ne; [|congruence].
    split; [done|]. by intros k _.
Qed.

Lemma getField_alloc (w : world) (c : cell) (o : loc) (f : gmap string value)
    (k : string) :
  heap w !! o = Some (CObject f) ->
  getField (alloc w c).2 o k = getField w o k.
Proof.
  intros Ho. pose proof (alloc_fresh w c) as Hfresh.
  unfold getField. simpl in *. rewrite lookup_insert_ne; [done|]. congruence.
Qed.

Section preProcess_facts.

Variable memoryStoresPromises sessionStoresPromises : bool.

Abbreviation initCache :=
  (EndpointCategory.initCache memoryStoresPromises sessionStoresPromises).
Abbreviation _preProcessParams :=
  (EndpointCategory._preProcessParams memoryStoresPromises sessionStoresPromises).

Lemma initCache_error (config : loc) (w : world) :
  (initCache config w).1
  = if cacheInvalid (getField w config "cache") (getField w config "cacheType")
         (getField w config "req")
    then Some (CACCLError EndpointCategory.invalidCacheMessage invalid_cache)
    else None.
Proof.
  unfold EndpointCategory.initCache, cacheInvalid.
  destruct (truthy (getField w config "cache")); simpl; [done|].
  destruct (is_str (getField w config "cacheType") "memory"); simpl; [done|].
  destruct (is_str (getField w config "cacheType") "session"
            && truthy (getField w config "req")); simpl; [done|].
  by destruct (truthy (getField w config "cacheType")).
Qed.

Lemma initCache_fills (config : loc) (w : world) (f : gmap string value) :
  heap w !! config = Some (CObject f) ->
  fills config w (initCache config w).2.
Proof.
  intros Ho. unfold EndpointCategory.initCache.
  destruct (truthy (getField w config "cache")) eqn:Hc; simpl;
    [apply fills_refl|].
  assert (forall c, fills config w
            (setField (alloc w c).2 config "cache" (VRef (alloc w c).1))) as Hnew.
  { intros c. eapply fills_trans; [apply fills_alloc|].
    apply fills_setField; [auto|].
    by rewrite (getField_alloc _ _ _ _ _ Ho). }
  destruct (is_str (getField w config "cacheType") "memory"); [apply Hnew|].
  destruct (is_str (getField w config "cacheType") "session"
            && truthy (getField w config "req")); [apply Hnew|].
  destruct (truthy (getField w config "cacheType")); apply fills_refl.
Qed.

Lemma initUncache_fills (config : loc) (w : world) :
  fills config w (EndpointCategory.initUncache config w).
Proof.
  unfold EndpointCategory.initUncache.
  destruct (truthy (getField w config "uncache")) eqn:Hu; simpl;
    [apply fills_refl|].
  destruct (truthy (getField w config "cache")); apply fills_setField; auto.
Qed.

Lemma withApi_fills (this config : loc) (w : world) :
  fills config w (withApi this config w).
Proof.
  unfold withApi. destruct (truthy (getField w config "api")) eqn:Ha; simpl;
    [apply fills_refl|]. apply fills_setField; auto.
Qed.

Lemma withApi_sets (this config : loc) (w : world) (f : gmap string value) :
  heap w !! config = Some (CObject f) ->
  truthy (getField w config "api") = false ->
  getField (withApi this config w) config "api" = VRef this.
Proof.
  intros Ho Ha. unfold withApi. rewrite Ha. simpl.
  rewrite (setField_object _ _ _ _ _ Ho). unfold getField. simpl.
  by rewrite !lookup_insert_eq.
Qed.

Lemma preProcessParams_after_api (this config : loc) (w : world)
    (f : gmap string value) :
  heap w !! config = Some (CObject f) ->
  fills config (withApi this config w) (_preProcessParams this config w).2.
Proof.
  intros Ho. unfold EndpointCategory._preProcessParams.
  fold (withApi this config w).
  destruct (proj2 (proj2 (withApi_fills this config w)) f Ho) as (f1 & Hf1 & _).
  pose proof (initCache_fills config _ f1 Hf1) as H2.
  destruct (initCache config (withApi this config w)) as [[e|] w2]; simpl in *.
  - done.
  - eapply fills_trans; [exact H2|]. apply initUncache_fills.
Qed.

Lemma preProcessParams_fills (this config : loc) (w : world)
    (f : gmap string value) :
  heap w !! config = Some (CObject f) ->
  fills config w (_preProcessParams this config w).2.
Proof.
  intros Ho. eapply fills_trans; [apply withApi_fills|].
  by eapply preProcessParams_after_api.
Qed.

Lemma preProcessParams_result (this config : loc) (w : world) :
  (_preProcessParams this config w).1
  = if cacheInvalid (getField w config "cache") (getField w config "cacheType")
         (getField w config "req")
    then Throws (CACCLError EndpointCategory.invalidCacheMessage invalid_cache)
    else Returns (VRef config).
Proof.
  unfold EndpointCategory._preProcessParams.
  set (w1 := if negb (truthy (getField w config "api"))
             then setField w config "api" (VRef this) else w).
  assert (forall k, k ≠ "api" -> getField w1 config k = getField w config k)
    as Hsame.
  { intros k Hk. unfold w1. destruct (negb (truthy (getField w config "api")));
      [|done]. by apply getField_setField_ne. }
  pose proof (initCache_error config w1) as He.
  rewrite !Hsame in He by done.
  destruct (initCache config w1) as [[e|] w2]; simpl in *;
    destruct (cacheInvalid _ _ _); congruence.
Qed.

End preProcess_facts.

(** C7, counterexample: the config names the cache type [redis] and
    brings a cache instance of its own; the cache type is then never
    looked at, and the construction succeeds. *)
Lemma invalid_cache_claim_counterexample : ~ invalid_cache_claim.
Proof.
  intros H.
  specialize (H true false 2 0 ownCacheWorld ownCacheConfig eq_refl).
  assert (Returns (VRef 0)
          = Throws (CACCLError EndpointCategory.invalidCacheMessage invalid_cache))
    as Habs; [|discriminate].
  apply H. left. by vm_compute.
Qed.

(** C7, as amended: the construction fails with the invalid-cache error
    exactly when the config brings no cache instance and its cache type is
    truthy, is not memory, and is not session together with a truthy
    session handle; in every other case it returns the config. *)
Theorem invalid_cache_iff (ms ss : bool) (this config : loc) (w : world)
    (f : gmap string value) :
  heap w !! config = Some (CObject f) ->
  ((EndpointCategory._preProcessParams ms ss this config w).1
   = Throws (CACCLError EndpointCategory.invalidCacheMessage invalid_cache)
   <-> truthy (default VUndefined (f !! "cache")) = false /\
       truthy (default VUndefined (f !! "cacheType")) = true /\
       is_str (default VUndefined (f !! "cacheType")) "memory" = false /\
       (is_str (default VUndefined (f !! "cacheType")) "session" = false
        \/ truthy (default VUndefined (f !! "req")) = false))
  /\ ((EndpointCategory._preProcessParams ms ss this config w).1
      = Throws (CACCLError EndpointCategory.invalidCacheMessage invalid_cache)
      \/ (EndpointCategory._preProcessParams ms ss this config w).1
         = Returns (VRef config)).
Proof.
  intros Ho. rewrite preProcessParams_result.
  rewrite !(getField_object _ _ _ _ Ho). unfold cacheInvalid.
  destruct (truthy (default VUndefined (f !! "cache")));
    destruct (truthy (default VUndefined (f !! "cacheType")));
    destruct (is_str (default VUndefined (f !! "cacheType")) "memory");
    destruct (is_str (default VUndefined (f !! "cacheType")) "session");
    destruct (truthy (default VUndefined (f !! "req")));
    simpl; split; try (split; [intros ?|intros (? & ? & ? & [?|?])]);
    try discriminate; auto 6.
Qed.

Lemma invalid_cache_iff_witness :
  heap ownCacheWorld !! 0 = Some (CObject ownCacheConfig) /\
  (((EndpointCategory._preProcessParams true false 2 0 ownCacheWorld).1
    = Throws (CACCLError EndpointCategory.invalidCacheMessage invalid_cache)
    <-> truthy (default VUndefined (ownCacheConfig !! "cache")) = false /\
        truthy (default VUndefined (ownCacheConfig !! "cacheType")) = true /\
        is_str (default VUndefined (ownCacheConfig !! "cacheType")) "memory"
        = false /\
        (is_str (default VUndefined (ownCacheConfig !! "cacheType")) "session"
         = false
         \/ truthy (default VUndefined (ownCacheConfig !! "req")) = false))
   /\ ((EndpointCategory._preProcessParams true false 2 0 ownCacheWorld).1
       = Throws (CACCLError EndpointCategory.invalidCacheMessage invalid_cache)
       \/ (EndpointCategory._preProcessParams true false 2 0 ownCacheWorld).1
          = Returns (VRef 0))).
Proof.
  split; [reflexivity|].
  apply (invalid_cache_iff true false 2 0 ownCacheWorld ownCacheConfig).
  reflexivity.
Defined.

(** ** wrapVisitEndpoint *)

Lemma cacheAt_truthy (w : world) (v : value) (l : loc) (c : Cache.t) :
  cacheAt w v = Some (l, c) -> v = VRef l /\ heap w !! l = Some (CCache c).
Proof.
  destruct v; try discriminate. simpl.
  destruct (heap w !! l0) as [[f|c0]|] eqn:Hl; try discriminate.
  by intros [= <- <-].
Qed.

Lemma clear_lookup (c : Cache.t) (key : value) (k : string) :
  Cache.store (Cache.clear c key) !! k
  = if is_str key k then None else Cache.store c !! k.
Proof.
  destruct key; try done. simpl.
  destruct (String.eqb_spec s k) as [->|Hne].
  - apply lookup_delete_eq.
  - by apply lookup_delete_ne.
Qed.

Lemma clear_all_lookup (keys : list value) (c : Cache.t) (k : string) :
  Cache.store (foldl Cache.clear c keys) !! k
  = if clears keys k then None else Cache.store c !! k.
Proof.
  revert c. induction keys as [|key keys IH]; intros c; [done|].
  simpl. rewrite IH, clear_lookup.
  destruct (is_str key k); simpl; by destruct (clears keys k).
Qed.

Lemma valuePromise_resolved (cfg : Wrap.config) (requestOptions : request)
    (w : world) (l : loc) (c : Cache.t) (endpointResults : value) :
  cacheAt w (Wrap.cache cfg) = Some (l, c) ->
  Wrap.visitEndpoint cfg requestOptions (calls w) = Resolves endpointResults ->
  Wrap.valuePromise cfg requestOptions w
  = (Promise_resolve (Wrap.response endpointResults),
     {| heap := <[l := CCache (cacheAfter c (path requestOptions) endpointResults)]>
                  (heap w);
        calls := calls w ++ [requestOptions] |}).
Proof.
  intros Hc Hv. unfold Wrap.valuePromise. rewrite Hv. unfold Wrap.onSuccess.
  destruct (cacheAt_truthy _ _ _ _ Hc) as [Hcache Hl].
  rewrite Hcache. simpl. rewrite Hl. unfold cacheAfter, stored, setCache, setHeap.
  simpl. by destruct (Cache.storePromises c).
Qed.

Lemma valuePromise_calls (cfg : Wrap.config) (requestOptions : request)
    (w : world) :
  calls (Wrap.valuePromise cfg requestOptions w).2
  = (calls w ++ [requestOptions])%list.
Proof.
  unfold Wrap.valuePromise.
  destruct (Wrap.visitEndpoint cfg requestOptions (calls w)); [|done].
  unfold Wrap.onSuccess. destruct (truthy (Wrap.cache cfg)); [|done].
  by destruct (cacheAt _ _) as [[l c]|].
Qed.

Lemma wrapVisitEndpoint_miss (cfg : Wrap.config) (options : request)
    (w : world) (v : value) :
  Wrap.cachedValue cfg options w = Returns v -> truthy v = false ->
  Wrap.wrapVisitEndpoint cfg options w
  = (Returns VUndefined,
     (Wrap.valuePromise cfg (Wrap.addAccessToken cfg options) w).2).
Proof.
  intros Hc Hv. unfold Wrap.wrapVisitEndpoint. rewrite Hc, Hv.
  by destruct (Wrap.valuePromise _ _ _).
Qed.

Lemma wrapVisitEndpoint_hit (cfg : Wrap.config) (options : request)
    (w : world) (v : value) :
  Wrap.cachedValue cfg options w = Returns v -> truthy v = true ->
  Wrap.wrapVisitEndpoint cfg options w = (Returns (Promise_resolve v), w).
Proof. intros Hc Hv. unfold Wrap.wrapVisitEndpoint. by rewrite Hc, Hv. Qed.

Lemma cachedValue_get (cfg : Wrap.config) (options : request) (w : world)
    (l : loc) (c : Cache.t) :
  cacheAt w (Wrap.cache cfg) = Some (l, c) ->
  Wrap.cachedValue cfg options w = Returns (Cache.get c (path options)).
Proof.
  intros Hc. unfold Wrap.cachedValue.
  destruct (cacheAt_truthy _ _ _ _ Hc) as [Hcache _].
  rewrite Hc. by rewrite Hcache.
Qed.

Lemma cacheAfter_lookup (c : Cache.t) (key : string) (endpointResults : value)
    (k : string) :
  Cache.store (cacheAfter c key endpointResults) !! k
  = if negb (Wrap.uncacheExcluded endpointResults)
       && clears (Wrap.uncacheKeys endpointResults) k
    then None
    else <[key := stored c endpointResults]> (Cache.store c) !! k.
Proof.
  unfold cacheAfter.
  destruct (Wrap.uncacheExcluded endpointResults); simpl; [done|].
  by rewrite clear_all_lookup.
Qed.

(** C5, counterexample: the response of the call carries an invalidation
    set, and after the call the cache holds the payload under the path of
    the request. *)
Lemma unstored_claim_counterexample : ~ unstored_claim.
Proof.
  intros H.
  destruct (H createConfig createRequest emptyCacheWorld 1
              (Cache.MemoryCache false) createResults
              eq_refl eq_refl eq_refl eq_refl) as (c' & Hc' & Hnone).
  vm_compute in Hc'. injection Hc' as <-.
  vm_compute in Hnone. discriminate Hnone.
Qed.

(** C5, as amended: when a cache exists and the request succeeds, the
    promise resolves with the un-wrapped payload alone, and the payload
    (the promise, when the cache stores promises) is put under the path of
    the request whether or not the response carries an invalidation set;
    the keys of an invalidation set are cleared after that, so the payload
    stays cached unless the set names the path of the request. *)
Theorem success_stores_payload (cfg : Wrap.config) (requestOptions : request)
    (w : world) (l : loc) (c : Cache.t) (endpointResults : value) :
  cacheAt w (Wrap.cache cfg) = Some (l, c) ->
  Wrap.visitEndpoint cfg requestOptions (calls w) = Resolves endpointResults ->
  exists c',
    Wrap.valuePromise cfg requestOptions w
    = (Promise_resolve (Wrap.response endpointResults),
       {| heap := <[l := CCache c']> (heap w);
          calls := calls w ++ [requestOptions] |}) /\
    (forall k,
       Cache.store c' !! k
       = if negb (Wrap.uncacheExcluded endpointResults)
            && clears (Wrap.uncacheKeys endpointResults) k
         then None
         else <[path requestOptions := stored c endpointResults]>
                (Cache.store c) !! k) /\
    Wrap.response endpointResults
    = (if Wrap.uncacheExcluded endpointResults then endpointResults
       else prop endpointResults "response").
Proof.
  intros Hc Hv. exists (cacheAfter c (path requestOptions) endpointResults).
  split; [by apply valuePromise_resolved|].
  split; [intros k; apply cacheAfter_lookup|reflexivity].
Qed.

Lemma success_stores_payload_witness :
  cacheAt emptyCacheWorld (Wrap.cache createConfig)
  = Some (1, Cache.MemoryCache false) /\
  Wrap.visitEndpoint createConfig createRequest (calls emptyCacheWorld)
  = Resolves createResults /\
  exists c',
    Wrap.valuePromise createConfig createRequest emptyCacheWorld
    = (Promise_resolve (Wrap.response createResults),
       {| heap := <[1 := CCache c']> (heap emptyCacheWorld);
          calls := calls emptyCacheWorld ++ [createRequest] |}) /\
    (forall k,
       Cache.store c' !! k
       = if negb (Wrap.uncacheExcluded createResults)
            && clears (Wrap.uncacheKeys createResults) k
         then None
         else <[path createRequest
                := stored (Cache.MemoryCache false) createResults]>
                (Cache.store (Cache.MemoryCache false)) !! k) /\
    Wrap.response createResults
    = (if Wrap.uncacheExcluded createResults then createResults
       else prop createResults "response").
Proof.
  split; [reflexivity|]. split; [reflexivity|].
  apply (success_stores_payload createConfig createRequest emptyCacheWorld 1
           (Cache.MemoryCache false) createResults); reflexivity.
Defined.

(** ** Two calls in a row *)

(** C1, counterexample: the payload of the read-only call is [null].
    The first call stores it; the second call reads it back, finds it
    falsy, and sends the request again: two requests are sent. *)
Lemma idempotence_claim_counterexample : ~ idempotence_claim.
Proof.
  intros H.
  destruct (H nullConfig getRequest emptyCacheWorld 1 (Cache.MemoryCache false)
              VNull eq_refl eq_refl eq_refl eq_refl) as [Hcalls _].
  vm_compute in Hcalls. discriminate Hcalls.
Qed.

Lemma atReturn_miss (cfg : Wrap.config) (options : request) (w : world)
    (v : value) :
  Wrap.cachedValue cfg options w = Returns v -> truthy v = false ->
  Wrap.atReturn cfg options w
  = {| heap := heap w; calls := calls w ++ [Wrap.addAccessToken cfg options] |}.
Proof. intros Hc Hv. unfold Wrap.atReturn. by rewrite Hc, Hv. Qed.

Lemma atReturn_hit (cfg : Wrap.config) (options : request) (w : world)
    (v : value) :
  Wrap.cachedValue cfg options w = Returns v -> truthy v = true ->
  Wrap.atReturn cfg options w = w.
Proof. intros Hc Hv. unfold Wrap.atReturn. by rewrite Hc, Hv. Qed.

(** The world that [valuePromise] gives is the world at the return of the
    call, with the callback of [.then] run on it. *)
Lemma valuePromise_settle (cfg : Wrap.config) (requestOptions : request)
    (w : world) :
  Wrap.valuePromise cfg requestOptions w
  = Wrap.settle cfg requestOptions (calls w)
      {| heap := heap w; calls := calls w ++ [requestOptions] |}.
Proof. reflexivity. Qed.

(** C1, as amended: with a cache that misses the path, a read-only call
    whose request succeeds sends one request and returns at once, with the
    cache as it was; the payload (the promise, when the cache stores
    promises) is written to the cache when the promise of the request
    settles, and that promise resolves with the payload.  A second call
    with the same path that is made before the first request has settled
    misses the cache again and sends the request again.  A second call
    made after that sends no request, changes nothing, and returns a
    promise resolved with the cached payload, when the payload is truthy
    or the cache stores promises; when a falsy payload was stored as a
    value, the second call reads it back as a miss and sends the request
    again. *)
Theorem second_call_is_cached (cfg : Wrap.config) (options options' : request)
    (w : world) (l : loc) (c : Cache.t) (payload : value) :
  cacheAt w (Wrap.cache cfg) = Some (l, c) ->
  truthy (Cache.get c (path options)) = false ->
  Wrap.visitEndpoint cfg (Wrap.addAccessToken cfg options) (calls w)
  = Resolves payload ->
  Wrap.uncacheExcluded payload = true ->
  path options' = path options ->
  let w0 := Wrap.atReturn cfg options w in
  let w1 := (Wrap.wrapVisitEndpoint cfg options w).2 in
  (* the first call, when it returns and when its request has settled *)
  w0 = {| heap := heap w;
          calls := calls w ++ [Wrap.addAccessToken cfg options] |} /\
  Wrap.settle cfg (Wrap.addAccessToken cfg options) (calls w) w0
  = (Promise_resolve payload, w1) /\
  calls w1 = (calls w ++ [Wrap.addAccessToken cfg options])%list /\
  (Wrap.valuePromise cfg (Wrap.addAccessToken cfg options) w).1
  = Promise_resolve payload /\
  (* a second call before the first request has settled *)
  (Wrap.wrapVisitEndpoint cfg options' w0).1 = Returns VUndefined /\
  Wrap.atReturn cfg options' w0
  = {| heap := heap w;
       calls := calls w ++ [Wrap.addAccessToken cfg options;
                            Wrap.addAccessToken cfg options'] |} /\
  (* a second call after it *)
  (Cache.storePromises c = true \/ truthy payload = true ->
   Wrap.atReturn cfg options' w1 = w1 /\
   Wrap.wrapVisitEndpoint cfg options' w1
   = (Returns (Promise_resolve payload), w1)) /\
  (Cache.storePromises c = false -> truthy payload = false ->
   (Wrap.wrapVisitEndpoint cfg options' w1).1 = Returns VUndefined /\
   Wrap.atReturn cfg options' w1
   = {| heap := heap w1;
        calls := calls w ++ [Wrap.addAccessToken cfg options;
                             Wrap.addAccessToken cfg options'] |}).
Proof.
  intros Hc Hmiss Hv Hget Hpath. cbv zeta.
  pose proof (cachedValue_get cfg options w l c Hc) as Hcv.
  rewrite (wrapVisitEndpoint_miss _ _ _ _ Hcv Hmiss).
  rewrite (atReturn_miss _ _ _ _ Hcv Hmiss).
  pose proof (valuePromise_resolved _ _ _ _ _ _ Hc Hv) as Hvp.
  assert (Wrap.response payload = payload) as Hresp.
  { unfold Wrap.response. by rewrite Hget. }
  rewrite Hresp in Hvp.
  change (path (Wrap.addAccessToken cfg options)) with (path options) in Hvp.
  rewrite <- valuePromise_settle, Hvp. cbn [fst snd].
  set (r := Wrap.addAccessToken cfg options).
  set (c1 := cacheAfter c (path options) payload).
  set (w0 := {| heap := heap w; calls := (calls w ++ [r])%list |}).
  set (w1 := {| heap := <[l := CCache c1]> (heap w); calls := _ |}).
  destruct (cacheAt_truthy _ _ _ _ Hc) as [Hcache Hl].
  assert (Wrap.cachedValue cfg options' w0 = Returns (Cache.get c (path options)))
    as Hcv0.
  { rewrite <- Hpath. apply cachedValue_get with (l := l).
    by rewrite <- Hc, Hcache. }
  assert (cacheAt w1 (Wrap.cache cfg) = Some (l, c1)) as Hc1.
  { rewrite Hcache. simpl. by rewrite lookup_insert_eq. }
  pose proof (cachedValue_get cfg options' w1 l c1 Hc1) as Hcv1.
  assert (Cache.get c1 (path options') = stored c payload) as Hstored.
  { unfold Cache.get, c1. rewrite cacheAfter_lookup, Hget, Hpath. simpl.
    by rewrite lookup_insert_eq. }
  rewrite Hstored in Hcv1.
  split; [reflexivity|]. split; [reflexivity|]. split; [reflexivity|].
  split; [reflexivity|].
  split; [by rewrite (wrapVisitEndpoint_miss _ _ _ _ Hcv0 Hmiss)|].
  split.
  { rewrite (atReturn_miss _ _ _ _ Hcv0 Hmiss). simpl.
    by rewrite <- app_assoc. }
  split.
  - intros Htruthy.
    assert (truthy (stored c payload) = true
            /\ Promise_resolve (stored c payload) = Promise_resolve payload)
      as [Ht Hp].
    { unfold stored. rewrite Hresp.
      destruct (Cache.storePromises c).
      - split; [by destruct payload|apply Promise_resolve_idemp].
      - by destruct Htruthy. }
    rewrite (atReturn_hit _ _ _ _ Hcv1 Ht).
    rewrite (wrapVisitEndpoint_hit _ _ _ _ Hcv1 Ht). by rewrite Hp.
  - intros Hsp Hfalsy.
    assert (truthy (stored c payload) = false) as Hf.
    { unfold stored. by rewrite Hresp, Hsp. }
    rewrite (wrapVisitEndpoint_miss _ _ _ _ Hcv1 Hf).
    rewrite (atReturn_miss _ _ _ _ Hcv1 Hf). simpl.
    by rewrite <- app_assoc.
Qed.

Lemma second_call_is_cached_witness :
  cacheAt emptyCacheWorld (Wrap.cache listConfig)
  = Some (1, Cache.MemoryCache false) /\
  truthy (Cache.get (Cache.MemoryCache false) (path listRequest)) = false /\
  Wrap.visitEndpoint listConfig (Wrap.addAccessToken listConfig listRequest)
    (calls emptyCacheWorld) = Resolves courseList /\
  Wrap.uncacheExcluded courseList = true /\
  path listRequest = path listRequest /\
  let w0 := Wrap.atReturn listConfig listRequest emptyCacheWorld in
  let w1 := (Wrap.wrapVisitEndpoint listConfig listRequest emptyCacheWorld).2 in
  w0 = {| heap := heap emptyCacheWorld;
          calls := calls emptyCacheWorld
                   ++ [Wrap.addAccessToken listConfig listRequest] |} /\
  Wrap.settle listConfig (Wrap.addAccessToken listConfig listRequest)
    (calls emptyCacheWorld) w0
  = (Promise_resolve courseList, w1) /\
  calls w1
  = (calls emptyCacheWorld
     ++ [Wrap.addAccessToken listConfig listRequest])%list /\
  (Wrap.valuePromise listConfig (Wrap.addAccessToken listConfig listRequest)
     emptyCacheWorld).1
  = Promise_resolve courseList /\
  (Wrap.wrapVisitEndpoint listConfig listRequest w0).1 = Returns VUndefined /\
  Wrap.atReturn listConfig listRequest w0
  = {| heap := heap emptyCacheWorld;
       calls := calls emptyCacheWorld
                ++ [Wrap.addAccessToken listConfig listRequest;
                    Wrap.addAccessToken listConfig listRequest] |} /\
  (Cache.storePromises (Cache.MemoryCache false) = true
   \/ truthy courseList = true ->
   Wrap.atReturn listConfig listRequest w1 = w1 /\
   Wrap.wrapVisitEndpoint listConfig listRequest w1
   = (Returns (Promise_resolve courseList), w1)) /\
  (Cache.storePromises (Cache.MemoryCache false) = false ->
   truthy courseList = false ->
   (Wrap.wrapVisitEndpoint listConfig listRequest w1).1 = Returns VUndefined /\
   Wrap.atReturn listConfig listRequest w1
   = {| heap := heap w1;
        calls := calls emptyCacheWorld
                 ++ [Wrap.addAccessToken listConfig listRequest;
                     Wrap.addAccessToken listConfig listRequest] |}).
Proof.
  do 5 (split; [reflexivity|]).
  apply (second_call_is_cached listConfig listRequest listRequest
           emptyCacheWorld 1 (Cache.MemoryCache false) courseList);
    reflexivity.
Defined.

(** ** The access token and the value returned on a miss *)

(** C4: every request that [wrapVisitEndpoint] sends carries the access
    token of the config as [access_token], whatever token the caller put
    there; the other parameters are the caller's. *)
Theorem access_token_overwritten (cfg : Wrap.config) (options : request)
    (w : world) (v : value) :
  Wrap.cachedValue cfg options w = Returns v ->
  truthy v = false ->
  exists sent,
    calls (Wrap.wrapVisitEndpoint cfg options w).2
    = (calls w ++ [{| path := path options; method := method options;
                      params := Some sent |}])%list /\
    sent !! "access_token" = Some (Wrap.accessToken cfg) /\
    (forall k, k ≠ "access_token" ->
               sent !! k = default ∅ (params options) !! k).
Proof.
  intros Hc Hv. rewrite (wrapVisitEndpoint_miss _ _ _ _ Hc Hv).
  cbn [fst snd]. rewrite valuePromise_calls. unfold Wrap.addAccessToken.
  eexists. split; [reflexivity|]. split.
  - apply lookup_insert_eq.
  - intros k Hk. by apply lookup_insert_ne.
Qed.

Lemma access_token_overwritten_witness :
  Wrap.cachedValue tokenConfig tokenRequest noWorld = Returns VUndefined /\
  truthy VUndefined = false /\
  default ∅ (params tokenRequest) !! "access_token"
  = Some (VStr "caller-token") /\
  exists sent,
    calls (Wrap.wrapVisitEndpoint tokenConfig tokenRequest noWorld).2
    = (calls noWorld ++ [{| path := path tokenRequest;
                            method := method tokenRequest;
                            params := Some sent |}])%list /\
    sent !! "access_token" = Some (VStr "config-token") /\
    (forall k, k ≠ "access_token" ->
               sent !! k = default ∅ (params tokenRequest) !! k).
Proof.
  split; [reflexivity|]. split; [reflexivity|]. split; [reflexivity|].
  apply (access_token_overwritten tokenConfig tokenRequest noWorld VUndefined);
    reflexivity.
Defined.

(** C6: when the cache does not answer, [wrapVisitEndpoint] sends the
    request and returns undefined, also when the request succeeds and its
    promise resolves with a payload. *)
Theorem miss_returns_undefined (cfg : Wrap.config) (options : request)
    (w : world) (v payload : value) :
  Wrap.cachedValue cfg options w = Returns v ->
  truthy v = false ->
  Wrap.visitEndpoint cfg (Wrap.addAccessToken cfg options) (calls w)
  = Resolves payload ->
  (Wrap.wrapVisitEndpoint cfg options w).1 = Returns VUndefined /\
  (Wrap.valuePromise cfg (Wrap.addAccessToken cfg options) w).1
  = Promise_resolve (Wrap.response payload) /\
  calls (Wrap.wrapVisitEndpoint cfg options w).2
  = (calls w ++ [Wrap.addAccessToken cfg options])%list.
Proof.
  intros Hc Hv Hres. rewrite (wrapVisitEndpoint_miss _ _ _ _ Hc Hv).
  cbn [fst snd].
  split; [reflexivity|]. split; [|apply valuePromise_calls].
  unfold Wrap.cachedValue in Hc.
  destruct (truthy (Wrap.cache cfg)) eqn:Hcache.
  - destruct (cacheAt w (Wrap.cache cfg)) as [[l c]|] eqn:Hat; [|discriminate].
    by rewrite (valuePromise_resolved _ _ _ _ _ _ Hat Hres).
  - unfold Wrap.valuePromise, Wrap.onSuccess. by rewrite Hres, Hcache.
Qed.

Lemma miss_returns_undefined_witness :
  Wrap.cachedValue tokenConfig listRequest noWorld = Returns VUndefined /\
  truthy VUndefined = false /\
  Wrap.visitEndpoint tokenConfig (Wrap.addAccessToken tokenConfig listRequest)
    (calls noWorld) = Resolves courseList /\
  (Wrap.wrapVisitEndpoint tokenConfig listRequest noWorld).1
  = Returns VUndefined /\
  (Wrap.valuePromise tokenConfig (Wrap.addAccessToken tokenConfig listRequest)
     noWorld).1
  = Promise_resolve (Wrap.response courseList) /\
  calls (Wrap.wrapVisitEndpoint tokenConfig listRequest noWorld).2
  = (calls noWorld ++ [Wrap.addAccessToken tokenConfig listRequest])%list.
Proof.
  do 3 (split; [reflexivity|]).
  apply (miss_returns_undefined tokenConfig listRequest noWorld VUndefined
           courseList); reflexivity.
Defined.

(** ** The endpoint binder *)

Lemma missingParams_elem (requiredParams : list string)
    (options : gmap string value) (q : string) :
  In q (missingParams requiredParams options)
  <-> In q requiredParams /\ omitted options q = true.
Proof. unfold missingParams. apply filter_In. Qed.

(** C3: when a required field is left out, the bound operation fails
    with the missing-parameter error, which names exactly the required
    fields that were left out; the world is as before, so no request was
    sent; and the endpoint logic, defaults included, played no part: the
    outcome is the same for every endpoint logic. *)
Theorem missing_parameter_fails (action : string) (requiredParams : list string)
    (endpointCoreFunction :
       Endpoint.this -> gmap string value -> world -> completion * world)
    (self : Endpoint.this) (options : gmap string value) (w : world)
    (param : string) :
  In param requiredParams ->
  omitted options param = true ->
  exists missing,
    instantiateEndpoint action requiredParams endpointCoreFunction self options w
    = (Returns (VPromise rejected (VError (MissingParameter action missing))), w)
    /\ (forall q, In q missing
                  <-> In q requiredParams /\ omitted options q = true)
    /\ calls (instantiateEndpoint action requiredParams endpointCoreFunction
                self options w).2 = calls w
    /\ (forall other,
          instantiateEndpoint action requiredParams other self options w
          = instantiateEndpoint action requiredParams endpointCoreFunction
              self options w).
Proof.
  intros Hin Hom.
  assert (In param (missingParams requiredParams options)) as Hmiss
    by (apply missingParams_elem; done).
  exists (missingParams requiredParams options).
  unfold instantiateEndpoint.
  destruct (missingParams requiredParams options) as [|m ms] eqn:Hm;
    [destruct Hmiss|].
  split; [reflexivity|]. split.
  - intros q. rewrite <- Hm. apply missingParams_elem.
  - split; reflexivity.
Qed.

Lemma missing_parameter_fails_witness :
  In "name" GroupSet.create_requiredParams /\
  omitted namelessOptions "name" = true /\
  exists missing,
    instantiateEndpoint "create a new group set in a course"
      GroupSet.create_requiredParams (GroupSet.create "/api/v1")
      createThis namelessOptions noWorld
    = (Returns (VPromise rejected
         (VError (MissingParameter "create a new group set in a course" missing))),
       noWorld)
    /\ (forall q, In q missing
                  <-> In q GroupSet.create_requiredParams
                      /\ omitted namelessOptions q = true)
    /\ calls (instantiateEndpoint "create a new group set in a course"
                GroupSet.create_requiredParams (GroupSet.create "/api/v1")
                createThis namelessOptions noWorld).2 = calls noWorld
    /\ (forall other,
          instantiateEndpoint "create a new group set in a course"
            GroupSet.create_requiredParams other createThis namelessOptions
            noWorld
          = instantiateEndpoint "create a new group set in a course"
              GroupSet.create_requiredParams (GroupSet.create "/api/v1")
              createThis namelessOptions noWorld).
Proof.
  assert (In "name" GroupSet.create_requiredParams) as Hin
    by (right; left; reflexivity).
  split; [exact Hin|]. split; [reflexivity|].
  apply (missing_parameter_fails "create a new group set in a course"
           GroupSet.create_requiredParams (GroupSet.create "/api/v1")
           createThis namelessOptions noWorld "name" Hin).
  reflexivity.
Defined.

(** ** Dispatch with retry *)

Lemma dispatchFrom_transient (transport : nat -> Executor.attempt)
    (retries extra made : nat) :
  (forall i, made <= i < made + retries ->
             exists failure, transport i = Executor.Transient failure) ->
  Executor.dispatchFrom transport (retries + extra) made
  = Executor.dispatchFrom transport extra (made + retries).
Proof.
  revert made. induction retries as [|retries IH]; intros made Hfail.
  - simpl. by rewrite Nat.add_0_r.
  - destruct (Hfail made) as [failure Hf]; [lia|].
    simpl. rewrite Hf. rewrite IH.
    + f_equal. lia.
    + intros i Hi. apply Hfail. lia.
Qed.

(** C9: let the first [N] invocations of the transport fail
    transiently, with [N] the retry count.  If invocation [N + 1]
    succeeds, the call succeeds after [N + 1] invocations; if it fails
    transiently too, the call fails with the request-failed error, which
    carries that last failure, after [N + 1] invocations.  With a retry
    count of 0 one invocation is made, whatever it gives. *)
Theorem retry_law (transport : nat -> Executor.attempt) (N : nat) :
  (forall i, i < N -> exists failure, transport i = Executor.Transient failure) ->
  (forall payload, transport N = Executor.Success payload ->
     Executor.dispatch transport N = (Executor.Ok payload, S N)) /\
  (forall failure, transport N = Executor.Transient failure ->
     Executor.dispatch transport N = (Executor.RequestFailed failure, S N)) /\
  (Executor.dispatch transport 0).2 = 1.
Proof.
  intros Hfail.
  assert (Executor.dispatch transport N = Executor.dispatchFrom transport 0 N)
    as Hrun.
  { unfold Executor.dispatch.
    rewrite <- (Nat.add_0_r N) at 1.
    apply (dispatchFrom_transient transport N 0 0).
    intros i Hi. apply Hfail. lia. }
  rewrite Hrun. split; [|split].
  - intros payload Hp. simpl. by rewrite Hp.
  - intros failure Hf. simpl. by rewrite Hf.
  - unfold Executor.dispatch. simpl. by destruct (transport 0).
Qed.

Lemma retry_law_witness :
  (forall i, i < 2 -> exists failure, flaky i = Executor.Transient failure) /\
  (forall payload, flaky 2 = Executor.Success payload ->
     Executor.dispatch flaky 2 = (Executor.Ok payload, 3)) /\
  (forall failure, flaky 2 = Executor.Transient failure ->
     Executor.dispatch flaky 2 = (Executor.RequestFailed failure, 3)) /\
  (Executor.dispatch flaky 0).2 = 1.
Proof.
  assert (forall i, i < 2 ->
            exists failure, flaky i = Executor.Transient failure) as Hfail.
  { intros i Hi. exists (VStr "ECONNRESET"). unfold flaky.
    destruct (Nat.ltb_spec i 2); [reflexivity|lia]. }
  split; [exact Hfail|]. exact (retry_law flaky 2 Hfail).
Defined.

(** ** More on the uncache function *)

Lemma cache_eq (c1 c2 : Cache.t) :
  Cache.store c1 = Cache.store c2 ->
  Cache.storePromises c1 = Cache.storePromises c2 ->
  Cache.session c1 = Cache.session c2 ->
  c1 = c2.
Proof. destruct c1, c2. simpl. by intros -> -> ->. Qed.

Lemma swept_lookup (c : Cache.t) (paths : list string) (k : string) :
  Cache.store (swept c paths) !! k
  = if uncaches paths k then None else Cache.store c !! k.
Proof. apply uncached_store_lookup. Qed.

Lemma uncaches_app (p1 p2 : list string) (k : string) :
  uncaches (p1 ++ p2) k = uncaches p1 k || uncaches p2 k.
Proof. unfold uncaches. apply existsb_app. Qed.

Lemma swept_swept (c : Cache.t) (p1 p2 : list string) :
  swept (swept c p1) p2 = swept c (p1 ++ p2).
Proof.
  apply cache_eq; [|done|done].
  apply map_eq. intros k. rewrite !swept_lookup, uncaches_app.
  by destruct (uncaches p1 k), (uncaches p2 k).
Qed.

Lemma swept_comm (c : Cache.t) (p1 p2 : list string) :
  swept c (p1 ++ p2) = swept c (p2 ++ p1).
Proof.
  apply cache_eq; [|done|done].
  apply map_eq. intros k. rewrite !swept_lookup, !uncaches_app.
  by destruct (uncaches p1 k), (uncaches p2 k).
Qed.

Lemma swept_same (c : Cache.t) (paths : list string) :
  (forall k, k ∈ Cache.getAllPaths c -> uncaches paths k = false) ->
  swept c paths = c.
Proof.
  intros Hno. apply cache_eq; [|done|done].
  apply map_eq. intros k. rewrite swept_lookup.
  destruct (uncaches paths k) eqn:Hu; [|done].
  destruct (Cache.store c !! k) eqn:Hk; [|done].
  rewrite Hno in Hu; [done|]. apply getAllPaths_elem. by rewrite Hk.
Qed.

(** The config object and the cache it names are two objects. *)
Lemma config_cache_apart (w : world) (config : loc) (k : string)
    (l : loc) (c : Cache.t) :
  cacheAt w (getField w config k) = Some (l, c) ->
  config ≠ l /\ getField w config k = VRef l /\ heap w !! l = Some (CCache c).
Proof.
  intros H. destruct (cacheAt_truthy _ _ _ _ H) as [Hk Hl].
  split; [|done]. intros ->. unfold getField in Hk. by rewrite Hl in Hk.
Qed.

Lemma getField_setCache (w : world) (config l : loc) (c : Cache.t) (k : string) :
  config ≠ l -> getField (setCache w l c) config k = getField w config k.
Proof. intros Hne. unfold getField, setCache. simpl. by rewrite lookup_insert_ne. Qed.

Lemma setCache_setCache (w : world) (l : loc) (c1 c2 : Cache.t) :
  setCache (setCache w l c1) l c2 = setCache w l c2.
Proof. unfold setCache, setHeap. simpl. by rewrite insert_insert_eq. Qed.

Lemma setCache_same (w : world) (l : loc) (c : Cache.t) :
  heap w !! l = Some (CCache c) -> setCache w l c = w.
Proof.
  intros Hl. destruct w as [h cs]. unfold setCache, setHeap. simpl in *.
  by rewrite insert_id.
Qed.

Lemma uncache_swept (config : loc) (paths : list string) (response : value)
    (w : world) (l : loc) (c : Cache.t) :
  cacheAt w (getField w config "cache") = Some (l, c) ->
  EndpointCategory.uncache config paths response w
  = (Returns (Promise_resolve response), setCache w l (swept c paths)).
Proof. apply uncache_runs. Qed.

Lemma uncache_swept_again (config : loc) (w : world) (l : loc) (c c' : Cache.t) :
  cacheAt w (getField w config "cache") = Some (l, c) ->
  cacheAt (setCache w l c') (getField (setCache w l c') config "cache")
  = Some (l, c').
Proof.
  intros H. destruct (config_cache_apart _ _ _ _ _ H) as (Hne & Hk & _).
  rewrite getField_setCache by done. rewrite Hk. apply cacheAt_setCache.
Qed.

(** X1: running the uncache function a second time on the same paths
    changes nothing: the world is the one that the first run left. *)
Theorem uncache_twice (config : loc) (paths : list string)
    (response response' : value) (w : world) (l : loc) (c : Cache.t) :
  cacheAt w (getField w config "cache") = Some (l, c) ->
  EndpointCategory.uncache config paths response'
    (EndpointCategory.uncache config paths response w).2
  = (Returns (Promise_resolve response'),
     (EndpointCategory.uncache config paths response w).2).
Proof.
  intros H. rewrite (uncache_swept _ _ _ _ _ _ H). cbn [snd].
  rewrite (uncache_swept _ _ _ _ _ _ (uncache_swept_again _ _ _ _ _ H)).
  rewrite setCache_setCache. do 2 f_equal.
  rewrite swept_swept. apply cache_eq; [|done|done].
  apply map_eq. intros k. rewrite !swept_lookup, uncaches_app.
  by destruct (uncaches paths k).
Qed.

Lemma uncache_twice_witness :
  cacheAt wildcard_world (getField wildcard_world 0 "cache")
  = Some (1, wildcard_cache) /\
  EndpointCategory.uncache 0 ["/api/v1/courses/*"] VNull
    (EndpointCategory.uncache 0 ["/api/v1/courses/*"] (VNum 1) wildcard_world).2
  = (Returns (Promise_resolve VNull),
     (EndpointCategory.uncache 0 ["/api/v1/courses/*"] (VNum 1)
        wildcard_world).2).
Proof.
  split; [reflexivity|].
  apply (uncache_twice 0 ["/api/v1/courses/*"] (VNum 1) VNull wildcard_world 1
           wildcard_cache).
  reflexivity.
Defined.

(** X2: uncaching two lists of paths one after the other leaves the
    world that uncaching their concatenation leaves, and the order of the
    two lists does not matter. *)
Theorem uncache_in_steps (config : loc) (p1 p2 : list string)
    (r1 r2 r : value) (w : world) (l : loc) (c : Cache.t) :
  cacheAt w (getField w config "cache") = Some (l, c) ->
  (EndpointCategory.uncache config p2 r2
     (EndpointCategory.uncache config p1 r1 w).2).2
  = (EndpointCategory.uncache config (p1 ++ p2) r w).2
  /\ (EndpointCategory.uncache config p2 r2
        (EndpointCategory.uncache config p1 r1 w).2).2
     = (EndpointCategory.uncache config p1 r1
          (EndpointCategory.uncache config p2 r2 w).2).2.
Proof.
  intros H.
  assert (forall q1 q2 s1 s2,
            (EndpointCategory.uncache config q2 s2
               (EndpointCategory.uncache config q1 s1 w).2).2
            = setCache w l (swept c (q1 ++ q2))) as Hseq.
  { intros q1 q2 s1 s2. rewrite (uncache_swept _ _ _ _ _ _ H). cbn [snd].
    rewrite (uncache_swept _ _ _ _ _ _ (uncache_swept_again _ _ _ _ _ H)).
    cbn [snd]. by rewrite setCache_setCache, swept_swept. }
  split.
  - rewrite Hseq. by rewrite (uncache_swept _ _ _ _ _ _ H).
  - rewrite !Hseq. by rewrite swept_comm.
Qed.

Lemma uncache_in_steps_witness :
  cacheAt wildcard_world (getField wildcard_world 0 "cache")
  = Some (1, wildcard_cache) /\
  (EndpointCategory.uncache 0 ["/api/v1/courses/*"] VNull
     (EndpointCategory.uncache 0 ["/api/v1/users/self"] VNull wildcard_world).2).2
  = (EndpointCategory.uncache 0 (["/api/v1/users/self"] ++ ["/api/v1/courses/*"])
       VNull wildcard_world).2
  /\ (EndpointCategory.uncache 0 ["/api/v1/courses/*"] VNull
        (EndpointCategory.uncache 0 ["/api/v1/users/self"] VNull
           wildcard_world).2).2
     = (EndpointCategory.uncache 0 ["/api/v1/users/self"] VNull
          (EndpointCategory.uncache 0 ["/api/v1/courses/*"] VNull
             wildcard_world).2).2.
Proof.
  split; [reflexivity|].
  apply (uncache_in_steps 0 ["/api/v1/users/self"] ["/api/v1/courses/*"]
           VNull VNull VNull wildcard_world 1 wildcard_cache).
  reflexivity.
Defined.

(** X3: the uncache function only deletes.  It sends no request and
    changes no object but the cache; in the cache it adds no key, changes
    no value that stays, and leaves the storage mode and the session
    handle alone. *)
Theorem uncache_only_deletes (config : loc) (paths : list string)
    (response : value) (w : world) (l : loc) (c : Cache.t) :
  cacheAt w (getField w config "cache") = Some (l, c) ->
  calls (EndpointCategory.uncache config paths response w).2 = calls w /\
  (forall l', l' ≠ l ->
     heap (EndpointCategory.uncache config paths response w).2 !! l'
     = heap w !! l') /\
  exists c',
    heap (EndpointCategory.uncache config paths response w).2 !! l
    = Some (CCache c') /\
    Cache.storePromises c' = Cache.storePromises c /\
    Cache.session c' = Cache.session c /\
    (forall k v, Cache.store c' !! k = Some v -> Cache.store c !! k = Some v).
Proof.
  intros H. rewrite (uncache_swept _ _ _ _ _ _ H). cbn [snd].
  split; [done|]. split.
  - intros l' Hl'. simpl. by rewrite lookup_insert_ne.
  - exists (swept c paths). unfold setCache, setHeap. cbn [heap].
    rewrite lookup_insert_eq. split; [done|]. split; [done|]. split; [done|].
    intros k v. rewrite swept_lookup. by destruct (uncaches paths k).
Qed.

Lemma uncache_only_deletes_witness :
  cacheAt wildcard_world (getField wildcard_world 0 "cache")
  = Some (1, wildcard_cache) /\
  calls (EndpointCategory.uncache 0 ["*"] VNull wildcard_world).2
  = calls wildcard_world /\
  (forall l', l' ≠ 1 ->
     heap (EndpointCategory.uncache 0 ["*"] VNull wildcard_world).2 !! l'
     = heap wildcard_world !! l') /\
  exists c',
    heap (EndpointCategory.uncache 0 ["*"] VNull wildcard_world).2 !! 1
    = Some (CCache c') /\
    Cache.storePromises c' = Cache.storePromises wildcard_cache /\
    Cache.session c' = Cache.session wildcard_cache /\
    (forall k v, Cache.store c' !! k = Some v ->
                 Cache.store wildcard_cache !! k = Some v).
Proof.
  split; [reflexivity|].
  apply (uncache_only_deletes 0 ["*"] VNull wildcard_world 1 wildcard_cache).
  reflexivity.
Defined.

(** X4: when no cached path is named by the invalidation set or starts
    with the prefix of one of its wildcards, the uncache function leaves
    the world exactly as it was; this is so for the empty set and for
    paths that were never cached. *)
Theorem uncache_no_match (config : loc) (paths : list string)
    (response : value) (w : world) (l : loc) (c : Cache.t) :
  cacheAt w (getField w config "cache") = Some (l, c) ->
  (forall k, k ∈ Cache.getAllPaths c -> uncaches paths k = false) ->
  EndpointCategory.uncache config paths response w
  = (Returns (Promise_resolve response), w).
Proof.
  intros H Hno. rewrite (uncache_swept _ _ _ _ _ _ H).
  rewrite (swept_same _ _ Hno).
  destruct (config_cache_apart _ _ _ _ _ H) as (_ & _ & Hl).
  by rewrite (setCache_same _ _ _ Hl).
Qed.

Lemma uncache_no_match_witness :
  cacheAt wildcard_world (getField wildcard_world 0 "cache")
  = Some (1, wildcard_cache) /\
  (forall k, k ∈ Cache.getAllPaths wildcard_cache ->
             uncaches ["/api/v1/users/*"; "/api/v1/courses/7"] k = false) /\
  EndpointCategory.uncache 0 ["/api/v1/users/*"; "/api/v1/courses/7"] VNull
    wildcard_world
  = (Returns (Promise_resolve VNull), wildcard_world).
Proof.
  assert (forall k, k ∈ Cache.getAllPaths wildcard_cache ->
            uncaches ["/api/v1/users/*"; "/api/v1/courses/7"] k = false) as Hno.
  { intros k Hk. apply getAllPaths_elem in Hk. unfold wildcard_cache in Hk.
    simpl in Hk. apply lookup_insert_is_Some in Hk as [<-|[_ Hk]];
      [reflexivity|]. rewrite lookup_empty in Hk. by destruct Hk. }
  split; [reflexivity|]. split; [exact Hno|].
  apply (uncache_no_match 0 ["/api/v1/users/*"; "/api/v1/courses/7"] VNull
           wildcard_world 1 wildcard_cache eq_refl Hno).
Defined.

(** ** More on _preProcessParams *)

Lemma getField_setField (w : world) (o : loc) (f : gmap string value)
    (k k' : string) (v : value) :
  heap w !! o = Some (CObject f) ->
  getField (setField w o k v) o k'
  = if decide (k = k') then v else getField w o k'.
Proof.
  intros Ho. rewrite (setField_object _ _ _ _ _ Ho). unfold getField. simpl.
  rewrite lookup_insert_eq, Ho. case_decide as Hk.
  - subst. by rewrite lookup_insert_eq.
  - by rewrite lookup_insert_ne.
Qed.

Lemma setField_keeps_object (w : world) (o : loc) (f : gmap string value)
    (k : string) (v : value) :
  heap w !! o = Some (CObject f) ->
  heap (setField w o k v) !! o = Some (CObject (<[k := v]> f)).
Proof.
  intros Ho. rewrite (setField_object _ _ _ _ _ Ho). simpl.
  by rewrite lookup_insert_eq.
Qed.

Lemma setField_other (w : world) (o l : loc) (k : string) (v : value) :
  o ≠ l -> heap (setField w o k v) !! l = heap w !! l.
Proof.
  intros Hne. unfold setField.
  destruct (heap w !! o) as [[f|c]|]; try done. simpl.
  by rewrite lookup_insert_ne.
Qed.

Lemma alloc_keeps (w : world) (c : cell) (o : loc) (x : cell) :
  heap w !! o = Some x -> heap (alloc w c).2 !! o = Some x.
Proof.
  intros Ho. pose proof (alloc_fresh w c) as Hfresh. simpl in *.
  rewrite lookup_insert_ne; [done|]. congruence.
Qed.

Lemma alloc_new (w : world) (c : cell) :
  heap (alloc w c).2 !! (alloc w c).1 = Some c.
Proof. simpl. by rewrite lookup_insert_eq. Qed.

Section preProcess_more.

Variable memoryStoresPromises sessionStoresPromises : bool.

Abbreviation initCache' :=
  (EndpointCategory.initCache memoryStoresPromises sessionStoresPromises).
Abbreviation preProcess :=
  (EndpointCategory._preProcessParams memoryStoresPromises sessionStoresPromises).
Abbreviation madeCache' :=
  (madeCache memoryStoresPromises sessionStoresPromises).

Lemma withApi_fields (this config : loc) (w : world) (f : gmap string value)
    (k : string) :
  heap w !! config = Some (CObject f) ->
  getField (withApi this config w) config k
  = if decide ("api" = k) then
      (if truthy (getField w config "api") then getField w config "api"
       else VRef this)
    else getField w config k.
Proof.
  intros Ho. unfold withApi.
  destruct (truthy (getField w config "api")) eqn:Ha; simpl.
  - case_decide; by subst.
  - by rewrite (getField_setField _ _ _ _ _ _ Ho).
Qed.

Lemma withApi_object (this config : loc) (w : world) (f : gmap string value) :
  heap w !! config = Some (CObject f) ->
  exists f1, heap (withApi this config w) !! config = Some (CObject f1).
Proof.
  intros Ho. unfold withApi. destruct (negb _); [|by eexists].
  eexists. by apply setField_keeps_object.
Qed.

Lemma initCache_makes (config : loc) (w : world) (f : gmap string value)
    (c : Cache.t) :
  heap w !! config = Some (CObject f) ->
  truthy (getField w config "cache") = false ->
  madeCache' (getField w config "cacheType") (getField w config "req") = Some c ->
  initCache' config w
  = (None, setField (alloc w (CCache c)).2 config "cache"
             (VRef (alloc w (CCache c)).1)).
Proof.
  intros Ho Hc Hm. unfold EndpointCategory.initCache, madeCache in *.
  rewrite Hc. simpl.
  destruct (is_str (getField w config "cacheType") "memory").
  - by injection Hm as <-.
  - destruct (is_str (getField w config "cacheType") "session"
              && truthy (getField w config "req")); [|done].
    by injection Hm as <-.
Qed.

Lemma initCache_leaves (config : loc) (w : world) :
  truthy (getField w config "cache") = true
  \/ madeCache' (getField w config "cacheType") (getField w config "req") = None ->
  (initCache' config w).2 = w.
Proof.
  unfold EndpointCategory.initCache, madeCache.
  intros [Hc|Hm].
  - by rewrite Hc.
  - destruct (truthy (getField w config "cache")); simpl; [done|].
    destruct (is_str (getField w config "cacheType") "memory"); [done|].
    destruct (is_str (getField w config "cacheType") "session"
              && truthy (getField w config "req")); [done|].
    by destruct (truthy (getField w config "cacheType")).
Qed.

Lemma initUncache_fields (config : loc) (w : world) (f : gmap string value)
    (k : string) :
  heap w !! config = Some (CObject f) ->
  getField (EndpointCategory.initUncache config w) config k
  = if decide ("uncache" = k) then
      (if truthy (getField w config "uncache") then getField w config "uncache"
       else if truthy (getField w config "cache") then VFun (FUncache config)
            else VFun FUncacheDummy)
    else getField w config k.
Proof.
  intros Ho. unfold EndpointCategory.initUncache.
  destruct (truthy (getField w config "uncache")) eqn:Hu; simpl.
  - case_decide; by subst.
  - destruct (truthy (getField w config "cache"));
      by rewrite (getField_setField _ _ _ _ _ _ Ho).
Qed.

Lemma initUncache_same (config : loc) (w : world) :
  truthy (getField w config "uncache") = true ->
  EndpointCategory.initUncache config w = w.
Proof. intros Hu. unfold EndpointCategory.initUncache. by rewrite Hu. Qed.

Lemma preProcess_unfold (this config : loc) (w : world) :
  preProcess this config w
  = match initCache' config (withApi this config w) with
    | (Some e, w2) => (Throws e, w2)
    | (None, w2) => (Returns (VRef config), EndpointCategory.initUncache config w2)
    end.
Proof. reflexivity. Qed.

End preProcess_more.

Section preProcess_fields.

Variable memoryStoresPromises sessionStoresPromises : bool.

Abbreviation initCache'' :=
  (EndpointCategory.initCache memoryStoresPromises sessionStoresPromises).
Abbreviation preProcess' :=
  (EndpointCategory._preProcessParams memoryStoresPromises sessionStoresPromises).
Abbreviation madeCache'' :=
  (madeCache memoryStoresPromises sessionStoresPromises).
Abbreviation cacheField' :=
  (cacheField memoryStoresPromises sessionStoresPromises).

Lemma withApi_dom (this config : loc) (w : world) :
  dom (heap (withApi this config w)) = dom (heap w).
Proof.
  unfold withApi. destruct (negb _); [|done]. unfold setField.
  destruct (heap w !! config) as [[f|c]|] eqn:Ho; try done. simpl.
  rewrite dom_insert_L.
  apply subseteq_union_1_L, singleton_subseteq_l. by eapply elem_of_dom_2.
Qed.

Lemma madeCache_invalid (cache cacheType req : value) :
  truthy cache = false ->
  madeCache'' cacheType req = None ->
  cacheInvalid cache cacheType req = truthy cacheType.
Proof.
  unfold madeCache, cacheInvalid. intros -> Hm.
  destruct (is_str cacheType "memory"); [done|].
  by destruct (is_str cacheType "session" && truthy req).
Qed.

Lemma madeCache_valid (cache cacheType req : value) (c : Cache.t) :
  madeCache'' cacheType req = Some c ->
  cacheInvalid cache cacheType req = false.
Proof.
  unfold madeCache, cacheInvalid. intros Hm.
  destruct (is_str cacheType "memory"); [by rewrite !andb_false_r|].
  destruct (is_str cacheType "session" && truthy req); [|done].
  by rewrite !andb_false_r.
Qed.

Lemma initCache_fields (config : loc) (w : world) (f : gmap string value)
    (k : string) :
  heap w !! config = Some (CObject f) ->
  (exists f2, heap (initCache'' config w).2 !! config = Some (CObject f2)) /\
  getField (initCache'' config w).2 config k
  = if decide ("cache" = k) then cacheField' w config else getField w config k.
Proof.
  intros Ho. unfold cacheField.
  destruct (truthy (getField w config "cache")) eqn:Hc.
  - rewrite initCache_leaves by auto. split; [by eexists|].
    case_decide; by subst.
  - destruct (madeCache'' (getField w config "cacheType")
                (getField w config "req")) as [c|] eqn:Hm.
    + rewrite (initCache_makes _ _ _ _ _ _ Ho Hc Hm). cbn [snd].
      pose proof (alloc_keeps w (CCache c) _ _ Ho) as Ho'.
      split; [eexists; by apply setField_keeps_object|].
      rewrite (getField_setField _ _ _ _ _ _ Ho').
      case_decide; [done|]. by rewrite (getField_alloc _ _ _ _ _ Ho).
    + rewrite initCache_leaves by auto. split; [by eexists|].
      case_decide; by subst.
Qed.

(** The fields of the config once it is resolved. *)
Lemma preProcess_fields (this config : loc) (w : world)
    (f : gmap string value) (v : value) (k : string) :
  heap w !! config = Some (CObject f) ->
  (preProcess' this config w).1 = Returns v ->
  getField (preProcess' this config w).2 config k
  = if decide ("uncache" = k) then
      (if truthy (getField w config "uncache") then getField w config "uncache"
       else if truthy (cacheField' w config) then VFun (FUncache config)
            else VFun FUncacheDummy)
    else if decide ("cache" = k) then cacheField' w config
    else if decide ("api" = k) then
      (if truthy (getField w config "api") then getField w config "api"
       else VRef this)
    else getField w config k.
Proof.
  intros Ho Hret.
  assert (forall k', "api" ≠ k' ->
            getField (withApi this config w) config k' = getField w config k')
    as Hsame.
  { intros k' Hk'. rewrite (withApi_fields _ _ _ _ _ Ho). by case_decide. }
  assert (cacheField' (withApi this config w) config = cacheField' w config)
    as Hcf.
  { unfold cacheField. rewrite !Hsame by done. by rewrite withApi_dom. }
  destruct (withApi_object this config w f Ho) as [f1 Hf1].
  rewrite preProcess_unfold in *.
  destruct (initCache_fields config _ f1 "uncache" Hf1) as [[f2 Hf2] Hu].
  pose proof (fun k' => proj2 (initCache_fields config _ f1 k' Hf1)) as Hk.
  destruct (initCache'' config (withApi this config w)) as [[e|] w2];
    [discriminate|]. cbn [fst snd] in *.
  rewrite (initUncache_fields _ _ _ _ Hf2), !Hk, Hcf.
  repeat case_decide; subst; try done.
  - by rewrite !Hsame by done.
  - by rewrite (withApi_fields _ _ _ _ _ Ho).
  - by rewrite (withApi_fields _ _ _ _ _ Ho), decide_False by done.
Qed.

End preProcess_fields.

Lemma setField_dom (w : world) (o : loc) (k : string) (v : value) :
  dom (heap (setField w o k v)) = dom (heap w).
Proof.
  unfold setField. destruct (heap w !! o) as [[f|c]|] eqn:Ho; try done. simpl.
  rewrite dom_insert_L.
  apply subseteq_union_1_L, singleton_subseteq_l. by eapply elem_of_dom_2.
Qed.

Lemma initUncache_other (config l : loc) (w : world) :
  config ≠ l -> heap (EndpointCategory.initUncache config w) !! l = heap w !! l.
Proof.
  intros Hne. unfold EndpointCategory.initUncache.
  destruct (negb _); [|done].
  destruct (truthy _); by apply setField_other.
Qed.

Lemma initUncache_dom (config : loc) (w : world) :
  dom (heap (EndpointCategory.initUncache config w)) = dom (heap w).
Proof.
  unfold EndpointCategory.initUncache. destruct (negb _); [|done].
  destruct (truthy _); by apply setField_dom.
Qed.

Lemma truthy_madeCache (ms ss : bool) (cacheType req : value) :
  truthy cacheType = false -> madeCache ms ss cacheType req = None.
Proof.
  intros Ht. unfold madeCache.
  destruct cacheType; try done. simpl in *.
  destruct (String.eqb_spec s ""); [subst; done|discriminate].
Qed.

Lemma preProcess_resolved (ms ss : bool) (this config : loc) (w : world)
    (f : gmap string value) (v : value) :
  heap w !! config = Some (CObject f) ->
  (EndpointCategory._preProcessParams ms ss this config w).1 = Returns v ->
  resolved config (EndpointCategory._preProcessParams ms ss this config w).2.
Proof.
  intros Ho Hret.
  pose proof (fun k => preProcess_fields ms ss this config w f v k Ho Hret)
    as Hk.
  destruct (proj2 (proj2 (preProcessParams_fills ms ss this config w f Ho)) f Ho)
    as (f' & Hf' & _).
  pose proof (preProcessParams_result ms ss this config w) as Hres.
  rewrite Hret in Hres.
  split; [by eexists|]. rewrite !Hk. simpl. split; [|split].
  - by destruct (truthy (getField w config "api")) eqn:Ha.
  - destruct (truthy (getField w config "uncache")) eqn:Hu; [done|].
    by destruct (truthy (cacheField ms ss w config)).
  - unfold cacheField.
    destruct (truthy (getField w config "cache")) eqn:Hc0; [by left|].
    destruct (madeCache ms ss (getField w config "cacheType")
                (getField w config "req")) as [c|] eqn:Hm; [by left|].
    right. rewrite <- (madeCache_invalid ms ss _ _ _ Hc0 Hm).
    destruct (cacheInvalid _ _ _); [discriminate|done].
Qed.

Lemma resolved_preProcess (ms ss : bool) (this config : loc) (w : world) :
  resolved config w ->
  EndpointCategory._preProcessParams ms ss this config w
  = (Returns (VRef config), w).
Proof.
  intros (_ & Hapi & Hunc & Hc).
  rewrite preProcess_unfold.
  assert (withApi this config w = w) as ->.
  { unfold withApi. by rewrite Hapi. }
  pose proof (initCache_error ms ss config w) as He.
  pose proof (initCache_leaves ms ss config w) as Hl.
  destruct (EndpointCategory.initCache ms ss config w) as [oe w2].
  cbn [fst snd] in *.
  rewrite Hl by (destruct Hc; eauto using truthy_madeCache).
  assert (oe = None) as ->.
  { rewrite He. unfold cacheInvalid.
    destruct Hc as [->| ->]; [done|by rewrite andb_false_r]. }
  by rewrite initUncache_same.
Qed.

(** The cache that the cache initialisation makes sits at the first free
    location of the heap. *)
Lemma preProcess_new_cache (ms ss : bool) (this config : loc) (w : world)
    (f : gmap string value) (c : Cache.t) :
  heap w !! config = Some (CObject f) ->
  truthy (getField w config "cache") = false ->
  madeCache ms ss (getField w config "cacheType") (getField w config "req")
  = Some c ->
  heap (EndpointCategory._preProcessParams ms ss this config w).2
    !! fresh (dom (heap w))
  = Some (CCache c).
Proof.
  intros Ho Hc Hm.
  assert (heap w !! fresh (dom (heap w)) = None) as Hfresh.
  { apply not_elem_of_dom, is_fresh. }
  rewrite preProcess_unfold.
  destruct (withApi_object this config w f Ho) as [f1 Hf1].
  assert (getField (withApi this config w) config "cache"
          = getField w config "cache") as Hc1.
  { rewrite (withApi_fields _ _ _ _ _ Ho). by case_decide. }
  assert (madeCache ms ss (getField (withApi this config w) config "cacheType")
            (getField (withApi this config w) config "req") = Some c) as Hm1.
  { rewrite !(withApi_fields _ _ _ _ _ Ho). by repeat case_decide. }
  rewrite (initCache_makes ms ss _ _ _ _ Hf1 ltac:(by rewrite Hc1) Hm1).
  cbn [snd].
  assert (config ≠ fresh (dom (heap w))) as Hne.
  { intros Heq. rewrite <- Heq in Hfresh. congruence. }
  rewrite initUncache_other, setField_other; simpl;
    rewrite ?withApi_dom; try done.
  by rewrite lookup_insert_eq.
Qed.

(** Without a cache to make, the resolution makes no object. *)
Lemma preProcess_no_cache_made (ms ss : bool) (this config : loc) (w : world)
    (f : gmap string value) :
  heap w !! config = Some (CObject f) ->
  truthy (getField w config "cache") = true
  \/ madeCache ms ss (getField w config "cacheType") (getField w config "req")
     = None ->
  dom (heap (EndpointCategory._preProcessParams ms ss this config w).2)
  = dom (heap w).
Proof.
  intros Ho Hno. rewrite preProcess_unfold.
  assert ((EndpointCategory.initCache ms ss config (withApi this config w)).2
          = withApi this config w) as Hsame.
  { apply initCache_leaves.
    rewrite !(withApi_fields _ _ _ _ _ Ho). by repeat case_decide. }
  destruct (EndpointCategory.initCache ms ss config (withApi this config w))
    as [[e|] w2]; cbn [fst snd] in *; subst w2;
    rewrite ?initUncache_dom; apply withApi_dom.
Qed.

(** When the cache fields are invalid, the resolution throws after it has
    looked at the api field, and before it does anything else. *)
Lemma preProcess_invalid (ms ss : bool) (this config : loc) (w : world)
    (f : gmap string value) :
  heap w !! config = Some (CObject f) ->
  cacheInvalid (getField w config "cache") (getField w config "cacheType")
    (getField w config "req") = true ->
  EndpointCategory._preProcessParams ms ss this config w
  = (Throws (CACCLError EndpointCategory.invalidCacheMessage invalid_cache),
     withApi this config w).
Proof.
  intros Ho Hinv. rewrite preProcess_unfold.
  assert (forall k, "api" ≠ k ->
            getField (withApi this config w) config k = getField w config k)
    as Hsame.
  { intros k Hk. rewrite (withApi_fields _ _ _ _ _ Ho). by case_decide. }
  pose proof (initCache_error ms ss config (withApi this config w)) as Herr.
  rewrite !Hsame, Hinv in Herr by done.
  assert ((EndpointCategory.initCache ms ss config (withApi this config w)).2
          = withApi this config w) as Hw.
  { apply initCache_leaves. right. rewrite !Hsame by done.
    unfold cacheInvalid in Hinv. unfold madeCache.
    destruct (is_str (getField w config "cacheType") "memory");
      [by rewrite !andb_false_r in Hinv|].
    destruct (is_str (getField w config "cacheType") "session"
              && truthy (getField w config "req"));
      [by rewrite !andb_false_r in Hinv|done]. }
  destruct (EndpointCategory.initCache ms ss config (withApi this config w))
    as [[e|] w2]; cbn [fst snd] in *; [|discriminate].
  by injection Herr as ->; subst w2.
Qed.

(** C8: the claim as it is written fails.  The caller's config asks for a
    memory cache; after the resolution the caller's own object holds an
    [api], a [cache] and an [uncache] field that it did not hold
    before. *)
Lemma pure_resolution_claim_counterexample : ~ pure_resolution_claim.
Proof.
  intros H.
  specialize (H true false 2 0 memoryWorld memoryConfig eq_refl).
  vm_compute in H. discriminate H.
Qed.

(** C8: [_preProcessParams] changes the caller's config object in place
    and returns that same object, not a new one.  Only the fields [api],
    [cache] and [uncache] change, and only where the caller left them out
    (falsy).  A missing [api] becomes the instance itself, also when the
    resolution throws afterwards, and nothing else has changed then.
    When the resolution returns: a missing [uncache] is the function that
    works on this config when the config has a cache by then, and the one
    that does nothing otherwise; a missing [cache] stays as it was, and no
    object is made, when the cache type is falsy; for the cache type
    memory, or session with a session handle, it is a reference to a new
    cache of that kind, at a location that held nothing before.  Every
    other field, every other object of the heap and the requests sent
    stay as they were. *)
Theorem preProcessParams_in_place (ms ss : bool) (this config : loc)
    (w : world) (f : gmap string value) :
  heap w !! config = Some (CObject f) ->
  exists f',
    heap (EndpointCategory._preProcessParams ms ss this config w).2 !! config
    = Some (CObject f') /\
    keeps f f' /\
    (truthy (default VUndefined (f !! "api")) = false ->
     f' !! "api" = Some (VRef this)) /\
    (forall v, (EndpointCategory._preProcessParams ms ss this config w).1
               = Returns v -> v = VRef config) /\
    calls (EndpointCategory._preProcessParams ms ss this config w).2 = calls w /\
    (forall l, l ≠ config -> is_Some (heap w !! l) ->
               heap (EndpointCategory._preProcessParams ms ss this config w).2 !! l
               = heap w !! l) /\
    (forall v, (EndpointCategory._preProcessParams ms ss this config w).1
               = Returns v ->
       default VUndefined (f' !! "uncache")
       = if truthy (default VUndefined (f !! "uncache"))
         then default VUndefined (f !! "uncache")
         else if truthy (default VUndefined (f' !! "cache"))
              then VFun (FUncache config) else VFun FUncacheDummy) /\
    (truthy (default VUndefined (f !! "cache")) = true
     \/ madeCache ms ss (default VUndefined (f !! "cacheType"))
          (default VUndefined (f !! "req")) = None ->
     default VUndefined (f' !! "cache") = default VUndefined (f !! "cache") /\
     dom (heap (EndpointCategory._preProcessParams ms ss this config w).2)
     = dom (heap w)) /\
    (forall c,
       truthy (default VUndefined (f !! "cache")) = false ->
       madeCache ms ss (default VUndefined (f !! "cacheType"))
         (default VUndefined (f !! "req")) = Some c ->
       exists l c',
         heap w !! l = None /\
         f' !! "cache" = Some (VRef l) /\
         heap (EndpointCategory._preProcessParams ms ss this config w).2 !! l
         = Some (CCache c') /\
         Cache.storePromises c' = Cache.storePromises c /\
         Cache.session c' = Cache.session c) /\
    (forall e, (EndpointCategory._preProcessParams ms ss this config w).1
               = Throws e ->
       forall k, k ≠ "api" ->
         default VUndefined (f' !! k) = default VUndefined (f !! k)).
Proof.
  intros Ho.
  destruct (preProcessParams_fills ms ss this config w f Ho)
    as (Hcalls & Hothers & Hcfg).
  destruct (Hcfg f Ho) as (f' & Hf' & Hkeeps).
  pose proof (fun k => getField_object _ _ _ k Ho) as Hw.
  pose proof (fun k => getField_object _ _ _ k Hf') as Hw'.
  exists f'. rewrite <- !Hw, <- !Hw'.
  split; [done|]. split; [done|]. split; [|split; [|split; [done|split; [done|]]]].
  - intros Ha.
    pose proof (withApi_sets this config w f Ho Ha) as Hset.
    destruct (proj2 (proj2 (withApi_fills this config w)) f Ho)
      as (f1 & Hf1 & _).
    rewrite (getField_object _ _ _ _ Hf1) in Hset.
    destruct (proj2 (proj2 (preProcessParams_after_api ms ss this config w f Ho))
                f1 Hf1) as (f2 & Hf2 & Hk2).
    rewrite Hf' in Hf2. injection Hf2 as <-.
    rewrite (Hk2 "api"); [|right; by rewrite Hset].
    destruct (f1 !! "api"); simpl in Hset; congruence.
  - intros v Hv. rewrite preProcessParams_result in Hv.
    destruct (cacheInvalid _ _ _); congruence.
  - split; [|split; [|split]].
    + intros v Hret.
      rewrite !(preProcess_fields ms ss this config w f v _ Ho Hret).
      by repeat case_decide.
    + intros Hno. split; [|by eapply preProcess_no_cache_made].
      destruct (EndpointCategory._preProcessParams ms ss this config w).1
        as [v|e] eqn:Hret.
      * rewrite (preProcess_fields ms ss this config w f v _ Ho Hret).
        repeat case_decide; try done. unfold cacheField.
        destruct Hno as [->| ->]; [done|].
        by destruct (truthy (getField w config "cache")).
      * rewrite preProcessParams_result in Hret.
        destruct (cacheInvalid _ _ _) eqn:Hinv; [|discriminate].
        rewrite (preProcess_invalid ms ss this config w f Ho Hinv). cbn [snd].
        rewrite (withApi_fields _ _ _ _ _ Ho). by case_decide.
    + intros c Hc Hm.
      assert ((EndpointCategory._preProcessParams ms ss this config w).1
              = Returns (VRef config)) as Hret.
      { rewrite preProcessParams_result.
        by rewrite (madeCache_valid ms ss _ _ _ _ Hm). }
      exists (fresh (dom (heap w))), c.
      split; [apply not_elem_of_dom, is_fresh|].
      split; [|split; [by eapply preProcess_new_cache|done]].
      pose proof (preProcess_fields ms ss this config w f _ "cache" Ho Hret)
        as Hk.
      rewrite Hw' in Hk. unfold cacheField in Hk. rewrite Hc, Hm in Hk.
      repeat case_decide; try done.
      destruct (f' !! "cache"); simpl in Hk; congruence.
    + intros e Hret k Hk. rewrite <- Hw, <- Hw'.
      rewrite preProcessParams_result in Hret.
      destruct (cacheInvalid _ _ _) eqn:Hinv; [|discriminate].
      rewrite (preProcess_invalid ms ss this config w f Ho Hinv). cbn [snd].
      rewrite (withApi_fields _ _ _ _ _ Ho). by case_decide.
Qed.

Lemma preProcessParams_in_place_witness :
  heap memoryWorld !! 0 = Some (CObject memoryConfig) /\
  memoryConfig !! "api" = None /\
  memoryConfig !! "cache" = None /\
  memoryConfig !! "uncache" = None /\
  (EndpointCategory._preProcessParams true false 2 0 memoryWorld).1
  = Returns (VRef 0) /\
  heap (EndpointCategory._preProcessParams true false 2 0 memoryWorld).2 !! 0
  = Some (CObject (<["api" := VRef 2]>
                     (<["cache" := VRef 1]>
                        (<["uncache" := VFun (FUncache 0)]> memoryConfig)))) /\
  exists f',
    heap (EndpointCategory._preProcessParams true false 2 0 memoryWorld).2 !! 0
    = Some (CObject f') /\
    keeps memoryConfig f' /\
    (truthy (default VUndefined (memoryConfig !! "api")) = false ->
     f' !! "api" = Some (VRef 2)) /\
    (forall v, (EndpointCategory._preProcessParams true false 2 0 memoryWorld).1
               = Returns v -> v = VRef 0) /\
    calls (EndpointCategory._preProcessParams true false 2 0 memoryWorld).2
    = calls memoryWorld /\
    (forall l, l ≠ 0 -> is_Some (heap memoryWorld !! l) ->
               heap (EndpointCategory._preProcessParams true false 2 0
                       memoryWorld).2 !! l
               = heap memoryWorld !! l) /\
    (forall v, (EndpointCategory._preProcessParams true false 2 0 memoryWorld).1
               = Returns v ->
       default VUndefined (f' !! "uncache")
       = if truthy (default VUndefined (memoryConfig !! "uncache"))
         then default VUndefined (memoryConfig !! "uncache")
         else if truthy (default VUndefined (f' !! "cache"))
              then VFun (FUncache 0) else VFun FUncacheDummy) /\
    (truthy (default VUndefined (memoryConfig !! "cache")) = true
     \/ madeCache true false (default VUndefined (memoryConfig !! "cacheType"))
          (default VUndefined (memoryConfig !! "req")) = None ->
     default VUndefined (f' !! "cache")
     = default VUndefined (memoryConfig !! "cache") /\
     dom (heap (EndpointCategory._preProcessParams true false 2 0 memoryWorld).2)
     = dom (heap memoryWorld)) /\
    (forall c,
       truthy (default VUndefined (memoryConfig !! "cache")) = false ->
       madeCache true false (default VUndefined (memoryConfig !! "cacheType"))
         (default VUndefined (memoryConfig !! "req")) = Some c ->
       exists l c',
         heap memoryWorld !! l = None /\
         f' !! "cache" = Some (VRef l) /\
         heap (EndpointCategory._preProcessParams true false 2 0 memoryWorld).2
           !! l
         = Some (CCache c') /\
         Cache.storePromises c' = Cache.storePromises c /\
         Cache.session c' = Cache.session c) /\
    (forall e, (EndpointCategory._preProcessParams true false 2 0 memoryWorld).1
               = Throws e ->
       forall k, k ≠ "api" ->
         default VUndefined (f' !! k) = default VUndefined (memoryConfig !! k)).
Proof.
  split; [reflexivity|]. split; [reflexivity|]. split; [reflexivity|].
  split; [reflexivity|]. split; [reflexivity|]. split; [vm_compute; reflexivity|].
  apply (preProcessParams_in_place true false 2 0 memoryWorld memoryConfig).
  reflexivity.
Defined.

(** X5: resolving a config that was resolved before changes nothing
    and returns the config, for whatever instance it is done.  This is
    what happens in the constructor of a sub-category, which is handed
    the config of its parent: the sub-category shares the parent's api,
    cache and uncache function. *)
Theorem preProcessParams_again (ms ss : bool) (this this' config : loc)
    (w : world) (f : gmap string value) (v : value) :
  heap w !! config = Some (CObject f) ->
  (EndpointCategory._preProcessParams ms ss this config w).1 = Returns v ->
  EndpointCategory._preProcessParams ms ss this' config
    (EndpointCategory._preProcessParams ms ss this config w).2
  = (Returns (VRef config),
     (EndpointCategory._preProcessParams ms ss this config w).2).
Proof.
  intros Ho Hret. apply resolved_preProcess.
  by eapply preProcess_resolved.
Qed.

Lemma preProcessParams_again_witness :
  heap memoryWorld !! 0 = Some (CObject memoryConfig) /\
  (EndpointCategory._preProcessParams true false 2 0 memoryWorld).1
  = Returns (VRef 0) /\
  EndpointCategory._preProcessParams true false 7 0
    (EndpointCategory._preProcessParams true false 2 0 memoryWorld).2
  = (Returns (VRef 0),
     (EndpointCategory._preProcessParams true false 2 0 memoryWorld).2).
Proof.
  split; [reflexivity|]. split; [reflexivity|].
  apply (preProcessParams_again true false 2 7 0 memoryWorld memoryConfig
           (VRef 0)); reflexivity.
Defined.

(** X6: when the resolution of a config without a cache returns, and the
    cache type is memory, or session with a session handle, the config's
    cache is a new cache of that kind, at a location that held nothing
    before: a memory cache is the one just made, with nothing in it, and a
    session cache is attached to the caller's session handle (what such a
    cache holds is not said).  When the caller gave no uncache function,
    the one installed is the one that works on this config. *)
Theorem made_cache_is_new (ms ss : bool) (this config : loc) (w : world)
    (f : gmap string value) (v : value) :
  heap w !! config = Some (CObject f) ->
  truthy (getField w config "cache") = false ->
  is_str (getField w config "cacheType") "memory"
  || is_str (getField w config "cacheType") "session"
     && truthy (getField w config "req") = true ->
  (EndpointCategory._preProcessParams ms ss this config w).1 = Returns v ->
  exists l c,
    heap w !! l = None /\
    getField (EndpointCategory._preProcessParams ms ss this config w).2
      config "cache" = VRef l /\
    heap (EndpointCategory._preProcessParams ms ss this config w).2 !! l
    = Some (CCache c) /\
    (if is_str (getField w config "cacheType") "memory"
     then c = Cache.MemoryCache ms
     else Cache.storePromises c = ss
          /\ Cache.session c = Some (getField w config "req")) /\
    (truthy (getField w config "uncache") = false ->
     getField (EndpointCategory._preProcessParams ms ss this config w).2
       config "uncache" = VFun (FUncache config)).
Proof.
  intros Ho Hc Hkind Hret.
  pose proof (fun k => preProcess_fields ms ss this config w f _ k Ho Hret)
    as Hk.
  assert (exists c,
            madeCache ms ss (getField w config "cacheType")
              (getField w config "req") = Some c /\
            if is_str (getField w config "cacheType") "memory"
            then c = Cache.MemoryCache ms
            else Cache.storePromises c = ss
                 /\ Cache.session c = Some (getField w config "req"))
    as (c & Hm & Hc').
  { unfold madeCache.
    destruct (is_str (getField w config "cacheType") "memory");
      [by eexists|].
    simpl in Hkind. rewrite Hkind. by eexists. }
  assert (cacheField ms ss w config = VRef (fresh (dom (heap w)))) as Hcf.
  { unfold cacheField. by rewrite Hc, Hm. }
  exists (fresh (dom (heap w))), c.
  split; [apply not_elem_of_dom, is_fresh|].
  split; [by rewrite Hk|].
  split; [by eapply preProcess_new_cache|].
  split; [done|].
  intros Hu. by rewrite Hk, Hu, Hcf.
Qed.

Lemma made_cache_is_new_witness :
  heap memoryWorld !! 0 = Some (CObject memoryConfig) /\
  truthy (getField memoryWorld 0 "cache") = false /\
  is_str (getField memoryWorld 0 "cacheType") "memory"
  || is_str (getField memoryWorld 0 "cacheType") "session"
     && truthy (getField memoryWorld 0 "req") = true /\
  (EndpointCategory._preProcessParams true false 2 0 memoryWorld).1
  = Returns (VRef 0) /\
  exists l c,
    heap memoryWorld !! l = None /\
    getField (EndpointCategory._preProcessParams true false 2 0 memoryWorld).2
      0 "cache" = VRef l /\
    heap (EndpointCategory._preProcessParams true false 2 0 memoryWorld).2 !! l
    = Some (CCache c) /\
    (if is_str (getField memoryWorld 0 "cacheType") "memory"
     then c = Cache.MemoryCache true
     else Cache.storePromises c = false
          /\ Cache.session c = Some (getField memoryWorld 0 "req")) /\
    (truthy (getField memoryWorld 0 "uncache") = false ->
     getField (EndpointCategory._preProcessParams true false 2 0 memoryWorld).2
       0 "uncache" = VFun (FUncache 0)).
Proof.
  do 4 (split; [reflexivity|]).
  apply (made_cache_is_new true false 2 0 memoryWorld memoryConfig (VRef 0));
    reflexivity.
Defined.

(** X7: for a config with no cache, a falsy cache type and no uncache
    function, caching is turned off: the resolution succeeds, makes no
    object, leaves the cache field as it was, and installs the uncache
    function that does nothing. *)
Theorem caching_off (ms ss : bool) (this config : loc) (w : world)
    (f : gmap string value) :
  heap w !! config = Some (CObject f) ->
  truthy (getField w config "cache") = false ->
  truthy (getField w config "cacheType") = false ->
  truthy (getField w config "uncache") = false ->
  (EndpointCategory._preProcessParams ms ss this config w).1
  = Returns (VRef config) /\
  dom (heap (EndpointCategory._preProcessParams ms ss this config w).2)
  = dom (heap w) /\
  getField (EndpointCategory._preProcessParams ms ss this config w).2
    config "cache" = getField w config "cache" /\
  getField (EndpointCategory._preProcessParams ms ss this config w).2
    config "uncache" = VFun FUncacheDummy /\
  (forall paths response w',
     EndpointCategory.uncacheDummy paths response w'
     = (Returns (Promise_resolve response), w')).
Proof.
  intros Ho Hc Hct Hu.
  pose proof (truthy_madeCache ms ss _ (getField w config "req") Hct) as Hm.
  assert ((EndpointCategory._preProcessParams ms ss this config w).1
          = Returns (VRef config)) as Hret.
  { rewrite preProcessParams_result.
    by rewrite (madeCache_invalid ms ss _ _ _ Hc Hm), Hct. }
  pose proof (fun k => preProcess_fields ms ss this config w f _ k Ho Hret)
    as Hk.
  assert (cacheField ms ss w config = getField w config "cache") as Hcf.
  { unfold cacheField. by rewrite Hc, Hm. }
  split; [done|]. split; [|split; [|split]].
  - rewrite preProcess_unfold.
    pose proof (initCache_leaves ms ss config (withApi this config w)) as Hl.
    destruct (EndpointCategory.initCache ms ss config (withApi this config w))
      as [[e|] w2]; cbn [snd] in *.
    + rewrite preProcess_unfold in Hret.
      destruct (EndpointCategory.initCache _ _ _ _) as [[e'|] w3] in Hret;
        discriminate || idtac.
      rewrite Hl; [apply withApi_dom|]. right.
      rewrite !(withApi_fields _ _ _ _ _ Ho). by repeat case_decide.
    + rewrite initUncache_dom, Hl; [apply withApi_dom|]. right.
      rewrite !(withApi_fields _ _ _ _ _ Ho). by repeat case_decide.
  - by rewrite Hk, Hcf.
  - by rewrite Hk, Hu, Hcf, Hc.
  - done.
Qed.

Lemma caching_off_witness :
  heap noCacheWorld !! 0 = Some (CObject noCacheConfig) /\
  truthy (getField noCacheWorld 0 "cache") = false /\
  truthy (getField noCacheWorld 0 "cacheType") = false /\
  truthy (getField noCacheWorld 0 "uncache") = false /\
  (EndpointCategory._preProcessParams true false 2 0 noCacheWorld).1
  = Returns (VRef 0) /\
  dom (heap (EndpointCategory._preProcessParams true false 2 0 noCacheWorld).2)
  = dom (heap noCacheWorld) /\
  getField (EndpointCategory._preProcessParams true false 2 0 noCacheWorld).2
    0 "cache" = getField noCacheWorld 0 "cache" /\
  getField (EndpointCategory._preProcessParams true false 2 0 noCacheWorld).2
    0 "uncache" = VFun FUncacheDummy /\
  (forall paths response w',
     EndpointCategory.uncacheDummy paths response w'
     = (Returns (Promise_resolve response), w')).
Proof.
  do 4 (split; [reflexivity|]).
  apply (caching_off true false 2 0 noCacheWorld noCacheConfig); reflexivity.
Defined.

(** ** The constructor *)

Lemma member_induction (P : Constructor.member -> Prop) :
  (forall id action requiredParams,
     P (Constructor.CoreFunction id action requiredParams)) ->
  (forall Subclass, Forall (fun pm => P pm.2) Subclass ->
                    P (Constructor.SubCategory Subclass)) ->
  forall m, P m.
Proof.
  intros HC HS. fix IH 1. intros [Subclass|id action requiredParams].
  - apply HS. induction Subclass as [|[p m] rest IHrest]; constructor.
    + apply IH.
    + apply IHrest.
  - apply HC.
Qed.

Lemma grows_refl (w : world) : grows w w.
Proof. by repeat split. Qed.

Lemma grows_trans (w1 w2 w3 : world) : grows w1 w2 -> grows w2 w3 -> grows w1 w3.
Proof.
  intros (Hc1 & Hk1 & Hn1) (Hc2 & Hk2 & Hn2). split; [congruence|]. split.
  - intros l x Hl. by apply Hk2, Hk1.
  - intros l c Hl. by apply Hn1, Hn2.
Qed.

Lemma grows_alloc_object (w : world) (f : gmap string value) :
  grows w (alloc w (CObject f)).2.
Proof.
  split; [done|]. split.
  - intros l x Hl. by apply alloc_keeps.
  - intros l c Hl. simpl in Hl.
    destruct (decide (fresh (dom (heap w)) = l)) as [<-|Hne].
    + by rewrite lookup_insert_eq in Hl.
    + by rewrite lookup_insert_ne in Hl.
Qed.

Lemma grows_getField (w w' : world) (config : loc) (k : string) :
  grows w w' -> (exists f, heap w !! config = Some (CObject f)) ->
  getField w' config k = getField w config k.
Proof.
  intros (_ & Hk & _) [f Hf]. unfold getField. by rewrite (Hk _ _ Hf), Hf.
Qed.

Lemma grows_resolved (w w' : world) (config : loc) :
  grows w w' -> resolved config w -> resolved config w'.
Proof.
  intros Hg (Ho & Hr). split.
  - destruct Ho as [f Hf]. exists f. by apply Hg.
  - by rewrite !(grows_getField _ _ _ _ Hg Ho).
Qed.

Lemma grows_sharedBy (w w' : world) (config : loc)
    (e : Constructor.endpointConfig) :
  grows w w' -> (exists f, heap w !! config = Some (CObject f)) ->
  sharedBy w' config e -> sharedBy w config e.
Proof.
  intros Hg Ho. unfold sharedBy, Constructor.defaultsOf.
  by rewrite !(grows_getField _ _ _ _ Hg Ho).
Qed.

Lemma bind_sharedBy (prop : string) (id : nat) (action requiredParams : value)
    (config : loc) (w : world) :
  sharedBy w config (Constructor.bind prop id action requiredParams config w).
Proof.
  repeat split. simpl. unfold or_else.
  destruct (truthy action) eqn:Ha; [done|]. reflexivity.
Qed.

(** In a world where the config is resolved, the loop of the constructor
    cannot fail; it makes instance objects only, and binds every endpoint
    with what the config holds. *)
Lemma forEach_resolved
    (make : string -> Constructor.member -> world
            -> (Constructor.property + error) * world)
    (config : loc) (Subclass : list (string * Constructor.member)) :
  Forall (fun pm => forall prop w, resolved config w ->
            exists p w', make prop pm.2 w = (inl p, w') /\ grows w w' /\
                         Forall (sharedBy w config) (Constructor.endpointsOf p))
    Subclass ->
  forall w, resolved config w ->
    exists props w',
      Constructor.forEach make Subclass w = (inl props, w') /\ grows w w' /\
      Forall (sharedBy w config)
        (flat_map (fun np => Constructor.endpointsOf np.2) props).
Proof.
  induction 1 as [|[p m] rest Hm _ IHrest]; intros w Hres.
  - eexists [], w. split; [reflexivity|]. split; [apply grows_refl|].
    constructor.
  - destruct (Hm p w Hres) as (built & w' & Hb & Hg & Hs).
    pose proof (grows_resolved _ _ _ Hg Hres) as Hres'.
    destruct (IHrest w' Hres') as (more & w'' & Hmore & Hg' & Hs').
    exists ((p, built) :: more), w''. simpl in *. rewrite Hb, Hmore.
    split; [reflexivity|]. split; [by eapply grows_trans|].
    apply Forall_app. split; [done|].
    eapply Forall_impl; [exact Hs'|]. intros e He.
    eapply grows_sharedBy; [exact Hg|by destruct Hres|done].
Qed.

Lemma construct_resolved (ms ss : bool) (config : loc) (m : Constructor.member) :
  forall (prop : string) (w : world),
    resolved config w ->
    exists p w',
      Constructor.construct ms ss prop m config w = (inl p, w') /\
      grows w w' /\
      Forall (sharedBy w config) (Constructor.endpointsOf p).
Proof.
  induction m as [id action requiredParams|Subclass IH] using member_induction;
    intros prop w Hres.
  - eexists _, w. split; [reflexivity|]. split; [apply grows_refl|].
    constructor; [apply bind_sharedBy|constructor].
  - cbn [Constructor.construct].
    pose proof (grows_alloc_object w ∅) as Hg0.
    destruct (alloc w (CObject ∅)) as [this w0] eqn:Ha. cbn [snd] in Hg0.
    pose proof (grows_resolved _ _ _ Hg0 Hres) as Hres0.
    rewrite (resolved_preProcess ms ss this config w0 Hres0).
    destruct (forEach_resolved
                (fun p m' => Constructor.construct ms ss p m' config)
                config Subclass IH w0 Hres0)
      as (props & w2 & Hrun & Hg2 & Hs2).
    rewrite Hrun. exists (Constructor.InstanceOf this props), w2.
    split; [reflexivity|]. split; [by eapply grows_trans|].
    eapply Forall_impl; [exact Hs2|]. intros e He.
    eapply grows_sharedBy; [exact Hg0|by destruct Hres|done].
Qed.

Lemma grows_sharedBy_later (w w' : world) (config : loc)
    (e : Constructor.endpointConfig) :
  grows w w' -> (exists f, heap w !! config = Some (CObject f)) ->
  sharedBy w config e -> sharedBy w' config e.
Proof.
  intros Hg Ho. unfold sharedBy, Constructor.defaultsOf.
  by rewrite !(grows_getField _ _ _ _ Hg Ho).
Qed.

(** What [new Subclass(oldConfig)] does: the config is resolved for the
    new instance, and if this succeeds the loop runs in a world where the
    config is resolved. *)
Lemma new_runs (ms ss : bool) (Subclass : list (string * Constructor.member))
    (oldConfig : loc) (w : world) (f : gmap string value) :
  heap w !! oldConfig = Some (CObject f) ->
  let this := (alloc w (CObject ∅)).1 in
  let w1 := (EndpointCategory._preProcessParams ms ss this oldConfig
               (alloc w (CObject ∅)).2).2 in
  if cacheInvalid (getField w oldConfig "cache")
       (getField w oldConfig "cacheType") (getField w oldConfig "req")
  then Constructor.new ms ss Subclass oldConfig w
       = (inr (CACCLError EndpointCategory.invalidCacheMessage invalid_cache), w1)
  else exists props w',
         Constructor.new ms ss Subclass oldConfig w
         = (inl (Constructor.InstanceOf this props), w') /\
         resolved oldConfig w1 /\ grows w1 w' /\
         Forall (sharedBy w1 oldConfig)
           (Constructor.endpointsOf (Constructor.InstanceOf this props)).
Proof.
  intros Ho this w1. subst this w1.
  unfold Constructor.new. cbn [Constructor.construct].
  destruct (alloc w (CObject ∅)) as [this w0] eqn:Ha.
  assert (w0 = (alloc w (CObject ∅)).2) as Hw0 by (by rewrite Ha).
  assert (heap w0 !! oldConfig = Some (CObject f)) as Ho0.
  { rewrite Hw0. by apply alloc_keeps. }
  assert (forall k, getField w0 oldConfig k = getField w oldConfig k) as Hk.
  { intros k. rewrite Hw0. by eapply getField_alloc. }
  cbn [fst snd].
  pose proof (preProcessParams_result ms ss this oldConfig w0) as Hres.
  pose proof (preProcess_resolved ms ss this oldConfig w0 f) as Hresolved.
  rewrite !Hk in Hres.
  destruct (EndpointCategory._preProcessParams ms ss this oldConfig w0)
    as [r w1]. cbn [fst snd] in *.
  destruct (cacheInvalid _ _ _); subst r; [done|].
  specialize (Hresolved _ Ho0 eq_refl).
  destruct (forEach_resolved
              (fun p m' => Constructor.construct ms ss p m' oldConfig)
              oldConfig Subclass) with (w := w1)
    as (props & w' & Hrun & Hg & Hs); [|done|].
  { apply Forall_forall. intros pm _ prop w2. apply construct_resolved. }
  rewrite Hrun. by exists props, w'.
Qed.

(** X8: when [new Subclass(oldConfig)] succeeds, every endpoint of the
    instance and of its sub-categories, at any depth, was bound with the
    cache, the uncache function, the api, the authenticity token and the
    defaults that the one config holds at the end, and has an action that
    is not empty; the config is resolved; and when the caller named no
    api, the api is the instance at the top, a new object. *)
Theorem constructor_shares_config (ms ss : bool)
    (Subclass : list (string * Constructor.member)) (oldConfig : loc)
    (w w' : world) (f : gmap string value) (p : Constructor.property) :
  heap w !! oldConfig = Some (CObject f) ->
  Constructor.new ms ss Subclass oldConfig w = (inl p, w') ->
  Forall (sharedBy w' oldConfig) (Constructor.endpointsOf p) /\
  resolved oldConfig w' /\
  exists this props,
    p = Constructor.InstanceOf this props /\
    heap w !! this = None /\
    (truthy (getField w oldConfig "api") = false ->
     getField w' oldConfig "api" = VRef this).
Proof.
  intros Ho Hnew.
  pose proof (new_runs ms ss Subclass oldConfig w f Ho) as Hrun.
  cbv zeta in Hrun.
  destruct (cacheInvalid _ _ _) eqn:Hinv; [congruence|].
  destruct Hrun as (props & w2 & Hrun & Hres & Hg & Hs).
  rewrite Hrun in Hnew. injection Hnew as <- <-.
  split; [|split].
  - eapply Forall_impl; [exact Hs|]. intros e He.
    eapply grows_sharedBy_later; [exact Hg|by destruct Hres|done].
  - by eapply grows_resolved.
  - exists (alloc w (CObject ∅)).1, props. split; [reflexivity|].
    split; [apply (alloc_fresh w (CObject ∅))|].
    intros Hapi. rewrite (grows_getField _ _ _ _ Hg) by (by destruct Hres).
    pose proof (alloc_keeps w (CObject ∅) _ _ Ho) as Ho0.
    assert ((EndpointCategory._preProcessParams ms ss (alloc w (CObject ∅)).1
               oldConfig (alloc w (CObject ∅)).2).1 = Returns (VRef oldConfig))
      as Hret.
    { rewrite preProcessParams_result.
      rewrite !(getField_alloc _ _ _ _ _ Ho). by rewrite Hinv. }
    rewrite (preProcess_fields ms ss _ _ _ _ _ "api" Ho0 Hret).
    repeat case_decide; try done.
    by rewrite (getField_alloc _ _ _ _ _ Ho), Hapi.
Qed.

(** X9: an invalid cache configuration stops [new Subclass(oldConfig)]
    at its first step, whatever the class is.  The constructor throws the
    invalid-cache error of [_preProcessParams] before it looks at any
    property of [Subclass], so the outcome is the same for every class.
    No request is sent and no other object changes, but the caller's
    config is not as it was: a missing [api] has been set to the instance
    whose construction failed.  Every other field of the config is as it
    was. *)
Theorem invalid_cache_stops_constructor (ms ss : bool)
    (Subclass : list (string * Constructor.member)) (oldConfig : loc)
    (w : world) (f : gmap string value) :
  heap w !! oldConfig = Some (CObject f) ->
  cacheInvalid (getField w oldConfig "cache") (getField w oldConfig "cacheType")
    (getField w oldConfig "req") = true ->
  exists this w',
    Constructor.new ms ss Subclass oldConfig w
    = (inr (CACCLError EndpointCategory.invalidCacheMessage invalid_cache), w') /\
    (forall Subclass',
       Constructor.new ms ss Subclass' oldConfig w
       = Constructor.new ms ss Subclass oldConfig w) /\
    heap w !! this = None /\
    getField w' oldConfig "api"
    = (if truthy (getField w oldConfig "api") then getField w oldConfig "api"
       else VRef this) /\
    (forall k, k ≠ "api" -> getField w' oldConfig k = getField w oldConfig k) /\
    calls w' = calls w /\
    (forall l, l ≠ oldConfig -> is_Some (heap w !! l) ->
               heap w' !! l = heap w !! l).
Proof.
  intros Ho Hinv.
  set (this := (alloc w (CObject ∅)).1).
  set (w0 := (alloc w (CObject ∅)).2).
  assert (heap w0 !! oldConfig = Some (CObject f)) as Ho0
    by (by apply alloc_keeps).
  assert (forall k, getField w0 oldConfig k = getField w oldConfig k) as Hk.
  { intros k. by eapply getField_alloc. }
  assert (forall Subclass',
            Constructor.new ms ss Subclass' oldConfig w
            = (inr (CACCLError EndpointCategory.invalidCacheMessage invalid_cache),
               withApi this oldConfig w0)) as Hnew.
  { intros Subclass'.
    pose proof (new_runs ms ss Subclass' oldConfig w f Ho) as Hrun.
    cbv zeta in Hrun. rewrite Hinv in Hrun. rewrite Hrun.
    rewrite (preProcess_invalid ms ss _ oldConfig _ f Ho0);
      [done|by rewrite !Hk]. }
  exists this, (withApi this oldConfig w0).
  split; [apply Hnew|]. split; [intros Subclass'; by rewrite !Hnew|].
  split; [apply alloc_fresh|].
  split; [rewrite (withApi_fields _ _ _ _ _ Ho0), !Hk; by case_decide|].
  split.
  { intros k Hne. rewrite (withApi_fields _ _ _ _ _ Ho0), Hk. by case_decide. }
  destruct (fills_trans oldConfig w w0 (withApi this oldConfig w0))
    as (Hcalls & Hothers & _);
    [apply fills_alloc|apply withApi_fills|].
  by split.
Qed.

Lemma constructor_shares_config_witness :
  heap memoryWorld !! 0 = Some (CObject memoryConfig) /\
  Constructor.new true false apiClass 0 memoryWorld = (inl apiInstance, apiBuilt.2) /\
  Forall (sharedBy apiBuilt.2 0) (Constructor.endpointsOf apiInstance) /\
  resolved 0 apiBuilt.2 /\
  exists this props,
    apiInstance = Constructor.InstanceOf this props /\
    heap memoryWorld !! this = None /\
    (truthy (getField memoryWorld 0 "api") = false ->
     getField apiBuilt.2 0 "api" = VRef this).
Proof.
  split; [reflexivity|]. split; [vm_compute; reflexivity|].
  apply (constructor_shares_config true false apiClass 0 memoryWorld apiBuilt.2
           memoryConfig apiInstance); [reflexivity|vm_compute; reflexivity].
Defined.

Lemma invalid_cache_stops_constructor_witness :
  heap redisWorld !! 0 = Some (CObject redisConfig) /\
  cacheInvalid (getField redisWorld 0 "cache") (getField redisWorld 0 "cacheType")
    (getField redisWorld 0 "req") = true /\
  exists this w',
    Constructor.new true false apiClass 0 redisWorld
    = (inr (CACCLError EndpointCategory.invalidCacheMessage invalid_cache), w') /\
    (forall Subclass',
       Constructor.new true false Subclass' 0 redisWorld
       = Constructor.new true false apiClass 0 redisWorld) /\
    heap redisWorld !! this = None /\
    getField w' 0 "api"
    = (if truthy (getField redisWorld 0 "api") then getField redisWorld 0 "api"
       else VRef this) /\
    (forall k, k ≠ "api" -> getField w' 0 k = getField redisWorld 0 k) /\
    calls w' = calls redisWorld /\
    (forall l, l ≠ 0 -> is_Some (heap redisWorld !! l) ->
               heap w' !! l = heap redisWorld !! l).
Proof.
  split; [reflexivity|]. split; [reflexivity|].
  apply (invalid_cache_stops_constructor true false apiClass 0 redisWorld
           redisConfig); reflexivity.
Defined.

(** ** More on wrapVisitEndpoint *)

(** X10: when the cache does not answer and the request fails, the
    request was sent once, with the access token of the config in its
    parameters, and its promise is rejected with the reason of the
    failure.  No config object and no cache has changed: the heap, which
    holds these and nothing else, is as it was, so nothing was cached and
    nothing was uncached.  The options object of the caller is no object
    of this heap; it is changed as on every miss, into the request that
    was sent. *)
Theorem rejected_request_caches_nothing (cfg : Wrap.config) (options : request)
    (w : world) (v reason : value) :
  Wrap.cachedValue cfg options w = Returns v ->
  truthy v = false ->
  Wrap.visitEndpoint cfg (Wrap.addAccessToken cfg options) (calls w)
  = Rejects reason ->
  (Wrap.valuePromise cfg (Wrap.addAccessToken cfg options) w).1
  = VPromise rejected reason /\
  heap (Wrap.wrapVisitEndpoint cfg options w).2 = heap w /\
  cacheAt (Wrap.wrapVisitEndpoint cfg options w).2 (Wrap.cache cfg)
  = cacheAt w (Wrap.cache cfg) /\
  calls (Wrap.wrapVisitEndpoint cfg options w).2
  = (calls w ++ [Wrap.addAccessToken cfg options])%list /\
  default ∅ (params (Wrap.addAccessToken cfg options)) !! "access_token"
  = Some (Wrap.accessToken cfg).
Proof.
  intros Hc Hv Hrej. rewrite (wrapVisitEndpoint_miss _ _ _ _ Hc Hv).
  cbn [snd]. unfold Wrap.valuePromise. rewrite Hrej. cbn [fst snd].
  repeat split. simpl. apply lookup_insert_eq.
Qed.

Lemma rejected_request_caches_nothing_witness :
  Wrap.cachedValue failingConfig listRequest groupSetsWorld
  = Returns VUndefined /\
  truthy VUndefined = false /\
  Wrap.visitEndpoint failingConfig
    (Wrap.addAccessToken failingConfig listRequest) (calls groupSetsWorld)
  = Rejects (VStr "ECONNRESET") /\
  (Wrap.valuePromise failingConfig
     (Wrap.addAccessToken failingConfig listRequest) groupSetsWorld).1
  = VPromise rejected (VStr "ECONNRESET") /\
  heap (Wrap.wrapVisitEndpoint failingConfig listRequest groupSetsWorld).2
  = heap groupSetsWorld /\
  cacheAt (Wrap.wrapVisitEndpoint failingConfig listRequest groupSetsWorld).2
    (Wrap.cache failingConfig)
  = cacheAt groupSetsWorld (Wrap.cache failingConfig) /\
  calls (Wrap.wrapVisitEndpoint failingConfig listRequest groupSetsWorld).2
  = (calls groupSetsWorld
     ++ [Wrap.addAccessToken failingConfig listRequest])%list /\
  default ∅ (params (Wrap.addAccessToken failingConfig listRequest))
    !! "access_token"
  = Some (Wrap.accessToken failingConfig).
Proof.
  do 3 (split; [reflexivity|]).
  apply (rejected_request_caches_nothing failingConfig listRequest
           groupSetsWorld VUndefined (VStr "ECONNRESET")); reflexivity.
Defined.

(** X11: the cache is asked by path alone.  When the cache holds a
    truthy value under the path of a request, the request is not sent,
    whatever its method and its parameters are: the call changes nothing
    and returns a promise of the cached value, also for a POST, a PUT or
    a DELETE. *)
Theorem cached_path_answers_any_method (cfg : Wrap.config) (options : request)
    (w : world) (l : loc) (c : Cache.t) (v : value) :
  cacheAt w (Wrap.cache cfg) = Some (l, c) ->
  Cache.store c !! path options = Some v ->
  truthy v = true ->
  Wrap.wrapVisitEndpoint cfg options w = (Returns (Promise_resolve v), w).
Proof.
  intros Hc Hk Hv. apply wrapVisitEndpoint_hit; [|done].
  rewrite (cachedValue_get _ _ _ _ _ Hc). unfold Cache.get. by rewrite Hk.
Qed.

Lemma cached_path_answers_any_method_witness :
  cacheAt groupSetsWorld (Wrap.cache listConfig) = Some (1, groupSetsCache) /\
  Cache.store groupSetsCache !! path createRequest
  = Some (VArr [VObj {[ "id" := VNum 3 ]}]) /\
  truthy (VArr [VObj {[ "id" := VNum 3 ]}]) = true /\
  method createRequest = VStr "POST" /\
  Wrap.wrapVisitEndpoint listConfig createRequest groupSetsWorld
  = (Returns (Promise_resolve (VArr [VObj {[ "id" := VNum 3 ]}])),
     groupSetsWorld).
Proof.
  do 4 (split; [reflexivity|]).
  apply (cached_path_answers_any_method listConfig createRequest groupSetsWorld
           1 groupSetsCache); reflexivity.
Defined.

(** X12: an endpoint that chains [.then] on [this.visitEndpoint], as
    [Other.endpoint] does, throws a type error when [visitEndpoint] is the
    wrapped function and the cache does not answer: the wrapped function
    has returned undefined.  The request is sent all the same, and the
    callback of the endpoint never runs. *)
Theorem chained_call_throws_on_miss (cfg : Wrap.config) (self : Endpoint.this)
    (req : request) (cb : value -> world -> completion * world)
    (w : world) (v : value) :
  Endpoint.visitEndpoint self = Wrap.wrapVisitEndpoint cfg ->
  Wrap.cachedValue cfg req w = Returns v ->
  truthy v = false ->
  Endpoint.visitThen self req cb w
  = (Throws TypeError, (Wrap.valuePromise cfg (Wrap.addAccessToken cfg req) w).2)
  /\ calls (Endpoint.visitThen self req cb w).2
     = (calls w ++ [Wrap.addAccessToken cfg req])%list
  /\ (forall options,
        otherRequest options = req ->
        (Other.endpoint self options w).1 = Throws TypeError).
Proof.
  intros Hself Hc Hv.
  assert (forall cb',
            Endpoint.visitThen self req cb' w
            = (Throws TypeError,
               (Wrap.valuePromise cfg (Wrap.addAccessToken cfg req) w).2))
    as Hthrow.
  { intros cb'. unfold Endpoint.visitThen.
    by rewrite Hself, (wrapVisitEndpoint_miss _ _ _ _ Hc Hv). }
  split; [apply Hthrow|]. split.
  - rewrite Hthrow. cbn [snd]. apply valuePromise_calls.
  - intros options <-. unfold Other.endpoint. fold (otherRequest options).
    by rewrite Hthrow.
Qed.

Lemma chained_call_throws_on_miss_witness :
  Endpoint.visitEndpoint wrappedThis = Wrap.wrapVisitEndpoint listConfig /\
  Wrap.cachedValue listConfig (otherRequest otherOptions) emptyCacheWorld
  = Returns VUndefined /\
  truthy VUndefined = false /\
  Endpoint.visitThen wrappedThis (otherRequest otherOptions)
    (fun response => Endpoint.uncache wrappedThis ["*"] response) emptyCacheWorld
  = (Throws TypeError,
     (Wrap.valuePromise listConfig
        (Wrap.addAccessToken listConfig (otherRequest otherOptions))
        emptyCacheWorld).2)
  /\ calls (Endpoint.visitThen wrappedThis (otherRequest otherOptions)
              (fun response => Endpoint.uncache wrappedThis ["*"] response)
              emptyCacheWorld).2
     = (calls emptyCacheWorld
        ++ [Wrap.addAccessToken listConfig (otherRequest otherOptions)])%list
  /\ (forall options,
        otherRequest options = otherRequest otherOptions ->
        (Other.endpoint wrappedThis options emptyCacheWorld).1 = Throws TypeError).
Proof.
  do 3 (split; [reflexivity|]).
  apply (chained_call_throws_on_miss listConfig wrappedThis
           (otherRequest otherOptions)
           (fun response => Endpoint.uncache wrappedThis ["*"] response)
           emptyCacheWorld VUndefined); reflexivity.
Defined.

(** ** More on Other.endpoint *)

(** X13: [Other.endpoint] runs the uncache function only when
    [visitEndpoint] returns a fulfilled promise.  In every other case (a
    rejected promise, an exception, a value that is no promise) the world
    is the one [visitEndpoint] left, so a failed call does not empty the
    cache; the call does not end as a fulfilled promise, and a rejected
    promise is handed on with its reason. *)
Theorem Other_endpoint_failure_keeps_cache (self : Endpoint.this)
    (options : request) (w w1 : world) (r : completion) :
  Endpoint.visitEndpoint self (otherRequest options) w = (r, w1) ->
  (forall v, r ≠ Returns (VPromise fulfilled v)) ->
  (Other.endpoint self options w).2 = w1 /\
  (forall v, (Other.endpoint self options w).1 ≠ Returns (VPromise fulfilled v)) /\
  (forall reason,
     r = Returns (VPromise rejected reason) ->
     (Other.endpoint self options w).1 = r).
Proof.
  intros Hv Hr. unfold Other.endpoint, Endpoint.visitThen.
  fold (otherRequest options). rewrite Hv.
  destruct r as [p|e]; [|by repeat split].
  destruct p as [| | | | | | | | | |[] v]; try by repeat split.
  by destruct (Hr v).
Qed.

Lemma Other_endpoint_failure_keeps_cache_witness :
  Endpoint.visitEndpoint failingThis (otherRequest otherOptions) groupSetsWorld
  = (Returns (VPromise rejected (VStr "ECONNRESET")), groupSetsWorld) /\
  (forall v, Returns (VPromise rejected (VStr "ECONNRESET"))
             ≠ Returns (VPromise fulfilled v)) /\
  (Other.endpoint failingThis otherOptions groupSetsWorld).2 = groupSetsWorld /\
  (forall v, (Other.endpoint failingThis otherOptions groupSetsWorld).1
             ≠ Returns (VPromise fulfilled v)) /\
  (forall reason,
     Returns (VPromise rejected (VStr "ECONNRESET"))
     = Returns (VPromise rejected reason) ->
     (Other.endpoint failingThis otherOptions groupSetsWorld).1
     = Returns (VPromise rejected (VStr "ECONNRESET"))).
Proof.
  split; [reflexivity|]. split; [discriminate|].
  apply (Other_endpoint_failure_keeps_cache failingThis otherOptions
           groupSetsWorld groupSetsWorld
           (Returns (VPromise rejected (VStr "ECONNRESET")))).
  - reflexivity.
  - discriminate.
Defined.

(** ** The group set endpoints *)

Lemma endsWithStar_app (a b : string) :
  b ≠ "" -> endsWithStar (a ++ b) = endsWithStar b.
Proof.
  intros Hb. induction a as [|c a IH]; [done|].
  change (endsWithStar (String c (a ++ b)) = endsWithStar b).
  destruct (a ++ b) as [|c' rest] eqn:Hab.
  - destruct a; simpl in Hab; [by destruct Hb|discriminate].
  - rewrite <- IH. reflexivity.
Qed.

Lemma append_nonempty (a b : string) : b ≠ "" -> a ++ b ≠ "".
Proof. intros Hb. destruct a; [exact Hb|discriminate]. Qed.

Ltac nonempty := repeat apply append_nonempty; discriminate.

Lemma append_not_self (a b : string) : b ≠ "" -> a ++ b ≠ a.
Proof.
  intros Hb. induction a as [|c a IH]; simpl; [exact Hb|].
  intros [= H]. by apply IH.
Qed.

Lemma endsWithStar_app_id (a id : string) :
  endsWithStar id = false -> endsWithStar (a ++ "/" ++ id) = false.
Proof.
  intros Hid. rewrite endsWithStar_app by discriminate.
  destruct id as [|c id]; [reflexivity|].
  by rewrite (endsWithStar_app "/" (String c id)).
Qed.

Lemma append_cancel (a x y : string) : a ++ x = a ++ y -> x = y.
Proof. induction a as [|c a IH]; simpl; [done|]. intros [= H]. by apply IH. Qed.

Lemma uncaches_literal (paths : list string) (k : string) :
  Forall (fun path => endsWithStar path = false) paths ->
  uncaches paths k = existsb (String.eqb k) paths.
Proof.
  induction 1 as [|path paths Hpath _ IH]; [done|].
  unfold uncaches in *. simpl. by rewrite Hpath, IH.
Qed.

(** What an endpoint that uncaches after a successful request does, when
    its uncache function is the one of the config. *)
Lemma visitThen_uncache (self : Endpoint.this) (config : loc) (req : request)
    (paths : list string) (w w1 : world) (response : value)
    (l : loc) (c : Cache.t) :
  Endpoint.uncache self = EndpointCategory.uncache config ->
  Endpoint.visitEndpoint self req w = (Returns (VPromise fulfilled response), w1) ->
  cacheAt w1 (getField w1 config "cache") = Some (l, c) ->
  Endpoint.visitThen self req
    (fun response => Endpoint.uncache self paths response) w
  = (Returns (Promise_resolve response), setCache w1 l (swept c paths)).
Proof.
  intros Hu Hv Hc. unfold Endpoint.visitThen. rewrite Hv. unfold then_.
  rewrite Hu, (uncache_swept _ _ _ _ _ _ Hc). by rewrite Promise_resolve_idemp.
Qed.

(** X14: when [GroupSet.delete] succeeds, with the uncache function of a
    config that has a cache, exactly one path is uncached: the list of
    the group sets of the course.  Every other cached path keeps its
    value; among them is the path of the deleted group set itself. *)
Theorem GroupSet_delete_uncaches_the_list (v1 : string) (self : Endpoint.this)
    (config : loc) (options : gmap string value) (w w1 : world)
    (response : value) (l : loc) (c : Cache.t) :
  Endpoint.uncache self = EndpointCategory.uncache config ->
  Endpoint.visitEndpoint self
    {| path := v1 ++ "/group_categories/"
               ++ toString (GroupSet.option_ options "groupSetId");
       method := VStr "DELETE"; params := None |} w
  = (Returns (VPromise fulfilled response), w1) ->
  cacheAt w1 (getField w1 config "cache") = Some (l, c) ->
  exists c',
    GroupSet.delete v1 self options w
    = (Returns (Promise_resolve response), setCache w1 l c') /\
    (forall k,
       Cache.store c' !! k
       = if String.eqb k (v1 ++ "/courses/"
                          ++ toString (GroupSet.option_ options "courseId")
                          ++ "/group_categories")
         then None else Cache.store c !! k) /\
    Cache.store c' !! (v1 ++ "/group_categories/"
                       ++ toString (GroupSet.option_ options "groupSetId"))
    = Cache.store c !! (v1 ++ "/group_categories/"
                        ++ toString (GroupSet.option_ options "groupSetId")).
Proof.
  intros Hu Hv Hc. eexists. split.
  - unfold GroupSet.delete. by apply (visitThen_uncache _ _ _ _ _ _ _ _ _ Hu Hv Hc).
  - assert (forall k,
              Cache.store
                (swept c [v1 ++ "/courses/"
                          ++ toString (GroupSet.option_ options "courseId")
                          ++ "/group_categories"]) !! k
              = if String.eqb k (v1 ++ "/courses/"
                                 ++ toString (GroupSet.option_ options "courseId")
                                 ++ "/group_categories")
                then None else Cache.store c !! k) as Hk.
    { intros k. rewrite swept_lookup, uncaches_literal.
      - simpl. by rewrite orb_false_r.
      - constructor; [|constructor].
        rewrite !endsWithStar_app; [reflexivity|nonempty..]. }
    split; [exact Hk|]. rewrite Hk.
    destruct (String.eqb_spec
                (v1 ++ "/group_categories/"
                 ++ toString (GroupSet.option_ options "groupSetId"))
                (v1 ++ "/courses/"
                 ++ toString (GroupSet.option_ options "courseId")
                 ++ "/group_categories")) as [Heq|]; [|done].
    apply append_cancel in Heq. discriminate Heq.
Qed.

Lemma GroupSet_delete_uncaches_the_list_witness :
  Endpoint.uncache deletingThis = EndpointCategory.uncache 0 /\
  Endpoint.visitEndpoint deletingThis
    {| path := "/api/v1" ++ "/group_categories/"
               ++ toString (GroupSet.option_ groupSetOptions "groupSetId");
       method := VStr "DELETE"; params := None |} groupSetsWorld
  = (Returns (VPromise fulfilled (VObj {[ "id" := VNum 3 ]})), groupSetsWorld) /\
  cacheAt groupSetsWorld (getField groupSetsWorld 0 "cache")
  = Some (1, groupSetsCache) /\
  exists c',
    GroupSet.delete "/api/v1" deletingThis groupSetOptions groupSetsWorld
    = (Returns (Promise_resolve (VObj {[ "id" := VNum 3 ]})),
       setCache groupSetsWorld 1 c') /\
    (forall k,
       Cache.store c' !! k
       = if String.eqb k ("/api/v1" ++ "/courses/"
                          ++ toString (GroupSet.option_ groupSetOptions "courseId")
                          ++ "/group_categories")
         then None else Cache.store groupSetsCache !! k) /\
    Cache.store c' !! ("/api/v1" ++ "/group_categories/"
                       ++ toString (GroupSet.option_ groupSetOptions "groupSetId"))
    = Cache.store groupSetsCache
        !! ("/api/v1" ++ "/group_categories/"
            ++ toString (GroupSet.option_ groupSetOptions "groupSetId")).
Proof.
  do 3 (split; [reflexivity|]).
  apply (GroupSet_delete_uncaches_the_list "/api/v1" deletingThis 0
           groupSetOptions groupSetsWorld groupSetsWorld
           (VObj {[ "id" := VNum 3 ]}) 1 groupSetsCache); reflexivity.
Defined.

(** X15: when [GroupSet.createGroup] succeeds, with the uncache function
    of a config that has a cache and a group set id whose text does not
    end with a star, exactly two paths are uncached: the list of the
    group sets of the course and the group set.  Every other cached path
    keeps its value; among them is the list of the groups of the group
    set, the path the new group was posted to. *)
Theorem GroupSet_createGroup_uncaches_two (v1 : string)
    (isTruthy : value -> value) (self : Endpoint.this)
    (config : loc) (options : gmap string value) (w w1 : world)
    (response : value) (l : loc) (c : Cache.t) :
  endsWithStar (toString (GroupSet.option_ options "groupSetId")) = false ->
  Endpoint.uncache self = EndpointCategory.uncache config ->
  Endpoint.visitEndpoint self
    {| path := v1 ++ "/group_categories/"
               ++ toString (GroupSet.option_ options "groupSetId") ++ "/groups";
       method := VStr "POST";
       params :=
         Some {[ "name" := or_else (GroupSet.option_ options "name")
                             (VStr "Unnamed Group");
                 "description" := or_else (GroupSet.option_ options "description")
                                    (VStr "");
                 "is_public" := isTruthy (GroupSet.option_ options "isPublic") ]} |}
    w
  = (Returns (VPromise fulfilled response), w1) ->
  cacheAt w1 (getField w1 config "cache") = Some (l, c) ->
  exists c',
    GroupSet.createGroup v1 isTruthy self options w
    = (Returns (Promise_resolve response), setCache w1 l c') /\
    (forall k,
       Cache.store c' !! k
       = if String.eqb k (v1 ++ "/courses/"
                          ++ toString (GroupSet.option_ options "courseId")
                          ++ "/group_categories")
            || String.eqb k (v1 ++ "/group_categories/"
                             ++ toString (GroupSet.option_ options "groupSetId"))
         then None else Cache.store c !! k) /\
    Cache.store c' !! (v1 ++ "/group_categories/"
                       ++ toString (GroupSet.option_ options "groupSetId")
                       ++ "/groups")
    = Cache.store c !! (v1 ++ "/group_categories/"
                        ++ toString (GroupSet.option_ options "groupSetId")
                        ++ "/groups").
Proof.
  intros Hid Hu Hv Hc. eexists. split.
  - unfold GroupSet.createGroup.
    by apply (visitThen_uncache _ _ _ _ _ _ _ _ _ Hu Hv Hc).
  - assert (forall k,
              Cache.store
                (swept c [v1 ++ "/courses/"
                          ++ toString (GroupSet.option_ options "courseId")
                          ++ "/group_categories";
                          v1 ++ "/group_categories/"
                          ++ toString (GroupSet.option_ options "groupSetId")]) !! k
              = if String.eqb k (v1 ++ "/courses/"
                                 ++ toString (GroupSet.option_ options "courseId")
                                 ++ "/group_categories")
                   || String.eqb k (v1 ++ "/group_categories/"
                                    ++ toString (GroupSet.option_ options "groupSetId"))
                then None else Cache.store c !! k) as Hk.
    { intros k. rewrite swept_lookup, uncaches_literal.
      - simpl. by rewrite orb_false_r.
      - repeat constructor.
        + rewrite !endsWithStar_app; [reflexivity|nonempty..].
        + rewrite endsWithStar_app by discriminate.
          by apply (endsWithStar_app_id "/group_categories"). }
    split; [exact Hk|]. rewrite Hk.
    destruct (String.eqb_spec
                (v1 ++ "/group_categories/"
                 ++ toString (GroupSet.option_ options "groupSetId") ++ "/groups")
                (v1 ++ "/courses/"
                 ++ toString (GroupSet.option_ options "courseId")
                 ++ "/group_categories")) as [Heq|_].
    { apply append_cancel in Heq. discriminate Heq. }
    destruct (String.eqb_spec
                (v1 ++ "/group_categories/"
                 ++ toString (GroupSet.option_ options "groupSetId") ++ "/groups")
                (v1 ++ "/group_categories/"
                 ++ toString (GroupSet.option_ options "groupSetId"))) as [Heq|_];
      [|done].
    apply append_cancel, append_cancel in Heq.
    by apply append_not_self in Heq.
Qed.

Lemma GroupSet_createGroup_uncaches_two_witness :
  endsWithStar (toString (GroupSet.option_ groupSetOptions "groupSetId")) = false /\
  Endpoint.uncache deletingThis = EndpointCategory.uncache 0 /\
  cacheAt groupSetsWorld (getField groupSetsWorld 0 "cache")
  = Some (1, groupSetsCache) /\
  exists c',
    GroupSet.createGroup "/api/v1" (fun v => VBool (truthy v)) deletingThis
      groupSetOptions groupSetsWorld
    = (Returns (Promise_resolve (VObj {[ "id" := VNum 3 ]})),
       setCache groupSetsWorld 1 c') /\
    (forall k,
       Cache.store c' !! k
       = if String.eqb k ("/api/v1" ++ "/courses/"
                          ++ toString (GroupSet.option_ groupSetOptions "courseId")
                          ++ "/group_categories")
            || String.eqb k ("/api/v1" ++ "/group_categories/"
                             ++ toString (GroupSet.option_ groupSetOptions
                                            "groupSetId"))
         then None else Cache.store groupSetsCache !! k) /\
    Cache.store c' !! ("/api/v1" ++ "/group_categories/"
                       ++ toString (GroupSet.option_ groupSetOptions "groupSetId")
                       ++ "/groups")
    = Cache.store groupSetsCache
        !! ("/api/v1" ++ "/group_categories/"
            ++ toString (GroupSet.option_ groupSetOptions "groupSetId")
            ++ "/groups").
Proof.
  do 3 (split; [reflexivity|]).
  apply (GroupSet_createGroup_uncaches_two "/api/v1" (fun v => VBool (truthy v))
           deletingThis 0 groupSetOptions groupSetsWorld groupSetsWorld
           (VObj {[ "id" := VNum 3 ]}) 1 groupSetsCache); reflexivity.
Defined.

(** ** The enrollments of a course *)

Lemma startsWith_refl (s : string) : startsWith s s = true.
Proof.
  induction s as [|c s IH]; [reflexivity|].
  simpl. by rewrite Ascii.eqb_refl, IH.
Qed.

Lemma includes_self (s : string) : Course.includes s s = true.
Proof. destruct s; simpl; [reflexivity|]. by rewrite Ascii.eqb_refl, startsWith_refl. Qed.

Lemma includes_app_l (a b sub : string) :
  Course.includes b sub = true -> Course.includes (a ++ b) sub = true.
Proof.
  intros Hb. induction a as [|c a IH]; [exact Hb|].
  change (startsWith (String c (a ++ b)) sub || Course.includes (a ++ b) sub = true).
  rewrite IH. apply orb_true_r.
Qed.

Section enrollments.

Variable v1 : string.
Variable toUpperCase : string -> string.

Local Abbreviation enrollmentTypeOf := (enrollmentTypeOf toUpperCase).

Lemma enrollmentTypeOf_includes (s : string) :
  Course.includes (enrollmentTypeOf s) "Enrollment" = true.
Proof.
  unfold enrollmentTypeOf. destruct (Course.includes s "Enrollment") eqn:Hs; [done|].
  apply includes_app_l, includes_app_l, includes_self.
Qed.

Lemma mapTypes_strings (types : list value) :
  Forall (fun type => exists s, type = VStr s) types ->
  exists ts,
    Course.mapTypes toUpperCase types = inr ts /\
    Forall2 (fun type t => exists s, type = VStr s /\ t = VStr (enrollmentTypeOf s))
      types ts.
Proof.
  induction 1 as [|type types [s ->] _ (ts & Hts & Hall)].
  - exists []. by split; [|constructor].
  - exists (VStr (enrollmentTypeOf s) :: ts). split.
    + simpl. rewrite Hts. unfold enrollmentTypeOf.
      by destruct (Course.includes s "Enrollment").
    + constructor; [by exists s|done].
Qed.

Lemma pushGroupIds_other (params : gmap string value) (k : string) :
  k ≠ "include" -> Course.pushGroupIds params !! k = params !! k.
Proof.
  intros Hk. unfold Course.pushGroupIds.
  destruct (or_else _ _); try reflexivity. by rewrite lookup_insert_ne.
Qed.

(** The flags add [state] and [include] and leave the rest of [params]
    as [options.types] made it. *)
Lemma listEnrollments_params_other (options params : gmap string value) :
  Course.typeParams toUpperCase options = inr params ->
  exists params',
    Course.listEnrollments_params toUpperCase options = inr params' /\
    forall k, k ≠ "state" -> k ≠ "include" -> params' !! k = params !! k.
Proof.
  intros Hp. unfold Course.listEnrollments_params. rewrite Hp.
  eexists. split; [reflexivity|]. intros k Hs Hi.
  repeat match goal with
         | |- context [if ?b then _ else _] => destruct b
         end;
    rewrite ?pushGroupIds_other, ?lookup_insert_ne by done; reflexivity.
Qed.

Lemma listEnrollments_runs (self : Endpoint.this) (options params : gmap string value)
    (w : world) :
  Course.listEnrollments_params toUpperCase options = inr params ->
  Course.listEnrollments v1 toUpperCase self options w
  = Endpoint.visitEndpoint self
      {| path := v1 ++ "/courses/"
                 ++ toString (GroupSet.option_ options "courseId") ++ "/enrollments";
         method := VStr "GET"; params := Some params |} w.
Proof. intros Hp. unfold Course.listEnrollments. by rewrite Hp. Qed.

End enrollments.

(** X16: when [options.types] is an array of strings,
    [Course.listEnrollments] throws nothing of its own and hands one
    request to [visitEndpoint], whose [type] parameter has one string for
    each type given, in their order.  Each of them includes the text
    Enrollment, whatever [toUpperCase] does, and a type that included it
    already is sent as it was given. *)
Theorem listEnrollments_sends_enrollment_types (v1 : string)
    (toUpperCase : string -> string) (self : Endpoint.this)
    (options : gmap string value) (w : world) (types : list value) :
  GroupSet.option_ options "types" = VArr types ->
  Forall (fun type => exists s, type = VStr s) types ->
  exists ts params,
    Course.listEnrollments v1 toUpperCase self options w
    = Endpoint.visitEndpoint self
        {| path := v1 ++ "/courses/"
                   ++ toString (GroupSet.option_ options "courseId")
                   ++ "/enrollments";
           method := VStr "GET"; params := Some params |} w /\
    params !! "type" = Some (VArr ts) /\
    length ts = length types /\
    (forall i t, ts !! i = Some t ->
       exists s, t = VStr s /\ Course.includes s "Enrollment" = true) /\
    (forall i s, types !! i = Some (VStr s) ->
       Course.includes s "Enrollment" = true -> ts !! i = Some (VStr s)).
Proof.
  intros Htypes Hstr.
  destruct (mapTypes_strings toUpperCase types Hstr) as (ts & Hts & Hall).
  destruct (listEnrollments_params_other toUpperCase options {[ "type" := VArr ts ]})
    as (params & Hparams & Hother).
  { unfold Course.typeParams. by rewrite Htypes, Hts. }
  exists ts, params. split; [by apply listEnrollments_runs|].
  split; [by rewrite Hother, ?lookup_singleton_eq|].
  split; [symmetry; by eapply Forall2_length|].
  split.
  - intros i t Ht.
    destruct (Forall2_lookup_r _ _ _ _ _ Hall Ht) as (type & _ & s & _ & ->).
    eexists. split; [reflexivity|]. apply enrollmentTypeOf_includes.
  - intros i s Hi Hs.
    destruct (Forall2_lookup_l _ _ _ _ _ Hall Hi) as (t & Ht & s' & [= <-] & ->).
    rewrite Ht. unfold enrollmentTypeOf. by rewrite Hs.
Qed.

Lemma listEnrollments_sends_enrollment_types_witness :
  GroupSet.option_ enrollmentOptions "types"
  = VArr [VStr "student"; VStr "TaEnrollment"] /\
  Forall (fun type => exists s, type = VStr s) [VStr "student"; VStr "TaEnrollment"] /\
  exists ts params,
    Course.listEnrollments "/api/v1" upper listingThis enrollmentOptions noWorld
    = Endpoint.visitEndpoint listingThis
        {| path := "/api/v1" ++ "/courses/"
                   ++ toString (GroupSet.option_ enrollmentOptions "courseId")
                   ++ "/enrollments";
           method := VStr "GET"; params := Some params |} noWorld /\
    params !! "type" = Some (VArr ts) /\
    length ts = length [VStr "student"; VStr "TaEnrollment"] /\
    (forall i t, ts !! i = Some t ->
       exists s, t = VStr s /\ Course.includes s "Enrollment" = true) /\
    (forall i s, [VStr "student"; VStr "TaEnrollment"] !! i = Some (VStr s) ->
       Course.includes s "Enrollment" = true -> ts !! i = Some (VStr s)).
Proof.
  split; [reflexivity|].
  split; [repeat constructor; eexists; reflexivity|].
  apply (listEnrollments_sends_enrollment_types "/api/v1" upper listingThis
           enrollmentOptions noWorld [VStr "student"; VStr "TaEnrollment"]).
  - reflexivity.
  - repeat constructor; eexists; reflexivity.
Defined.

(** X17: the four lists by role put their own types in place of the
    caller's.  With [listEnrollments] of the same instance behind
    [this.api.course.listEnrollments], and a [toUpperCase] that turns s,
    t, d and o into capitals, each of them hands one request for the
    enrollments of the course to [visitEndpoint], and the [type]
    parameter names the role and nothing else, whatever [options.types]
    held: a value that would make [listEnrollments] throw does no harm
    here. *)
Theorem role_lists_send_their_types (v1 : string) (toUpperCase : string -> string)
    (self : Endpoint.this) (options : gmap string value) (w : world) :
  toUpperCase "s" = "S" -> toUpperCase "t" = "T" ->
  toUpperCase "d" = "D" -> toUpperCase "o" = "O" ->
  forall roleList types,
    In (roleList, types)
      [ (Course.listStudents, [VStr "StudentEnrollment"]);
        (Course.listTeachingTeamMembers,
         [VStr "TaEnrollment"; VStr "TeacherEnrollment"]);
        (Course.listDesigners, [VStr "DesignerEnrollment"]);
        (Course.listObservers, [VStr "ObserverEnrollment"]) ] ->
    exists params,
      roleList (Course.listEnrollments v1 toUpperCase self) options w
      = Endpoint.visitEndpoint self
          {| path := v1 ++ "/courses/"
                     ++ toString (GroupSet.option_ options "courseId")
                     ++ "/enrollments";
             method := VStr "GET"; params := Some params |} w /\
      params !! "type" = Some (VArr types).
Proof.
  intros Hs Ht Hd Ho roleList types Hin.
  assert (forall given ts,
            Course.mapTypes toUpperCase given = inr ts ->
            exists params,
              Course.listEnrollments v1 toUpperCase self
                (<["types" := VArr given]> options) w
              = Endpoint.visitEndpoint self
                  {| path := v1 ++ "/courses/"
                             ++ toString (GroupSet.option_ options "courseId")
                             ++ "/enrollments";
                     method := VStr "GET"; params := Some params |} w /\
              params !! "type" = Some (VArr ts)) as Hrun.
  { intros given ts Hts.
    destruct (listEnrollments_params_other toUpperCase
                (<["types" := VArr given]> options) {[ "type" := VArr ts ]})
      as (params & Hparams & Hother).
    { unfold Course.typeParams, GroupSet.option_.
      by rewrite lookup_insert_eq; simpl; rewrite Hts. }
    exists params. split; [|by rewrite Hother, ?lookup_singleton_eq].
    rewrite (listEnrollments_runs v1 toUpperCase self _ params w Hparams).
    unfold GroupSet.option_. by rewrite lookup_insert_ne. }
  simpl in Hin.
  destruct Hin as [[= <- <-]|[[= <- <-]|[[= <- <-]|[[= <- <-]|[]]]]];
    apply Hrun; simpl; by rewrite ?Hs, ?Ht, ?Hd, ?Ho.
Qed.

Lemma role_lists_send_their_types_witness :
  upper "s" = "S" /\ upper "t" = "T" /\ upper "d" = "D" /\ upper "o" = "O" /\
  exists params,
    Course.listTeachingTeamMembers (Course.listEnrollments "/api/v1" upper listingThis)
      enrollmentOptions noWorld
    = Endpoint.visitEndpoint listingThis
        {| path := "/api/v1" ++ "/courses/"
                   ++ toString (GroupSet.option_ enrollmentOptions "courseId")
                   ++ "/enrollments";
           method := VStr "GET"; params := Some params |} noWorld /\
    params !! "type" = Some (VArr [VStr "TaEnrollment"; VStr "TeacherEnrollment"]).
Proof.
  do 4 (split; [reflexivity|]).
  apply (role_lists_send_their_types "/api/v1" upper listingThis enrollmentOptions
           noWorld eq_refl eq_refl eq_refl eq_refl
           Course.listTeachingTeamMembers
           [VStr "TaEnrollment"; VStr "TeacherEnrollment"]).
  simpl. right. left. reflexivity.
Defined.

(** ** The metadata of an app *)

Lemma append_cancel_r (a b : string) (c : ascii) :
  a ++ String c "" = b ++ String c "" -> a = b.
Proof.
  revert b. induction a as [|x a IH]; intros [|y b]; simpl; intros H.
  - reflexivity.
  - injection H as _ H. by destruct b.
  - injection H as _ H. by destruct a.
  - injection H as -> H. f_equal. by apply IH.
Qed.

Lemma custom_field_inj (k k' : string) :
  "custom_fields[" ++ k ++ "]" = "custom_fields[" ++ k' ++ "]" -> k = k'.
Proof. intros H. by apply append_cancel, append_cancel_r in H. Qed.

Lemma updateParams_lookup (metadata : string) (app : value) :
  let p := App.updateParams metadata app in
  let fields := App.entries (prop app "custom_fields") in
  p !! "custom_fields[metadata]" = Some (VStr metadata) /\
  (forall k, k ≠ "metadata" -> p !! ("custom_fields[" ++ k ++ "]") = fields !! k) /\
  (forall key, is_Some (p !! key) -> exists k, key = "custom_fields[" ++ k ++ "]").
Proof.
  unfold App.updateParams.
  apply (map_fold_weak_ind
           (fun p fields =>
              p !! "custom_fields[metadata]" = Some (VStr metadata) /\
              (forall k, k ≠ "metadata" ->
                 p !! ("custom_fields[" ++ k ++ "]") = fields !! k) /\
              (forall key, is_Some (p !! key) ->
                 exists k, key = "custom_fields[" ++ k ++ "]"))).
  - split; [by rewrite lookup_singleton_eq|]. split.
    + intros k Hk. rewrite lookup_empty. apply lookup_singleton_ne.
      intros H. by apply (custom_field_inj "metadata" k) in H.
    + intros key [v Hv]. apply lookup_singleton_Some in Hv as [<- _].
      by exists "metadata".
  - intros i x fields p Hi (Hm & Hk & Hdom).
    destruct (String.eqb_spec i "metadata") as [->|Hne].
    + split; [done|]. split; [|done].
      intros k Hkm. rewrite lookup_insert_ne by done. by apply Hk.
    + split; [|split].
      * rewrite lookup_insert_ne; [done|].
        intros H. by apply (custom_field_inj i "metadata") in H.
      * intros k Hkm. destruct (decide (i = k)) as [->|Hik].
        -- by rewrite !lookup_insert_eq.
        -- rewrite !lookup_insert_ne; [by apply Hk|done|].
           intros H. by apply custom_field_inj in H.
      * intros key Hkey.
        destruct (decide ("custom_fields[" ++ i ++ "]" = key)) as [<-|Hik].
        -- by exists i.
        -- rewrite lookup_insert_ne in Hkey by done. by apply Hdom.
Qed.

Section metadata_facts.

Variable strictEquals : value -> value -> bool.

(** An app that passes the test has an object for its custom fields. *)
Lemma hasMetadataId_object (options : gmap string value) (app : value) :
  App.hasMetadataId strictEquals options app = inr true ->
  exists fields, prop app "custom_fields" = VObj fields.
Proof.
  unfold App.hasMetadataId. destruct app; try discriminate; intros [= H];
    apply andb_true_iff in H as [H _]; apply andb_true_iff in H as [_ H];
    try discriminate.
  simpl in *. destruct (default VUndefined (fields !! "custom_fields"));
    try discriminate.
  by eexists.
Qed.

Lemma appsToUpdate_elem (options : gmap string value) (apps kept : list value)
    (app : value) :
  App.appsToUpdate strictEquals options apps = inr kept ->
  In app kept ->
  In app apps /\ App.hasMetadataId strictEquals options app = inr true.
Proof.
  revert kept. induction apps as [|a apps IH]; intros kept; simpl.
  - intros [= <-] [].
  - destruct (App.hasMetadataId strictEquals options a) as [e|keep] eqn:Ha;
      [discriminate|].
    destruct (App.appsToUpdate strictEquals options apps) as [e|kept'];
      [discriminate|].
    intros [= <-] Hin. destruct keep.
    + destruct Hin as [<-|Hin]; [by split; [left|]|].
      destruct (IH kept' eq_refl Hin). by split; [right|].
    + destruct (IH kept' eq_refl Hin). by split; [right|].
Qed.

Lemma firstApp_head (options : gmap string value) (apps kept : list value) :
  App.appsToUpdate strictEquals options apps = inr kept ->
  App.firstAppWithMetadataId strictEquals options apps = inr (head kept).
Proof.
  revert kept. induction apps as [|a apps IH]; intros kept; simpl.
  - by intros [= <-].
  - destruct (App.hasMetadataId strictEquals options a) as [e|keep];
      [discriminate|].
    destruct (App.appsToUpdate strictEquals options apps) as [e|kept'];
      [discriminate|].
    intros [= <-]. destruct keep; [reflexivity|]. by apply IH.
Qed.

End metadata_facts.

(** X18: the two metadata endpoints choose their apps alike.  Whenever
    the filter of [updateMetadata] goes through the array of apps without
    a type error, the app that [getMetadata] reads is the first of the
    apps that [updateMetadata] writes; with no such app the first one
    throws [noAppWithMetadataFound] and the second one
    [noAppsToUpdateMetadata], and with at least one neither error is
    thrown and there is one request for each app to update. *)
Theorem metadata_endpoints_pick_the_same_apps (v1 : string)
    (strictEquals : value -> value -> bool) (trim : string -> string)
    (JSON_parse : string -> option value) (JSON_stringify : value -> string)
    (options : gmap string value) (apps kept : list value) :
  App.appsToUpdate strictEquals options apps = inr kept ->
  App.firstAppWithMetadataId strictEquals options apps = inr (head kept) /\
  (kept = [] ->
   App.getMetadata_then strictEquals trim JSON_parse options apps
   = inl (App.CACCLError "We could not find any apps with the given metadata id."
            App.noAppWithMetadataFound) /\
   App.updateMetadata_requests v1 strictEquals JSON_stringify options apps
   = inl (App.CACCLError "We could not find any apps with the given metadata id."
            App.noAppsToUpdateMetadata)) /\
  (kept ≠ [] ->
   (forall message,
      App.getMetadata_then strictEquals trim JSON_parse options apps
      ≠ inl (App.CACCLError message App.noAppWithMetadataFound)) /\
   exists requests,
     App.updateMetadata_requests v1 strictEquals JSON_stringify options apps
     = inr requests /\
     length requests = length kept).
Proof.
  intros Hkept. pose proof (firstApp_head _ _ _ _ Hkept) as Hfirst.
  split; [exact Hfirst|]. split.
  - intros ->. unfold App.getMetadata_then, App.updateMetadata_requests.
    by rewrite Hfirst, Hkept.
  - intros Hne. destruct kept as [|app kept]; [done|]. split.
    + intros message. unfold App.getMetadata_then. rewrite Hfirst. simpl.
      repeat match goal with
             | |- context [if ?b then _ else _] => destruct b
             | |- context [match ?x with _ => _ end] => destruct x
             end; discriminate.
    + unfold App.updateMetadata_requests. rewrite Hkept.
      eexists. split; [reflexivity|]. by rewrite length_map.
Qed.

Lemma metadata_endpoints_pick_the_same_apps_witness :
  App.appsToUpdate sameValue metadataOptions installedApps
  = inr (drop 1 installedApps) /\
  App.firstAppWithMetadataId sameValue metadataOptions installedApps
  = inr (head (drop 1 installedApps)) /\
  (drop 1 installedApps = [] ->
   App.getMetadata_then sameValue trimmed parseEmptyObject metadataOptions
     installedApps
   = inl (App.CACCLError "We could not find any apps with the given metadata id."
            App.noAppWithMetadataFound) /\
   App.updateMetadata_requests "/api/v1" sameValue stringifyEmptyObject
     metadataOptions installedApps
   = inl (App.CACCLError "We could not find any apps with the given metadata id."
            App.noAppsToUpdateMetadata)) /\
  (drop 1 installedApps ≠ [] ->
   (forall message,
      App.getMetadata_then sameValue trimmed parseEmptyObject metadataOptions
        installedApps
      ≠ inl (App.CACCLError message App.noAppWithMetadataFound)) /\
   exists requests,
     App.updateMetadata_requests "/api/v1" sameValue stringifyEmptyObject
       metadataOptions installedApps
     = inr requests /\
     length requests = length (drop 1 installedApps)).
Proof.
  split; [reflexivity|].
  apply (metadata_endpoints_pick_the_same_apps "/api/v1" sameValue trimmed
           parseEmptyObject stringifyEmptyObject metadataOptions installedApps
           (drop 1 installedApps)).
  reflexivity.
Defined.

(** X19: an update of the metadata keeps the other custom fields of an
    app.  Every request that [updateMetadata] hands to [visitEndpoint] is
    a PUT to an app of the list whose custom fields are an object; its
    parameters hold the new metadata under [custom_fields[metadata]],
    whatever the old metadata was, every other custom field of the app
    under its own name with its own value, and nothing else. *)
Theorem updateMetadata_keeps_custom_fields (v1 : string)
    (strictEquals : value -> value -> bool) (JSON_stringify : value -> string)
    (options : gmap string value) (apps : list value) (requests : list request) :
  App.updateMetadata_requests v1 strictEquals JSON_stringify options apps
  = inr requests ->
  Forall
    (fun req =>
       method req = VStr "PUT" /\
       exists app fields p,
         In app apps /\
         prop app "custom_fields" = VObj fields /\
         path req = v1 ++ "/courses/"
                    ++ toString (GroupSet.option_ options "courseId")
                    ++ "/external_tools/" ++ toString (prop app "id") /\
         params req = Some p /\
         p !! "custom_fields[metadata]"
         = Some (VStr (JSON_stringify
                         (or_else (GroupSet.option_ options "metadata") (VObj ∅)))) /\
         (forall k, k ≠ "metadata" ->
            p !! ("custom_fields[" ++ k ++ "]") = fields !! k) /\
         (forall key, is_Some (p !! key) ->
            exists k, key = "custom_fields[" ++ k ++ "]"))
    requests.
Proof.
  unfold App.updateMetadata_requests.
  destruct (App.appsToUpdate strictEquals options apps) as [e|kept] eqn:Hkept;
    [discriminate|].
  destruct kept as [|app0 kept0] eqn:Hk; [discriminate|]. rewrite <- Hk in *.
  intros [= <-]. rewrite Forall_map. apply List.Forall_forall. intros app Hin.
  destruct (appsToUpdate_elem _ _ _ _ _ Hkept Hin) as [Happ Hhas].
  destruct (hasMetadataId_object _ _ _ Hhas) as [fields Hfields].
  split; [reflexivity|]. exists app, fields. eexists.
  split; [done|]. split; [done|]. split; [reflexivity|]. split; [reflexivity|].
  pose proof (updateParams_lookup
                (JSON_stringify (or_else (GroupSet.option_ options "metadata") (VObj ∅)))
                app) as Hp.
  simpl in Hp. rewrite Hfields in Hp. exact Hp.
Qed.

Lemma updateMetadata_keeps_custom_fields_witness :
  exists requests,
    App.updateMetadata_requests "/api/v1" sameValue stringifyEmptyObject
      metadataOptions installedApps
    = inr requests /\
    length requests = 2 /\
    Forall
      (fun req =>
         method req = VStr "PUT" /\
         exists app fields p,
           In app installedApps /\
           prop app "custom_fields" = VObj fields /\
           path req = "/api/v1" ++ "/courses/"
                      ++ toString (GroupSet.option_ metadataOptions "courseId")
                      ++ "/external_tools/" ++ toString (prop app "id") /\
           params req = Some p /\
           p !! "custom_fields[metadata]"
           = Some (VStr (stringifyEmptyObject
                           (or_else (GroupSet.option_ metadataOptions "metadata")
                              (VObj ∅)))) /\
           (forall k, k ≠ "metadata" ->
              p !! ("custom_fields[" ++ k ++ "]") = fields !! k) /\
           (forall key, is_Some (p !! key) ->
              exists k, key = "custom_fields[" ++ k ++ "]"))
      requests.
Proof.
  eexists. split; [reflexivity|]. split; [reflexivity|].
  apply (updateMetadata_keeps_custom_fields "/api/v1" sameValue
           stringifyEmptyObject metadataOptions installedApps).
  reflexivity.
Defined.
